(** * Weather dashboard: formatters, forecast projector and session controller

    A shallow embedding of [WeatherDashboard.jsx] (the formatter utilities,
    [buildForecastPoints] and the [fetchWeather] request cycle) together
    with the properties its specification states about them.

    Conventions of the embedding:
    - a JavaScript string is the list of its UTF-16 code units;
    - a JavaScript Number is an IEEE-754 binary64 value ([spec_float] with
      [prec = 53] and [emax = 1024]); the real number it denotes is a
      rational ([Q]).  Epoch timestamps and UTC offsets, which the upstream
      API delivers as integer seconds, are integers ([Z]): sums and
      products of integers of this size are exact in binary64;
    - an abrupt completion ([throw]) is the [Throw] constructor of
      [Completion];
    - React state is the record [SessionState]; a state setter replaces one
      field.  The asynchronous [fetchWeather] is split at its [await] into
      the synchronous prefix [fetchWeather_begin] and the continuation
      [fetchWeather_settle], so that cycles can be interleaved; what the
      network answers to a cycle is the record [Outcome]. *)

From Stdlib Require Import ZArith NArith QArith List Bool String Ascii Lia.
From Stdlib Require Import Floats.SpecFloat.
Import ListNotations.

Local Open Scope Z_scope.

(** ** JavaScript strings *)

Module JS.

Definition jsstring := list N.

(** Reads a source literal (UTF-8 in this file) as UTF-16 code units. *)
Fixpoint utf16 (s : string) : jsstring :=
  match s with
  | EmptyString => []
  | String a rest =>
    let b0 := N_of_ascii a in
    if (b0 <? 128)%N then b0 :: utf16 rest
    else if (b0 <? 224)%N then
      match rest with
      | String b rest1 =>
        ((b0 mod 32) * 64 + N_of_ascii b mod 64)%N :: utf16 rest1
      | EmptyString => [b0]
      end
    else if (b0 <? 240)%N then
      match rest with
      | String b (String c rest2) =>
        ((b0 mod 16) * 4096 + (N_of_ascii b mod 64) * 64
         + N_of_ascii c mod 64)%N :: utf16 rest2
      | _ => [b0]
      end
    else
      match rest with
      | String b (String c (String d rest3)) =>
        let cp := ((b0 mod 8) * 262144 + (N_of_ascii b mod 64) * 4096
                   + (N_of_ascii c mod 64) * 64 + N_of_ascii d mod 64)%N in
        let v := (cp - 65536)%N in
        (55296 + v / 1024)%N :: (56320 + v mod 1024)%N :: utf16 rest3
      | _ => [b0]
      end
  end.

Arguments utf16 s : simpl never.

Definition jsstring_eqb (a b : jsstring) : bool :=
  if list_eq_dec N.eq_dec a b then true else false.

(** ECMAScript WhiteSpace and LineTerminator code points, the set that
    [String.prototype.trim] strips. *)
Definition is_white_space (c : N) : bool :=
  ((c =? 9) || (c =? 10) || (c =? 11) || (c =? 12) || (c =? 13) || (c =? 32)
   || (c =? 160) || (c =? 5760) || ((8192 <=? c) && (c <=? 8202))
   || (c =? 8232) || (c =? 8233) || (c =? 8239) || (c =? 8287)
   || (c =? 12288) || (c =? 65279))%N.

Fixpoint trim_start (s : jsstring) : jsstring :=
  match s with
  | [] => []
  | c :: rest => if is_white_space c then trim_start rest else s
  end.

Definition trim_end (s : jsstring) : jsstring := rev (trim_start (rev s)).

(** [s.trim()] *)
Definition trim (s : jsstring) : jsstring := trim_end (trim_start s).

(** [!s] for a string: only the empty string is falsy. *)
Definition string_falsy (s : jsstring) : bool :=
  match s with [] => true | _ => false end.

(** A value read from configuration: [undefined] or a string. *)
Definition config_falsy (v : option jsstring) : bool :=
  match v with None => true | Some s => string_falsy s end.

(** Completion records: normal completion or a thrown exception. *)
Inductive Exception :=
| TypeError
| RangeError.

Inductive Completion (A : Type) :=
| Normal (a : A)
| Throw (e : Exception).
Arguments Normal {A} a.
Arguments Throw {A} e.

Definition bind {A B} (c : Completion A) (k : A -> Completion B) : Completion B :=
  match c with
  | Normal a => k a
  | Throw e => Throw e
  end.

(** [Array.prototype.map] with a callback that may throw: the first
    throw aborts the whole map. *)
Fixpoint map_completion {A B} (f : A -> Completion B) (l : list A)
  : Completion (list B) :=
  match l with
  | [] => Normal []
  | a :: rest =>
    bind (f a) (fun b => bind (map_completion f rest) (fun bs => Normal (b :: bs)))
  end.

End JS.
Import JS.

(** ** Session controller *)

Module Session.

Inductive UnitSystem := metric | imperial.

Definition units_param (u : UnitSystem) : jsstring :=
  match u with
  | metric => utf16 "metric"
  | imperial => utf16 "imperial"
  end.

Definition DEFAULT_CITY : jsstring := utf16 "Madrid".

Section Controller.

(** The parsed bodies of the two endpoints; the controller stores them
    without looking inside. *)
Variables Current Forecast : Type.

Record WeatherData := { current : Current; forecast : Forecast }.

Record SessionState := {
  city : jsstring;
  searchTerm : jsstring;
  units : UnitSystem;
  weatherData : option WeatherData;
  loading : bool;
  error : option jsstring;
  lastUpdated : option Z
}.

(** The two views of [weatherData] the specification names. *)
Definition currentConditions (st : SessionState) : option Current :=
  option_map current (weatherData st).
Definition forecastSeries (st : SessionState) : option Forecast :=
  option_map forecast (weatherData st).

Definition initialState : SessionState :=
  {| city := DEFAULT_CITY; searchTerm := DEFAULT_CITY; units := metric;
     weatherData := None; loading := false; error := None;
     lastUpdated := None |}.

(** State setters. *)
Definition setWeatherData v st :=
  {| city := city st; searchTerm := searchTerm st; units := units st;
     weatherData := v; loading := loading st;
     error := error st; lastUpdated := lastUpdated st |}.
Definition setLoading v st :=
  {| city := city st; searchTerm := searchTerm st; units := units st;
     weatherData := weatherData st; loading := v;
     error := error st; lastUpdated := lastUpdated st |}.
Definition setError v st :=
  {| city := city st; searchTerm := searchTerm st; units := units st;
     weatherData := weatherData st; loading := loading st;
     error := v; lastUpdated := lastUpdated st |}.
Definition setLastUpdated v st :=
  {| city := city st; searchTerm := searchTerm st; units := units st;
     weatherData := weatherData st; loading := loading st;
     error := error st; lastUpdated := v |}.

(** The messages of [fetchWeather]. *)
Definition MSG_MISSING_KEY : jsstring :=
  utf16 "Falta la clave de API de OpenWeather. Agrega VITE_OPENWEATHER_API_KEY a un archivo .env.local en la raíz del proyecto.".
Definition MSG_INVALID_CITY : jsstring :=
  utf16 "Ingresa una ciudad válida para continuar.".
Definition MSG_CURRENT_FAILED : jsstring :=
  utf16 "No encontramos datos para esa ubicación.".
Definition MSG_FORECAST_FAILED : jsstring :=
  utf16 "Ocurrió un problema al obtener el pronóstico extendido.".

(** *** Network *)

Inductive Endpoint := weather_endpoint | forecast_endpoint.

(** A request: the path under [WEATHER_API_BASE] and the
    [URLSearchParams] entries, in insertion order. *)
Record Request := {
  endpoint : Endpoint;
  params : list (jsstring * jsstring)
}.

(** How a promise settles; a rejection carries the [message] of its
    reason. *)
Inductive Settled (A : Type) :=
| Fulfilled (a : A)
| Rejected (message : jsstring).
Arguments Fulfilled {A} a.
Arguments Rejected {A} message.

(** A [Response]: its status code and how [json()] settles. *)
Record Response (A : Type) := {
  status : Z;
  json : Settled A
}.
Arguments status {A} r.
Arguments json {A} r.

(** [Response.ok]: the status is in the range 200-299. *)
Definition ok {A} (r : Response A) : bool :=
  (200 <=? status r) && (status r <=? 299).

(** [Promise.all([p1, p2])]: fulfilled with both values, or rejected with
    the reason of the input that rejects first; [secondFirst] tells that
    the second input settles before the first. *)
Definition promise_all {A B} (secondFirst : bool)
  (p1 : Settled A) (p2 : Settled B) : Settled (A * B) :=
  match p1, p2 with
  | Fulfilled a, Fulfilled b => Fulfilled (a, b)
  | Rejected m, Fulfilled _ => Rejected m
  | Fulfilled _, Rejected m => Rejected m
  | Rejected m1, Rejected m2 => Rejected (if secondFirst then m2 else m1)
  end.

(** What the outside world answers to one cycle, and the time at which
    the cycle settles. *)
Record Outcome := {
  currentFetch : Settled (Response Current);
  forecastFetch : Settled (Response Forecast);
  fetchOrder : bool;
  jsonOrder : bool;
  now : Z
}.

(** The controller's world: the React state and the log of requests
    handed to [fetch], oldest first. *)
Record World := {
  session : SessionState;
  requests : list Request
}.

Definition update (f : SessionState -> SessionState) (w : World) : World :=
  {| session := f (session w); requests := requests w |}.

Definition fetch (r : Request) (w : World) : World :=
  {| session := session w; requests := requests w ++ [r] |}.

(** [new URLSearchParams({ q, units, appid, lang: 'es' })] *)
Definition query_params (trimmedCity : jsstring) (overrideUnits : UnitSystem)
  (apiKey : jsstring) : list (jsstring * jsstring) :=
  [ (utf16 "q", trimmedCity);
    (utf16 "units", units_param overrideUnits);
    (utf16 "appid", apiKey);
    (utf16 "lang", utf16 "es") ].

(** [fetchWeather] up to its first [await]: the precondition guards, then
    [setLoading(true)], [setError(null)] and the two [fetch] calls.  The
    boolean tells whether a cycle is now in flight. *)
Definition fetchWeather_begin (apiKey : option jsstring)
  (overrideCity : jsstring) (overrideUnits : UnitSystem) (w : World)
  : World * bool :=
  match apiKey with
  | None => (update (setError (Some MSG_MISSING_KEY)) w, false)
  | Some key =>
    if string_falsy key then (update (setError (Some MSG_MISSING_KEY)) w, false)
    else
      let trimmedCity := trim overrideCity in
      if string_falsy trimmedCity then
        (update (setError (Some MSG_INVALID_CITY)) w, false)
      else
        let w := update (setLoading true) w in
        let w := update (setError None) w in
        let params := query_params trimmedCity overrideUnits key in
        let w := fetch {| endpoint := weather_endpoint; params := params |} w in
        let w := fetch {| endpoint := forecast_endpoint; params := params |} w in
        (w, true)
  end.

(** The body of the [try] after the first [await]: either both parsed
    payloads, or the message of whatever was thrown. *)
Definition await_payloads (o : Outcome) : Settled (Current * Forecast) :=
  match promise_all (fetchOrder o) (currentFetch o) (forecastFetch o) with
  | Rejected m => Rejected m
  | Fulfilled (currentRes, forecastRes) =>
    if negb (ok currentRes) then Rejected MSG_CURRENT_FAILED
    else if negb (ok forecastRes) then Rejected MSG_FORECAST_FAILED
    else promise_all (jsonOrder o) (json currentRes) (json forecastRes)
  end.

(** The continuation of [fetchWeather] once its awaits have settled: the
    rest of the [try], the [catch] and the [finally]. *)
Definition fetchWeather_settle (o : Outcome) (w : World) : World :=
  let w :=
    match await_payloads o with
    | Fulfilled (c, f) =>
      let w := update (setWeatherData (Some {| current := c; forecast := f |})) w in
      update (setLastUpdated (Some (now o))) w
    | Rejected message =>
      let w := update (setWeatherData None) w in
      update (setError (Some message)) w
    end in
  update (setLoading false) w.

(** One whole cycle run with nothing else in between. *)
Definition fetchWeather (apiKey : option jsstring)
  (overrideCity : jsstring) (overrideUnits : UnitSystem)
  (o : Outcome) (w : World) : World :=
  let (w1, inFlight) := fetchWeather_begin apiKey overrideCity overrideUnits w in
  if inFlight then fetchWeather_settle o w1 else w1.

(** Both requests answered with a success status and both bodies parsed. *)
Definition cycle_succeeds (o : Outcome) : bool :=
  match currentFetch o, forecastFetch o with
  | Fulfilled cr, Fulfilled fr =>
    ok cr && ok fr
    && match json cr, json fr with
       | Fulfilled _, Fulfilled _ => true
       | _, _ => false
       end
  | _, _ => false
  end.

(** The precondition of [fetchWeather]. *)
Definition precondition (apiKey : option jsstring) (overrideCity : jsstring) : bool :=
  negb (config_falsy apiKey) && negb (string_falsy (trim overrideCity)).

(** *** Interleaved cycles

    Triggers may start a cycle while another one is in flight; each cycle
    settles later, in any order. *)
Inductive Event :=
| Trigger (overrideCity : jsstring) (overrideUnits : UnitSystem) (o : Outcome)
| Settle (cycle : nat).

Record Machine := {
  world : World;
  inflight : list (nat * Outcome);
  issued : nat
}.

Fixpoint take_cycle (n : nat) (l : list (nat * Outcome))
  : option (Outcome * list (nat * Outcome)) :=
  match l with
  | [] => None
  | (k, o) :: rest =>
    if Nat.eqb k n then Some (o, rest)
    else match take_cycle n rest with
         | Some (o', rest') => Some (o', (k, o) :: rest')
         | None => None
         end
  end.

Definition step (apiKey : option jsstring) (m : Machine) (ev : Event) : Machine :=
  match ev with
  | Trigger c u o =>
    let (w, inFlight) := fetchWeather_begin apiKey c u (world m) in
    {| world := w;
       inflight := if inFlight then inflight m ++ [(issued m, o)] else inflight m;
       issued := S (issued m) |}
  | Settle n =>
    match take_cycle n (inflight m) with
    | Some (o, rest) =>
      {| world := fetchWeather_settle o (world m); inflight := rest;
         issued := issued m |}
    | None => m
    end
  end.

Definition run (apiKey : option jsstring) (evs : list Event) (m : Machine) : Machine :=
  fold_left (step apiKey) evs m.

Definition boot (w : World) : Machine :=
  {| world := w; inflight := []; issued := 0%nat |}.

(** Two cycles A then B, B settling first. *)
Definition overtaken (apiKey : option jsstring)
  (cityA : jsstring) (unitsA : UnitSystem) (oA : Outcome)
  (cityB : jsstring) (unitsB : UnitSystem) (oB : Outcome) (w : World) : Machine :=
  run apiKey [Trigger cityA unitsA oA; Trigger cityB unitsB oB;
              Settle 1%nat; Settle 0%nat] (boot w).

End Controller.

Arguments Fulfilled {A} a.
Arguments Rejected {A} message.
Arguments status {A} r.
Arguments json {A} r.
Arguments current {Current Forecast} w.
Arguments forecast {Current Forecast} w.
Arguments city {Current Forecast} s.
Arguments searchTerm {Current Forecast} s.
Arguments units {Current Forecast} s.
Arguments weatherData {Current Forecast} s.
Arguments loading {Current Forecast} s.
Arguments error {Current Forecast} s.
Arguments lastUpdated {Current Forecast} s.
Arguments currentConditions {Current Forecast} st.
Arguments forecastSeries {Current Forecast} st.
Arguments setWeatherData {Current Forecast} v st.
Arguments setLoading {Current Forecast} v st.
Arguments setError {Current Forecast} v st.
Arguments setLastUpdated {Current Forecast} v st.
Arguments currentFetch {Current Forecast} o.
Arguments forecastFetch {Current Forecast} o.
Arguments fetchOrder {Current Forecast} o.
Arguments jsonOrder {Current Forecast} o.
Arguments now {Current Forecast} o.
Arguments session {Current Forecast} w.
Arguments requests {Current Forecast} w.
Arguments update {Current Forecast} f w.
Arguments fetch {Current Forecast} r w.
Arguments fetchWeather_begin {Current Forecast} apiKey overrideCity overrideUnits w.
Arguments await_payloads {Current Forecast} o.
Arguments fetchWeather_settle {Current Forecast} o w.
Arguments fetchWeather {Current Forecast} apiKey overrideCity overrideUnits o w.
Arguments cycle_succeeds {Current Forecast} o.
Arguments Trigger {Current Forecast} overrideCity overrideUnits o.
Arguments Settle {Current Forecast} cycle.
Arguments world {Current Forecast} m.
Arguments inflight {Current Forecast} m.
Arguments issued {Current Forecast} m.
Arguments step {Current Forecast} apiKey m ev.
Arguments run {Current Forecast} apiKey evs m.
Arguments boot {Current Forecast} w.
Arguments overtaken {Current Forecast} apiKey cityA unitsA oA cityB unitsB oB w.

End Session.

(** ** Numbers: IEEE-754 binary64 and the built-ins applied to them *)

Module Num.

Definition number := spec_float.

Definition prec : Z := 53.
Definition emax : Z := 1024.

Definition of_Z (n : Z) : number := binary_normalize prec emax n 0 false.
Definition mul : number -> number -> number := SFmul prec emax.
Definition div : number -> number -> number := SFdiv prec emax.

(** A well-formed binary64 value: mantissa and exponent in canonical form. *)
Definition well_formed (x : number) : bool := valid_binary prec emax x.

Definition is_finite (x : number) : bool :=
  match x with
  | S754_zero _ | S754_finite _ _ _ => true
  | _ => false
  end.

(** The signed mantissa of a finite value: the value is
    [signed_mantissa * 2 ^ exponent]. *)
Definition signed_mantissa (s : bool) (m : positive) : Z :=
  if s then Z.neg m else Z.pos m.

(** The rational number [m * 2^e]. *)
Definition scaled (m e : Z) : Q :=
  if 0 <=? e then inject_Z (m * 2 ^ e) else Qmake m (Z.to_pos (2 ^ (- e))).

(** The real number a finite Number denotes. *)
Definition exact (x : number) : Q :=
  match x with
  | S754_finite s m e => scaled (signed_mantissa s m) e
  | _ => 0%Q
  end.

(** [n] is the integer nearest to [q], the upper one when two are
    equally near. *)
Definition nearest_integer (q : Q) (n : Z) : Prop :=
  (inject_Z n - (1 # 2) <= q /\ q < inject_Z n + (1 # 2))%Q.

(** [floor (m * 2^e + 1/2)]. *)
Definition round_half_up (m e : Z) : Z :=
  if 0 <=? e then m * 2 ^ e
  else (2 * m + 2 ^ (- e)) / 2 ^ (- e + 1).

(** [Math.round]: the closest integral Number, ties towards +Infinity; a
    negative argument that rounds to zero gives -0. *)
Definition Math_round (x : number) : number :=
  match x with
  | S754_finite s m e =>
    if 0 <=? e then x
    else match round_half_up (signed_mantissa s m) e with
         | Z0 => S754_zero s
         | n => of_Z n
         end
  | _ => x
  end.

(** The integer a finite integral Number denotes. *)
Definition integral_value (x : number) : option Z :=
  match x with
  | S754_zero _ => Some 0
  | S754_finite s m e =>
    if 0 <=? e then Some (signed_mantissa s m * 2 ^ e)
    else if (signed_mantissa s m) mod 2 ^ (- e) =? 0
         then Some (signed_mantissa s m / 2 ^ (- e))
         else None
  | _ => None
  end.

(** *** Decimal digits *)

Fixpoint uint_digits (d : Decimal.uint) : jsstring :=
  match d with
  | Decimal.Nil => []
  | Decimal.D0 r => 48%N :: uint_digits r
  | Decimal.D1 r => 49%N :: uint_digits r
  | Decimal.D2 r => 50%N :: uint_digits r
  | Decimal.D3 r => 51%N :: uint_digits r
  | Decimal.D4 r => 52%N :: uint_digits r
  | Decimal.D5 r => 53%N :: uint_digits r
  | Decimal.D6 r => 54%N :: uint_digits r
  | Decimal.D7 r => 55%N :: uint_digits r
  | Decimal.D8 r => 56%N :: uint_digits r
  | Decimal.D9 r => 57%N :: uint_digits r
  end.

(** The digits of the decimal representation of a natural number. *)
Definition decimal (n : Z) : jsstring := uint_digits (N.to_uint (Z.to_N n)).

(** The decimal representation of an integer, with its sign. *)
Definition decimal_signed (n : Z) : jsstring :=
  if n <? 0 then utf16 "-" ++ decimal (- n) else decimal n.

Definition zeros (n : Z) : jsstring := repeat 48%N (Z.to_nat n).

(** *** Number::toString (radix 10) *)

(** Compares [a * 10^p] with [b * 2^q]. *)
Definition compare_scaled (a p b q : Z) : comparison :=
  (a * 10 ^ Z.max p 0 * 2 ^ Z.max (- q) 0
   ?= b * 2 ^ Z.max q 0 * 10 ^ Z.max (- p) 0).

(** The least [n], searching upwards from [n], with [m * 2^e < 10^n]. *)
Fixpoint decimal_exponent_from (fuel : nat) (m e n : Z) : Z :=
  match fuel with
  | O => n
  | S fuel' =>
    match compare_scaled 1 n m e with
    | Gt => n
    | _ => decimal_exponent_from fuel' m e (n + 1)
    end
  end.

(** The [n] with [10^(n-1) <= m * 2^e < 10^n], found from an estimate that
    is at most two below it. *)
Definition decimal_exponent (m e : Z) : Z :=
  decimal_exponent_from 8 m e ((Z.log2 m + e) * 1233 / 4096 - 1).

(** Whether the decimal [s * 10^p] converts back to the binary64 value
    [m * 2^e]: it lies between the midpoints to the two neighbours,
    the midpoints included when [m] is even. *)
Definition reads_back (m e s p : Z) : bool :=
  let low := if (m =? 2 ^ (prec - 1)) && (3 - emax - prec <? e)
             then 4 * m - 1 else 4 * m - 2 in
  let high := 4 * m + 2 in
  match compare_scaled s p low (e - 2), compare_scaled s p high (e - 2) with
  | Gt, Lt => true
  | Eq, Lt | Gt, Eq => Z.even m
  | _, _ => false
  end.

(** The [k]-digit decimal that prints [m * 2^e], as [(s, n)] with value
    [s * 10^(n-k)] and [10^(k-1) <= s < 10^k], if there is one: of the
    two decimals around the value, the one that reads back; when both
    do, the closer one, and the even one on a tie. *)
Definition pick_decimal (m e n0 k : Z) : option (Z * Z) :=
  let p := n0 - k in
  let num := m * 2 ^ Z.max e 0 * 10 ^ Z.max (- p) 0 in
  let den := 2 ^ Z.max (- e) 0 * 10 ^ Z.max p 0 in
  let s := num / den in
  let r := num mod den in
  let lower := (s, n0) in
  let upper := if s + 1 =? 10 ^ k then (10 ^ (k - 1), n0 + 1) else (s + 1, n0) in
  match reads_back m e s p, reads_back m e (s + 1) p with
  | true, true =>
    Some match 2 * r ?= den with
         | Lt => lower
         | Gt => upper
         | Eq => if Z.even s then lower else upper
         end
  | true, false => Some lower
  | false, true => Some upper
  | false, false => None
  end.

(** The shortest decimal that reads back as [m * 2^e]: tries [k], [k+1],
    ... digits; 17 digits always suffice for binary64. *)
Fixpoint shortest_decimal (fuel : nat) (m e n0 k : Z) : Z * Z * Z :=
  match pick_decimal m e n0 k with
  | Some (s, n) => (s, n, k)
  | None =>
    match fuel with
    | O => (0, n0, k)
    | S fuel' => shortest_decimal fuel' m e n0 (k + 1)
    end
  end.

(** Steps 6-10 of Number::toString for the digits [s] ([k] of them) and
    the decimal exponent [n]. *)
Definition layout_digits (s n k : Z) : jsstring :=
  let digits := decimal s in
  if (k <=? n) && (n <=? 21) then digits ++ zeros (n - k)
  else if (0 <? n) && (n <=? 21) then
    firstn (Z.to_nat n) digits ++ utf16 "." ++ skipn (Z.to_nat n) digits
  else if (-6 <? n) && (n <=? 0) then
    utf16 "0." ++ zeros (- n) ++ digits
  else
    let exponent := (if n - 1 <? 0 then utf16 "-" else utf16 "+")
                    ++ decimal (Z.abs (n - 1)) in
    if k =? 1 then digits ++ utf16 "e" ++ exponent
    else firstn 1 digits ++ utf16 "." ++ skipn 1 digits ++ utf16 "e" ++ exponent.

Definition Number_toString (x : number) : jsstring :=
  match x with
  | S754_nan => utf16 "NaN"
  | S754_zero _ => utf16 "0"
  | S754_infinity s => (if s then utf16 "-" else []) ++ utf16 "Infinity"
  | S754_finite s m e =>
    let '(d, n, k) :=
      shortest_decimal 16 (Z.pos m) e (decimal_exponent (Z.pos m) e) 1 in
    (if s then utf16 "-" else []) ++ layout_digits d n k
  end.

(** *** Number.prototype.toFixed *)

(** The integer [n] for which [n / 10^f] is closest to [m * 2^e]
    ([m >= 0]), the larger one on a tie. *)
Definition fixed_mantissa (m e f : Z) : Z :=
  round_half_up (m * 10 ^ f) e.

(** Step 9 of toFixed: the digits of [n] with a point before the last
    [f] of them, padded with leading zeros. *)
Definition layout_fixed (n f : Z) : jsstring :=
  let digits := if n =? 0 then utf16 "0" else decimal n in
  if f =? 0 then digits
  else
    let k := Z.of_nat (List.length digits) in
    let digits := if k <=? f then zeros (f + 1 - k) ++ digits else digits in
    let k := Z.max k (f + 1) in
    firstn (Z.to_nat (k - f)) digits ++ utf16 "." ++ skipn (Z.to_nat (k - f)) digits.

(** [x.toFixed(f)] for [0 <= f <= 100]. *)
Definition toFixed (x : number) (f : Z) : jsstring :=
  match x with
  | S754_zero _ => layout_fixed 0 f
  | S754_finite s m e =>
    match compare_scaled 1 21 (Z.pos m) e with
    | Gt => (if s then utf16 "-" else []) ++ layout_fixed (fixed_mantissa (Z.pos m) e f) f
    | _ => Number_toString x
    end
  | _ => Number_toString x
  end.

End Num.

(** ** Formatter utilities *)

Module Format.
Import Session Num.

(** The values a field of a parsed JSON payload can hand to a formatter:
    [undefined] when optional chaining found nothing, or a JSON leaf. *)
Inductive JSValue :=
| VUndefined
| VNull
| VBoolean (b : bool)
| VNumber (x : number)
| VString (s : jsstring).

Definition typeof (v : JSValue) : jsstring :=
  match v with
  | VUndefined => utf16 "undefined"
  | VNull => utf16 "object"
  | VBoolean _ => utf16 "boolean"
  | VNumber _ => utf16 "number"
  | VString _ => utf16 "string"
  end.

(** [v.toFixed(f)]: only a Number has the method; on [undefined] and
    [null] the property access throws, on a boolean or a string the call
    of the missing method does. *)
Definition invoke_toFixed (v : JSValue) (f : Z) : Completion jsstring :=
  match v with
  | VNumber x => Normal (toFixed x f)
  | _ => Throw TypeError
  end.

Definition TEMPERATURE_UNIT (u : UnitSystem) : jsstring :=
  match u with
  | metric => utf16 "°C"
  | imperial => utf16 "°F"
  end.

Definition WIND_UNIT (u : UnitSystem) : jsstring :=
  match u with
  | metric => utf16 "m/s"
  | imperial => utf16 "mph"
  end.

Definition PLACEHOLDER : jsstring := utf16 "--".

Section Formatters.

(** The built-in conversion of a string to a Number (StringToNumber); the
    formatters are correct whatever it answers. *)
Variable StringToNumber : jsstring -> number.

Definition ToNumber (v : JSValue) : number :=
  match v with
  | VUndefined => S754_nan
  | VNull => S754_zero false
  | VBoolean b => if b then of_Z 1 else S754_zero false
  | VNumber x => x
  | VString s => StringToNumber s
  end.

Definition formatTemperature (value : JSValue) (units : UnitSystem)
  : Completion jsstring :=
  if negb (jsstring_eqb (typeof value) (utf16 "number")) then
    Normal PLACEHOLDER
  else
    Normal (Number_toString (Math_round (ToNumber value)) ++ TEMPERATURE_UNIT units).

Definition formatWindSpeed (value : JSValue) (units : UnitSystem)
  : Completion jsstring :=
  if negb (jsstring_eqb (typeof value) (utf16 "number")) then
    Normal PLACEHOLDER
  else
    bind (invoke_toFixed value 1)
         (fun s => Normal (s ++ utf16 " " ++ WIND_UNIT units)).

Definition formatVisibility (value : JSValue) : Completion jsstring :=
  if negb (jsstring_eqb (typeof value) (utf16 "number")) then
    Normal PLACEHOLDER
  else
    bind (invoke_toFixed (VNumber (div (ToNumber value) (of_Z 1000))) 1)
         (fun s => Normal (s ++ utf16 " km")).

End Formatters.

End Format.

(** ** Dates rendered for es-ES, pinned to UTC *)

Module Clock.
Import Num.

Definition msPerMinute : Z := 60000.
Definition msPerHour : Z := 3600000.
Definition msPerDay : Z := 86400000.

(** [new Date(t)] for an integral [t]: TimeClip keeps a time value of
    magnitude at most 8.64e15 ms; anything else is an Invalid Date. *)
Definition TimeClip (t : Z) : option Z :=
  if Z.abs t <=? 8640000000000000 then Some t else None.

Definition HourFromTime (t : Z) : Z := (t / msPerHour) mod 24.
Definition MinFromTime (t : Z) : Z := (t / msPerMinute) mod 60.
(** 0 is Sunday; the epoch was a Thursday. *)
Definition WeekDay (t : Z) : Z := (t / msPerDay + 4) mod 7.

(** The code unit of a decimal digit. *)
Definition digit (n : Z) : N := Z.to_N (48 + n).

Definition two_digits (n : Z) : jsstring :=
  if n <? 10 then utf16 "0" ++ decimal n else decimal n.

(** The fields [hour: '2-digit', minute: '2-digit'] with [hour12: false]
    and [timeZone: 'UTC']. *)
Definition clock_HH_MM (t : Z) : jsstring :=
  two_digits (HourFromTime t) ++ utf16 ":" ++ two_digits (MinFromTime t).

(** The abbreviated weekday names of the es-ES locale. *)
Definition weekday_short (d : Z) : jsstring :=
  match d with
  | 0 => utf16 "dom"
  | 1 => utf16 "lun"
  | 2 => utf16 "mar"
  | 3 => utf16 "mié"
  | 4 => utf16 "jue"
  | 5 => utf16 "vie"
  | _ => utf16 "sáb"
  end.

(** [date.toLocaleTimeString('es-ES', {hour, minute, hour12: false,
    timeZone: 'UTC'})]: an Invalid Date renders as such. *)
Definition toLocaleTimeString (date : option Z) : jsstring :=
  match date with
  | None => utf16 "Invalid Date"
  | Some t => clock_HH_MM t
  end.

(** [new Intl.DateTimeFormat('es-ES', {weekday: 'short', hour, minute,
    hour12: false, timeZone: 'UTC'}).format(date)]: an Invalid Date makes
    [format] throw a RangeError. *)
Definition format_weekday_time (date : option Z) : Completion jsstring :=
  match date with
  | None => Throw RangeError
  | Some t => Normal (weekday_short (WeekDay t) ++ utf16 ", " ++ clock_HH_MM t)
  end.

(** [timestamp] is [undefined] or an integer number of seconds. *)
Definition formatSunEvent (timestamp : option Z) (timezoneOffset : Z) : jsstring :=
  match timestamp with
  | None => Format.PLACEHOLDER
  | Some ts =>
    if ts =? 0 then Format.PLACEHOLDER
    else
      let date := TimeClip ((ts + timezoneOffset) * 1000) in
      toLocaleTimeString date
  end.

End Clock.

(** ** Forecast projector *)

Module Projector.
Import Num Format Clock.

(** The parts of the forecast payload the projector reads.  An absent
    property is [None]; [temp] and [humidity] are passed through as they
    are. *)
Record MainBlock := { temp : JSValue; humidity : JSValue }.
Record ForecastItem := {
  dt : Z;
  main : option MainBlock;
  pop : option number
}.
Record CityBlock := { timezone : option Z }.
Record ForecastPayload := {
  forecast_list : option (list ForecastItem);
  forecast_city : option CityBlock
}.

Record ForecastPoint := {
  label : jsstring;
  temperature : JSValue;
  point_humidity : JSValue;
  precipitation : number
}.

(** [v ?? null] *)
Definition or_null (v : JSValue) : JSValue :=
  match v with
  | VUndefined | VNull => VNull
  | _ => v
  end.

(** The callback of [map]. *)
Definition project_item (timezoneOffset : Z) (item : ForecastItem)
  : Completion ForecastPoint :=
  let localDate := TimeClip ((dt item + timezoneOffset) * 1000) in
  bind (format_weekday_time localDate) (fun label =>
  Normal {| label := label;
            temperature := match main item with
                           | Some m => or_null (temp m)
                           | None => VNull
                           end;
            point_humidity := match main item with
                              | Some m => or_null (humidity m)
                              | None => VNull
                              end;
            precipitation :=
              Math_round (mul (match pop item with Some p => p | None => S754_zero false end)
                              (of_Z 100)) |}).

(** [forecast.city?.timezone ?? 0] *)
Definition city_timezone (f : ForecastPayload) : Z :=
  match forecast_city f with
  | Some c => match timezone c with Some z => z | None => 0 end
  | None => 0
  end.

Definition buildForecastPoints (forecast : option ForecastPayload)
  : Completion (list ForecastPoint) :=
  match forecast with
  | None => Normal []
  | Some f =>
    match forecast_list f with
    | None | Some [] => Normal []
    | Some entries =>
      let timezoneOffset := city_timezone f in
      map_completion (project_item timezoneOffset) (firstn 8 entries)
    end
  end.

(** [forecastPoints], derived from the stored forecast payload
    ([weatherData?.forecast]). *)
Definition forecastPoints {Current : Type}
  (st : Session.SessionState Current ForecastPayload)
  : Completion (list ForecastPoint) :=
  buildForecastPoints (Session.forecastSeries st).

(** A well-formed Number between 0 and 1, the range of [pop]. *)
Definition is_probability (p : number) : bool :=
  well_formed p && SFleb (S754_zero false) p && SFleb p (of_Z 1).

End Projector.

(** ** Finite checks

    Boolean tests run over a range of integers, for the properties of the
    digit layouts that are settled by evaluation. *)

Module Enumeration.
Import Num.

(** [lo, lo + 1, ..., lo + len - 1] *)
Fixpoint Z_upto (lo : Z) (len : nat) : list Z :=
  match len with
  | O => []
  | S len' => lo :: Z_upto (lo + 1) len'
  end.

(** Number::toString of the Number for [n] is the decimal
    representation of [n]. *)
Definition renders_integer (n : Z) : bool :=
  jsstring_eqb (Number_toString (of_Z n)) (decimal_signed n).

(** The one-decimal layout of [n] is the digits of [n / 10], a point and
    the last digit of [n]. *)
Definition lays_one_decimal (n : Z) : bool :=
  jsstring_eqb (layout_fixed n 1)
               (decimal (n / 10) ++ utf16 "." ++ [Clock.digit (n mod 10)]).

End Enumeration.

(** ** Sample worlds and outcomes *)

Module Samples.
Import Session.

Definition key : jsstring := utf16 "0123456789abcdef".
Definition blank : jsstring := utf16 "   ".

(** Payloads are told apart by a number. *)
Definition reply (code payload : Z) : Response Z :=
  {| status := code; json := Fulfilled payload |}.
Definition answered (code payload : Z) : Settled (Response Z) :=
  Fulfilled (reply code payload).

Definition both_ok (c f t : Z) : Outcome Z Z :=
  {| currentFetch := answered 200 c; forecastFetch := answered 200 f;
     fetchOrder := false; jsonOrder := false; now := t |}.

Definition current_404 (t : Z) : Outcome Z Z :=
  {| currentFetch := answered 404 0; forecastFetch := answered 200 7;
     fetchOrder := false; jsonOrder := false; now := t |}.

Definition forecast_500 (t : Z) : Outcome Z Z :=
  {| currentFetch := answered 200 3; forecastFetch := answered 500 0;
     fetchOrder := false; jsonOrder := false; now := t |}.

Definition fresh : World Z Z :=
  {| session := initialState Z Z; requests := [] |}.

(** A session that shows weather fetched earlier. *)
Definition showing : World Z Z :=
  {| session :=
       {| city := DEFAULT_CITY; searchTerm := DEFAULT_CITY; units := metric;
          weatherData := Some {| current := 11; forecast := 12 |};
          loading := false; error := None; lastUpdated := Some 1000 |};
     requests := [] |}.

End Samples.

Module ForecastSamples.
Import Num Format Projector.

(** An entry three hours after the previous one, with a probability of
    precipitation of [tenths / 10]. *)
Definition entry (i : Z) : ForecastItem :=
  {| dt := 1700000000 + 10800 * i;
     main := Some {| temp := VNumber (div (of_Z (200 + i)) (of_Z 10));
                     humidity := VNumber (of_Z (50 + i)) |};
     pop := Some (div (of_Z i) (of_Z 10)) |}.

Definition ten_entries : ForecastPayload :=
  {| forecast_list := Some (map entry [0; 1; 2; 3; 4; 5; 6; 7; 8; 9]);
     forecast_city := Some {| timezone := Some 7200 |} |}.

(** Eight entries stamped one second past the last instant a Date can
    hold (8.64e15 ms after the epoch). *)
Definition past_last_date : ForecastPayload :=
  {| forecast_list :=
       Some (repeat {| dt := 8640000000001; main := None; pop := None |} 8);
     forecast_city := None |}.

End ForecastSamples.

Module NumberSamples.
Import Num.

(** The Number that the literal [21.6] denotes. *)
Definition n21_6 : number := div (of_Z 216) (of_Z 10).
(** [3.14] *)
Definition n3_14 : number := div (of_Z 314) (of_Z 100).

End NumberSamples.

(** ** The component around [fetchWeather]: handlers, effect and timer *)

Module App.
Import Session.

Definition UnitSystem_eqb (a b : UnitSystem) : bool :=
  match a, b with
  | metric, metric | imperial, imperial => true
  | _, _ => false
  end.

Section Component.

Variables Current Forecast : Type.

(** [import.meta.env.VITE_OPENWEATHER_API_KEY], fixed for the session. *)
Variable apiKey : option jsstring.

Definition setCity (v : jsstring) (st : SessionState Current Forecast) :=
  {| city := v; searchTerm := searchTerm st; units := units st;
     weatherData := weatherData st; loading := loading st;
     error := error st; lastUpdated := lastUpdated st |}.
Definition setSearchTerm (v : jsstring) (st : SessionState Current Forecast) :=
  {| city := city st; searchTerm := v; units := units st;
     weatherData := weatherData st; loading := loading st;
     error := error st; lastUpdated := lastUpdated st |}.
Definition setUnits (v : UnitSystem) (st : SessionState Current Forecast) :=
  {| city := city st; searchTerm := searchTerm st; units := v;
     weatherData := weatherData st; loading := loading st;
     error := error st; lastUpdated := lastUpdated st |}.

Definition on_state (f : SessionState Current Forecast -> SessionState Current Forecast)
  (m : Machine Current Forecast) : Machine Current Forecast :=
  {| world := update f (world m); inflight := inflight m; issued := issued m |}.

(** A call [fetchWeather(c, u)]; [o] is what the network will answer if
    the call starts a cycle. *)
Definition call_fetchWeather (c : jsstring) (u : UnitSystem)
  (o : Outcome Current Forecast) (m : Machine Current Forecast) :=
  step apiKey m (Trigger c u o).

(** [fetchWeather()] with its default arguments, the committed city and
    units: the body of the effect and of the interval callback. *)
Definition fetchWeather_default (o : Outcome Current Forecast)
  (m : Machine Current Forecast) :=
  call_fetchWeather (city (session (world m))) (units (session (world m))) o m.

(** The effect [useEffect(() => { fetchWeather(); setInterval(...) },
    [fetchWeather])] after a render: [fetchWeather] is a new function,
    and the effect runs again, exactly when [city] or [units] differ from
    the previous render ([apiKey] never changes). *)
Definition after_render (before : SessionState Current Forecast)
  (oEffect : Outcome Current Forecast) (m : Machine Current Forecast) :=
  let st := session (world m) in
  if jsstring_eqb (city st) (city before) && UnitSystem_eqb (units st) (units before)
  then m
  else fetchWeather_default oEffect m.

Definition handleSubmit (o : Outcome Current Forecast)
  (m : Machine Current Forecast) : Machine Current Forecast :=
  let st := session (world m) in
  let trimmed := trim (searchTerm st) in
  if string_falsy trimmed then
    on_state (setError (Some MSG_INVALID_CITY)) m
  else
    let m := on_state (setCity trimmed) m in
    call_fetchWeather trimmed (units st) o m.

Definition handleUnitChange (newUnits : UnitSystem)
  (o : Outcome Current Forecast) (m : Machine Current Forecast) :=
  let st := session (world m) in
  let m := on_state (setUnits newUnits) m in
  call_fetchWeather (city st) newUnits o m.

Definition handleRefresh (o : Outcome Current Forecast)
  (m : Machine Current Forecast) :=
  fetchWeather_default o m.

(** What can happen to the mounted component.  An action that calls
    [fetchWeather] carries the answer of the network to that call, and
    the answer to the call of the effect in case the effect runs again.
    The [disabled] attributes of the buttons are not modelled: every
    action is allowed in every state, which includes every run the page
    permits.  A render that throws unmounts the component; the runs are
    those of a component that stays mounted. *)
Inductive Action :=
| TypeSearch (text : jsstring)
| Submit (o oEffect : Outcome Current Forecast)
| ChangeUnits (newUnits : UnitSystem) (o oEffect : Outcome Current Forecast)
| Refresh (o : Outcome Current Forecast)
| Tick (o : Outcome Current Forecast)
| Settled (cycle : nat).

Definition act (m : Machine Current Forecast) (a : Action) : Machine Current Forecast :=
  match a with
  | TypeSearch text => on_state (setSearchTerm text) m
  | Submit o oEffect =>
    after_render (session (world m)) oEffect (handleSubmit o m)
  | ChangeUnits newUnits o oEffect =>
    after_render (session (world m)) oEffect (handleUnitChange newUnits o m)
  | Refresh o => handleRefresh o m
  | Tick o => fetchWeather_default o m
  | Settled n => step apiKey m (Settle n)
  end.

(** The component after its first render: the effect has run once (a
    second run, as under the development double invocation of effects,
    is a [Tick]). *)
Definition mounted (o : Outcome Current Forecast) : Machine Current Forecast :=
  fetchWeather_default o
    (boot {| session := initialState Current Forecast; requests := [] |}).

Definition run_app (actions : list Action) (m : Machine Current Forecast) :=
  fold_left act actions m.

(** The two requests of one cycle. *)
Definition cycle_requests (key : jsstring) (call : jsstring * UnitSystem)
  : list Request :=
  [ {| endpoint := weather_endpoint;
       params := query_params (fst call) (snd call) key |};
    {| endpoint := forecast_endpoint;
       params := query_params (fst call) (snd call) key |} ].

(** *** Invariants of the mounted component *)

(** The committed city is a non-empty string without surrounding white
    space. *)
Definition city_committed (m : Machine Current Forecast) : Prop :=
  string_falsy (city (session (world m))) = false /\
  trim (city (session (world m))) = city (session (world m)).

(** The requests sent so far are the pairs of the cycles started so far,
    one cycle per call of [fetchWeather], each for a non-blank trimmed
    city. *)
Definition requests_paired (key : jsstring) (m : Machine Current Forecast) : Prop :=
  exists calls : list (jsstring * UnitSystem),
    requests (world m) = flat_map (cycle_requests key) calls /\
    Forall (fun call => string_falsy (fst call) = false /\
                        trim (fst call) = fst call) calls /\
    List.length calls = issued m.

(** Without a credential nothing is ever requested, stored or awaited. *)
Definition offline (m : Machine Current Forecast) : Prop :=
  requests (world m) = [] /\ inflight m = [] /\
  loading (session (world m)) = false /\
  weatherData (session (world m)) = None /\
  lastUpdated (session (world m)) = None.

(** The loading flag is set only while some cycle is in flight. *)
Definition quiet_when_idle (m : Machine Current Forecast) : Prop :=
  inflight m = [] -> loading (session (world m)) = false.

End Component.

Arguments setCity {Current Forecast} v st.
Arguments setSearchTerm {Current Forecast} v st.
Arguments setUnits {Current Forecast} v st.
Arguments on_state {Current Forecast} f m.
Arguments call_fetchWeather {Current Forecast} apiKey c u o m.
Arguments fetchWeather_default {Current Forecast} apiKey o m.
Arguments after_render {Current Forecast} apiKey before oEffect m.
Arguments handleSubmit {Current Forecast} apiKey o m.
Arguments handleUnitChange {Current Forecast} apiKey newUnits o m.
Arguments handleRefresh {Current Forecast} apiKey o m.
Arguments TypeSearch {Current Forecast} text.
Arguments Submit {Current Forecast} o oEffect.
Arguments ChangeUnits {Current Forecast} newUnits o oEffect.
Arguments Refresh {Current Forecast} o.
Arguments Tick {Current Forecast} o.
Arguments Settled {Current Forecast} cycle.
Arguments act {Current Forecast} apiKey m a.
Arguments mounted {Current Forecast} apiKey o.
Arguments run_app {Current Forecast} apiKey actions m.
Arguments city_committed {Current Forecast} m.
Arguments requests_paired {Current Forecast} key m.
Arguments offline {Current Forecast} m.
Arguments quiet_when_idle {Current Forecast} m.

End App.

Module AppSamples.
Import Session App.

(** A visit: the user types a city with blanks around it, submits it,
    the cycles settle, the user switches to imperial units, and the timer
    fires. *)
Definition visit : list (Action Z Z) :=
  [ TypeSearch (utf16 "  Lima ");
    Submit (Samples.both_ok 1 2 5000) (Samples.current_404 6000);
    Settled 0%nat; Settled 1%nat; Settled 2%nat;
    ChangeUnits imperial (Samples.both_ok 3 4 7000) (Samples.both_ok 5 6 8000);
    Tick (Samples.forecast_500 9000) ].

(** The same visit with every cycle settled. *)
Definition settled_visit : list (Action Z Z) :=
  visit ++ [Settled 3%nat; Settled 4%nat; Settled 5%nat].

(** The component showing Madrid, idle, with [text] in the search box. *)
Definition idle_with (text : jsstring) : Machine Z Z :=
  on_state (setSearchTerm text) (boot Samples.showing).

End AppSamples.

(** ** Percent-encoding *)

Module URI.

(** uriUnreserved: the letters, the decimal digits and the marks
    [- _ . ! ~ * ' ( )], which [encodeURIComponent] leaves as they are. *)
Definition is_unreserved (c : N) : bool :=
  (((65 <=? c) && (c <=? 90)) || ((97 <=? c) && (c <=? 122))
   || ((48 <=? c) && (c <=? 57))
   || (c =? 45) || (c =? 95) || (c =? 46) || (c =? 33) || (c =? 126)
   || (c =? 42) || (c =? 39) || (c =? 40) || (c =? 41))%N.

(** U+D800..U+DBFF and U+DC00..U+DFFF *)
Definition is_leading_surrogate (c : N) : bool :=
  ((55296 <=? c) && (c <=? 56319))%N.
Definition is_trailing_surrogate (c : N) : bool :=
  ((56320 <=? c) && (c <=? 57343))%N.

(** UTF16SurrogatePairToCodePoint *)
Definition surrogate_pair (lead trail : N) : N :=
  ((lead - 55296) * 1024 + (trail - 56320) + 65536)%N.

(** An upper-case hexadecimal digit. *)
Definition hex_digit (n : N) : N :=
  (if n <? 10 then 48 + n else 55 + n)%N.

(** ["%XX"] *)
Definition percent_octet (b : N) : jsstring :=
  [37%N; hex_digit (b / 16); hex_digit (b mod 16)].

(** The UTF-8 octets of a code point. *)
Definition utf8 (cp : N) : list N :=
  (if cp <? 128 then [cp]
   else if cp <? 2048 then [192 + cp / 64; 128 + cp mod 64]
   else if cp <? 65536 then
     [224 + cp / 4096; 128 + (cp / 64) mod 64; 128 + cp mod 64]
   else
     [240 + cp / 262144; 128 + (cp / 4096) mod 64;
      128 + (cp / 64) mod 64; 128 + cp mod 64])%N.

Definition escape (cp : N) : jsstring := flat_map percent_octet (utf8 cp).

(** [encodeURIComponent(s)] (the abstract operation Encode with the
    unreserved set): [None] stands for the URIError thrown at a surrogate
    code unit that is not part of a pair. *)
Fixpoint encodeURIComponent (s : jsstring) : option jsstring :=
  match s with
  | [] => Some []
  | c :: rest =>
    if is_unreserved c then option_map (cons c) (encodeURIComponent rest)
    else if is_trailing_surrogate c then None
    else if is_leading_surrogate c then
      match rest with
      | d :: rest' =>
        if is_trailing_surrogate d then
          option_map (app (escape (surrogate_pair c d))) (encodeURIComponent rest')
        else None
      | [] => None
      end
    else option_map (app (escape c)) (encodeURIComponent rest)
  end.

(** [s.split(sep)[0]] for a one-unit separator: the part of [s] before
    the first [sep], all of [s] if there is none. *)
Fixpoint split_first (sep : N) (s : jsstring) : jsstring :=
  match s with
  | [] => []
  | c :: rest => if (c =? sep)%N then [] else c :: split_first sep rest
  end.

(** [s.isWellFormed()]: no surrogate code unit outside a pair. *)
Fixpoint isWellFormed (s : jsstring) : bool :=
  match s with
  | [] => true
  | c :: rest =>
    if is_trailing_surrogate c then false
    else if is_leading_surrogate c then
      match rest with
      | d :: rest' => is_trailing_surrogate d && isWellFormed rest'
      | [] => false
      end
    else isWellFormed rest
  end.

End URI.

(** ** What the dashboard derives from its state *)

Module Dashboard.
Import Session Num Format Clock.

(** The parts of the current-conditions payload that the dashboard reads.
    An absent property is [None] (or [VUndefined] for one that is passed
    to a formatter as it is); a name, a country, a description and an
    icon are strings, the sun events are integers. *)
Record MainReadings := {
  temp : JSValue;
  feels_like : JSValue;
  humidity : JSValue;
  pressure : JSValue
}.
Record Wind := { speed : JSValue }.
Record Clouds := { all : JSValue }.
Record Sys := {
  country : option jsstring;
  sunrise : option Z;
  sunset : option Z
}.
Record WeatherEntry := {
  description : option jsstring;
  icon : option jsstring
}.
Record CurrentPayload := {
  name : option jsstring;
  weather : option (list WeatherEntry);
  main : option MainReadings;
  wind : option Wind;
  visibility : JSValue;
  clouds : option Clouds;
  sys : option Sys;
  timezone : option Z
}.

(** A stored response body.  [None] is a body that is falsy ([null], [0],
    [false] or the empty string), which [weatherData?.current] and
    [forecast?.list] treat as absent; any other body is read through its
    properties. *)
Definition CurrentBody : Type := option CurrentPayload.
Definition ForecastBody : Type := option Projector.ForecastPayload.

(** [o?.f] *)
Definition optional {A} (o : option A) (f : A -> JSValue) : JSValue :=
  match o with
  | Some a => f a
  | None => VUndefined
  end.

(** [o?.f] for a timestamp *)
Definition optional_time {A} (o : option A) (f : A -> option Z) : option Z :=
  match o with
  | Some a => f a
  | None => None
  end.

(** ToString, as a template literal applies it. *)
Definition ToString (v : JSValue) : jsstring :=
  match v with
  | VUndefined => utf16 "undefined"
  | VNull => utf16 "null"
  | VBoolean b => if b then utf16 "true" else utf16 "false"
  | VNumber x => Number_toString x
  | VString s => s
  end.

(** [`${v ?? '--'}`] *)
Definition or_placeholder (v : JSValue) : jsstring :=
  match v with
  | VUndefined | VNull => PLACEHOLDER
  | _ => ToString v
  end.

Record Metric := {
  label : jsstring;
  value : jsstring;
  helper : option jsstring
}.

Section Derived.

Variable StringToNumber : jsstring -> number.
Variable Forecast : Type.

(** [weatherData?.current], as a condition and as the object read when
    the condition holds. *)
Definition currentWeather (weatherData : option (WeatherData CurrentBody Forecast))
  : option CurrentPayload :=
  match weatherData with
  | Some data => Session.current data
  | None => None
  end.

(** The [metrics] memo.  The elements of the array literal are evaluated
    in order, so the first formatter that throws ends the evaluation. *)
Definition metrics (weatherData : option (WeatherData CurrentBody Forecast))
  (units : UnitSystem) (forecastPoints : list Projector.ForecastPoint)
  : Completion (list Metric) :=
  match currentWeather weatherData with
  | None => Normal []
  | Some current =>
    let offset := match timezone current with Some z => z | None => 0 end in
    bind (formatTemperature StringToNumber (optional (main current) feels_like) units)
      (fun feels =>
    bind (formatWindSpeed (optional (wind current) speed) units) (fun windSpeed =>
    bind (formatVisibility StringToNumber (visibility current)) (fun visible =>
    Normal
      [ {| label := utf16 "Sensación térmica"; value := feels; helper := None |};
        {| label := utf16 "Humedad relativa";
           value := or_placeholder (optional (main current) humidity) ++ utf16 "%";
           helper :=
             match forecastPoints with
             | point :: _ =>
               Some (utf16 "Próx. lluvia: "
                     ++ Number_toString (Projector.precipitation point)
                     ++ utf16 "%")
             | [] => None
             end |};
        {| label := utf16 "Viento"; value := windSpeed; helper := None |};
        {| label := utf16 "Presión";
           value := or_placeholder (optional (main current) pressure) ++ utf16 " hPa";
           helper := None |};
        {| label := utf16 "Visibilidad"; value := visible; helper := None |};
        {| label := utf16 "Nubosidad";
           value := or_placeholder (optional (clouds current) all) ++ utf16 "%";
           helper := None |};
        {| label := utf16 "Salida del sol";
           value := formatSunEvent (optional_time (sys current) sunrise) offset;
           helper := None |};
        {| label := utf16 "Puesta del sol";
           value := formatSunEvent (optional_time (sys current) sunset) offset;
           helper := None |} ])))
  end.

(** [weatherData?.current?.name] *)
Definition currentCityName
  (weatherData : option (WeatherData CurrentBody Forecast)) : option jsstring :=
  match currentWeather weatherData with
  | Some current => name current
  | None => None
  end.

(** [currentWeather?.weather?.[0]] *)
Definition weatherDescription (currentWeather : option CurrentPayload)
  : option WeatherEntry :=
  match currentWeather with
  | Some current =>
    match weather current with
    | Some (first :: _) => Some first
    | _ => None
    end
  | None => None
  end.

(** [locationLabel]; an absent name prints as "undefined". *)
Definition locationLabel (currentWeather : option CurrentPayload) (city : jsstring)
  : jsstring :=
  match currentWeather with
  | Some current =>
    match name current with Some n => n | None => utf16 "undefined" end
    ++ utf16 ", "
    ++ match sys current with
       | Some s => match country s with Some c => c | None => [] end
       | None => []
       end
  | None => city
  end.

Definition BACKGROUND_PREFIX : jsstring :=
  utf16 "https://source.unsplash.com/1600x900/?".
Definition BACKGROUND_SUFFIX : jsstring := utf16 ",city,skyline".

(** The [backgroundImageUrl] memo: the outer [None] is the URIError of
    [encodeURIComponent], the inner one the value [null]. *)
Definition backgroundImageUrl (currentCityName : option jsstring) (city : jsstring)
  : option (option jsstring) :=
  let backgroundCity := match currentCityName with Some n => n | None => city end in
  if string_falsy backgroundCity then Some None
  else
    match URI.encodeURIComponent (URI.split_first 44 backgroundCity) with
    | None => None
    | Some query => Some (Some (BACKGROUND_PREFIX ++ query ++ BACKGROUND_SUFFIX))
    end.

(** The value the effect gives to [--city-background-image]. *)
Definition formattedValue (backgroundImageUrl : jsstring) : jsstring :=
  utf16 "url(" ++ [34%N] ++ backgroundImageUrl ++ [34%N] ++ utf16 ")".

End Derived.

Arguments currentWeather {Forecast} weatherData.
Arguments metrics StringToNumber {Forecast} weatherData units forecastPoints.
Arguments currentCityName {Forecast} weatherData.

End Dashboard.

(** ** Forecast chart *)

Module Chart.
Import Session Num Format.

Record Dataset := {
  label : jsstring;
  data : list JSValue;
  yAxisID : jsstring
}.

(** [chartPayload.data] *)
Record ChartData := {
  labels : list jsstring;
  datasets : list Dataset
}.

(** [units === 'metric' ? '°C' : '°F'] *)
Definition unit_glyph (units : UnitSystem) : jsstring :=
  match units with
  | metric => utf16 "°C"
  | imperial => utf16 "°F"
  end.

(** The [data] of the [chartPayload] memo; [None] is [null], for which
    the component renders its empty state. *)
Definition chartPayload (dataPoints : option (list Projector.ForecastPoint))
  (units : UnitSystem) : option ChartData :=
  match dataPoints with
  | None | Some [] => None
  | Some points =>
    let labels := map Projector.label points in
    let temperatureData := map Projector.temperature points in
    let humidityData := map Projector.point_humidity points in
    Some {| labels := labels;
            datasets :=
              [ {| label := utf16 "Temperatura (" ++ unit_glyph units ++ utf16 ")";
                   data := temperatureData;
                   yAxisID := utf16 "y" |};
                {| label := utf16 "Humedad (%)";
                   data := humidityData;
                   yAxisID := utf16 "y1" |} ] |}
  end.

Section Tooltip.

Variable StringToNumber : jsstring -> number.

(** The tooltip callback [label(context)], from [context.datasetIndex],
    [context.dataset.label] and [context.raw]. *)
Definition tooltip_label (units : UnitSystem) (datasetIndex : nat)
  (datasetLabel : jsstring) (raw : JSValue) : jsstring :=
  match datasetIndex with
  | O =>
    datasetLabel ++ utf16 ": "
      ++ Number_toString (Math_round (ToNumber StringToNumber raw))
      ++ utf16 " " ++ unit_glyph units
  | _ =>
    datasetLabel ++ utf16 ": "
      ++ Number_toString (Math_round (ToNumber StringToNumber raw)) ++ utf16 "%"
  end.

End Tooltip.

End Chart.

Module DashboardSamples.
Import Session Num Format Dashboard.

(** Current conditions as the API reports them for Madrid. *)
Definition madrid : CurrentPayload :=
  {| name := Some (utf16 "Madrid");
     weather := Some [ {| description := Some (utf16 "cielo claro");
                          icon := Some (utf16 "01d") |} ];
     main := Some {| temp := VNumber NumberSamples.n21_6;
                     feels_like := VNumber NumberSamples.n21_6;
                     humidity := VNumber (of_Z 40);
                     pressure := VNumber (of_Z 1015) |};
     wind := Some {| speed := VNumber NumberSamples.n3_14 |};
     visibility := VNumber (of_Z 10000);
     clouds := Some {| all := VNumber (of_Z 75) |};
     sys := Some {| country := Some (utf16 "ES");
                    sunrise := Some 1700000000; sunset := Some 1700036000 |};
     timezone := Some 7200 |}.

(** A feed of two entries, the first with a probability of precipitation
    of 0.3. *)
Definition two_entries : Projector.ForecastPayload :=
  {| Projector.forecast_list := Some (map ForecastSamples.entry [3; 4]);
     Projector.forecast_city := Some {| Projector.timezone := Some 7200 |} |}.

Definition stored : WeatherData CurrentBody ForecastBody :=
  {| current := Some madrid; forecast := Some two_entries |}.



(** Both fetches rejected. *)
Definition unreachable (t : Z) : Outcome CurrentBody ForecastBody :=
  {| currentFetch := Rejected (utf16 "Failed to fetch");
     forecastFetch := Rejected (utf16 "Failed to fetch");
     fetchOrder := false; jsonOrder := false; now := t |}.

(** A session that shows Madrid, fetched earlier. *)
Definition showing_madrid : World CurrentBody ForecastBody :=
  {| session := setLastUpdated (Some 1000)
                  (setWeatherData (Some stored) (initialState _ _));
     requests := [] |}.

End DashboardSamples.

(** ** What the dashboard renders *)

Module View.
Import Session Num Format Dashboard.

(** The body of the chart card. *)
Inductive ChartBody :=
| LoadingForecast               (* "Cargando pronósticos…" *)
| EmptyChart                    (* "Sin datos de pronóstico disponibles." *)
| LineChart (data : Chart.ChartData).

(** A forecast chip: its key and label, its temperature and its rain
    text. *)
Record Chip := {
  chip_label : jsstring;
  chip_temperature : jsstring;
  chip_rain : jsstring
}.

(** The current-weather section. *)
Record CurrentSection := {
  location : jsstring;
  temperature : jsstring;
  (** the paragraph of the description, if there is a first weather
      entry *)
  description_text : option jsstring;
  (** the [src] and the [alt] of the icon, if the entry has one *)
  icon_image : option (jsstring * option jsstring);
  chips : list Chip
}.

(** The parts of the page that depend on the state. *)
Record Screen := {
  (** [lastUpdated ? <span>Actualizado a las {formatUpdatedAt(lastUpdated)}</span> : null] *)
  updated_stamp : option jsstring;
  (** [disabled={loading}] on the refresh and the submit button *)
  controls_disabled : bool;
  (** [loading ? 'Actualizando…' : 'Actualizar ahora'] *)
  refresh_label : jsstring;
  (** [value={searchTerm}] *)
  search_value : jsstring;
  (** [className={units === 'metric' ? 'active' : ''}] and
      [disabled={units === 'metric' || loading}], and their twins *)
  metric_button_active : bool;
  metric_button_disabled : bool;
  imperial_button_active : bool;
  imperial_button_disabled : bool;
  (** [error ? <div>{error}</div> : null] *)
  error_banner : option jsstring;
  (** [currentWeather ? <section className="current-weather">] *)
  current_section : option CurrentSection;
  (** [: loading ? <p>Cargando datos meteorológicos…</p> : null] *)
  loading_message : bool;
  (** [metrics.length ? <section className="metrics-grid">], one card
      per metric; no grid for the empty list *)
  metrics_grid : list Metric;
  chart_body : ChartBody
}.

(** A render either gives the screen or throws, which leaves no page. *)
Inductive Rendering :=
| Rendered (screen : Screen)
| Crashed.

Section Render.

Variable StringToNumber : jsstring -> number.

(** The text that [Intl.DateTimeFormat('es-ES', {hour, minute, second})]
    gives for a time value in the time zone of the host. *)
Variable local_time : Z -> jsstring.

Definition formatUpdatedAt (date : option Z) : option jsstring :=
  match date with
  | None => None
  | Some t => Some (local_time t)
  end.

(** [<ForecastChart dataPoints={forecastPoints} units={units} />] *)
Definition ForecastChart (dataPoints : list Projector.ForecastPoint)
  (units : UnitSystem) : ChartBody :=
  match Chart.chartPayload (Some dataPoints) units with
  | None => EmptyChart
  | Some data => LineChart data
  end.

(** One chip of [forecastPoints.slice(0, 4).map(...)]. *)
Definition forecast_chip (units : UnitSystem) (point : Projector.ForecastPoint)
  : Completion Chip :=
  bind (formatTemperature StringToNumber (Projector.temperature point) units)
    (fun shown =>
  Normal {| chip_label := Projector.label point;
            chip_temperature := shown;
            chip_rain := Number_toString (Projector.precipitation point)
                         ++ utf16 "% lluvia" |}).

(** The section shown when [currentWeather] is truthy. *)
Definition current_weather (current : CurrentPayload) (city : jsstring)
  (units : UnitSystem) (forecastPoints : list Projector.ForecastPoint)
  : Completion CurrentSection :=
  let weatherDescription := weatherDescription (Some current) in
  bind (formatTemperature StringToNumber (optional (main current) temp) units)
    (fun shown =>
  bind (map_completion (forecast_chip units) (firstn 4 forecastPoints))
    (fun chips =>
  Normal
    {| location := locationLabel (Some current) city;
       temperature := shown;
       description_text :=
         match weatherDescription with
         | Some entry =>
           Some (match description entry with Some text => text | None => [] end)
         | None => None
         end;
       icon_image :=
         match weatherDescription with
         | Some entry =>
           match icon entry with
           | Some code =>
             if string_falsy code then None
             else Some (utf16 "https://openweathermap.org/img/wn/" ++ code
                          ++ utf16 "@4x.png",
                        description entry)
           | None => None
           end
         | None => None
         end;
       chips := chips |})).

(** The body of [WeatherDashboard] after its hooks, for a state: the
    memos in the order of the source, then the returned element.  Static
    texts are left out. *)
Definition render (st : SessionState CurrentBody ForecastBody) : Rendering :=
  match Projector.buildForecastPoints
          (match weatherData st with Some data => forecast data | None => None end) with
  | Throw _ => Crashed
  | Normal forecastPoints =>
    match backgroundImageUrl (currentCityName (weatherData st)) (city st) with
    | None => Crashed
    | Some _ =>
      match metrics StringToNumber (weatherData st) (units st) forecastPoints with
      | Throw _ => Crashed
      | Normal metrics =>
        match
          match currentWeather (weatherData st) with
          | Some current =>
            bind (current_weather current (city st) (units st) forecastPoints)
              (fun section => Normal (Some section))
          | None => Normal None
          end
        with
        | Throw _ => Crashed
        | Normal section =>
          Rendered
            {| updated_stamp := formatUpdatedAt (lastUpdated st);
               controls_disabled := loading st;
               refresh_label := if loading st then utf16 "Actualizando…"
                                else utf16 "Actualizar ahora";
               search_value := searchTerm st;
               metric_button_active := App.UnitSystem_eqb (units st) metric;
               metric_button_disabled :=
                 App.UnitSystem_eqb (units st) metric || loading st;
               imperial_button_active := App.UnitSystem_eqb (units st) imperial;
               imperial_button_disabled :=
                 App.UnitSystem_eqb (units st) imperial || loading st;
               error_banner :=
                 match error st with
                 | Some message => if string_falsy message then None else Some message
                 | None => None
                 end;
               current_section := section;
               loading_message :=
                 match section with
                 | Some _ => false
                 | None => loading st
                 end;
               metrics_grid := metrics;
               chart_body :=
                 if loading st && (match forecastPoints with [] => true | _ => false end)
                 then LoadingForecast
                 else ForecastChart forecastPoints (units st) |}
        end
      end
    end
  end.

End Render.

End View.

(** * Properties *)

(** ** Binary64 arithmetic *)

Section RoundingFacts.
Import Num.

Lemma digits2_pos_bounds (p : positive) :
  2 ^ (Z.pos (digits2_pos p) - 1) <= Z.pos p < 2 ^ Z.pos (digits2_pos p).
Proof.
  induction p as [p IH|p IH|]; cbn [digits2_pos].
  - rewrite Pos2Z.inj_succ, Z.pow_succ_r by lia.
    replace (Z.succ (Z.pos (digits2_pos p)) - 1) with (Z.succ (Z.pos (digits2_pos p) - 1)) by lia.
    rewrite Z.pow_succ_r by lia. lia.
  - rewrite Pos2Z.inj_succ, Z.pow_succ_r by lia.
    replace (Z.succ (Z.pos (digits2_pos p)) - 1) with (Z.succ (Z.pos (digits2_pos p) - 1)) by lia.
    rewrite Z.pow_succ_r by lia. lia.
  - simpl. lia.
Qed.

(** A positive integer below [2^n] has at most [n] binary digits. *)
Lemma digits2_pos_le (p : positive) (n : Z) :
  Z.pos p < 2 ^ n -> Z.pos (digits2_pos p) <= n.
Proof.
  intros H. destruct (Z.le_gt_cases (Z.pos (digits2_pos p)) n) as [|Hgt]; [assumption|].
  exfalso. pose proof (digits2_pos_bounds p) as [Hlo _].
  assert (0 <= n).
  { destruct (Z.le_gt_cases 0 n); [assumption|]. rewrite Z.pow_neg_r in H; lia. }
  assert (2 ^ n <= 2 ^ (Z.pos (digits2_pos p) - 1)) by (apply Z.pow_le_mono_r; lia).
  lia.
Qed.

Lemma shr_1_m (r : shr_record) :
  0 <= shr_m r -> shr_m (shr_1 r) = shr_m r / 2.
Proof.
  destruct r as [m r s]. cbn [shr_m]. intros Hm.
  destruct m as [|[p|p|]|p]; cbn [shr_1 shr_m]; try lia.
  - reflexivity.
  - apply Z.div_unique with (r := 1); lia.
  - apply Z.div_unique with (r := 0); lia.
  - reflexivity.
Qed.

Lemma shr_m_iter (p : positive) : forall r : shr_record,
  0 <= shr_m r ->
  shr_m (iter_pos shr_1 p r) = shr_m r / 2 ^ Z.pos p.
Proof.
  induction p as [p IH|p IH|]; intros r Hr; cbn [iter_pos].
  - assert (H1 : 0 <= shr_m (shr_1 r)) by (rewrite shr_1_m by assumption; apply Z.div_pos; lia).
    assert (H2 : 0 <= shr_m (iter_pos shr_1 p (shr_1 r)))
      by (rewrite IH by assumption; apply Z.div_pos; lia).
    rewrite IH, IH, shr_1_m by assumption.
    assert (2 ^ Z.pos p~1 = 2 * 2 ^ Z.pos p * 2 ^ Z.pos p) as ->.
    { change (Z.pos p~1) with (Z.succ (2 * Z.pos p)).
      rewrite Z.pow_succ_r, Z.pow_twice_r by lia. lia. }
    rewrite !Z.div_div by lia. f_equal; lia.
  - assert (H2 : 0 <= shr_m (iter_pos shr_1 p r))
      by (rewrite IH by assumption; apply Z.div_pos; lia).
    rewrite IH, IH by assumption.
    assert (2 ^ Z.pos p~0 = 2 ^ Z.pos p * 2 ^ Z.pos p) as ->.
    { change (Z.pos p~0) with (2 * Z.pos p). apply Z.pow_twice_r. }
    rewrite !Z.div_div by lia. f_equal; lia.
  - rewrite shr_1_m by assumption. reflexivity.
Qed.

Lemma shr_m_of_loc m l : shr_m (shr_record_of_loc m l) = m.
Proof. destruct l as [|[ | | ]]; reflexivity. Qed.

Lemma round_nearest_even_bounds m l :
  m <= round_nearest_even m l <= m + 1.
Proof.
  destruct l as [|[ | | ]]; cbn [round_nearest_even]; try lia.
  destruct (Z.even m); lia.
Qed.

(** One normalising shift: the exponent rises to the one the format
    asks for, and the mantissa loses that many low bits. *)
Lemma shr_fexp_spec m e l :
  0 <= m ->
  let e' := Z.max e (fexp prec emax (Zdigits2 m + e)) in
  snd (shr_fexp prec emax m e l) = e'
  /\ shr_m (fst (shr_fexp prec emax m e l)) = m / 2 ^ (e' - e)
  /\ (e' = e -> fst (shr_fexp prec emax m e l) = shr_record_of_loc m l).
Proof.
  intros Hm e'. unfold shr_fexp, shr. subst e'.
  destruct (fexp prec emax (Zdigits2 m + e) - e) as [|p|p] eqn:E; cbn [fst snd].
  - replace (Z.max e (fexp prec emax (Zdigits2 m + e))) with e by lia.
    rewrite Z.sub_diag, shr_m_of_loc. cbn [Z.pow]. rewrite Z.div_1_r. auto.
  - replace (Z.max e (fexp prec emax (Zdigits2 m + e))) with (e + Z.pos p) by lia.
    rewrite shr_m_iter by (rewrite shr_m_of_loc; assumption).
    rewrite shr_m_of_loc. replace (e + Z.pos p - e) with (Z.pos p) by lia.
    repeat split; try reflexivity. intros; lia.
  - replace (Z.max e (fexp prec emax (Zdigits2 m + e))) with e by lia.
    rewrite Z.sub_diag, shr_m_of_loc. cbn [Z.pow]. rewrite Z.div_1_r. auto.
Qed.

Lemma fexp_spec e : fexp prec emax e = Z.max (e - 53) (-1074).
Proof. reflexivity. Qed.

(** Rounding a positive value below 100 gives a value that is at most
    100: the product of a probability and 100 stays a percentage. *)
Lemma round_aux_below_100 (M : positive) (E : Z) :
  E <= -46 -> Z.pos M < 100 * 2 ^ (- E) ->
  match binary_round_aux prec emax false (Z.pos M) E loc_Exact with
  | S754_zero false => True
  | S754_finite false m e => e <= -46 /\ Z.pos m <= 100 * 2 ^ (- e)
  | _ => False
  end.
Proof.
  intros HE HM. unfold binary_round_aux.
  destruct (shr_fexp_spec (Z.pos M) E loc_Exact ltac:(lia)) as (He1 & Hm1 & Hsame1).
  destruct (shr_fexp prec emax (Z.pos M) E loc_Exact) as [mrs1 e1]. cbn [fst snd] in *.
  rewrite <- He1 in Hm1, Hsame1.
  set (m1 := round_nearest_even (shr_m mrs1) (loc_of_shr_record mrs1)).
  (* the exponent after the first shift *)
  assert (Hd : Zdigits2 (Z.pos M) + E <= 7).
  { cbn [Zdigits2].
    assert (Z.pos (digits2_pos M) <= 7 - E); [|lia].
    apply digits2_pos_le.
    replace (7 - E) with (7 + - E) by lia. rewrite Z.pow_add_r by lia.
    assert (0 < 2 ^ (- E)) by (apply Z.pow_pos_nonneg; lia).
    change (2 ^ 7) with 128. lia. }
  rewrite fexp_spec in He1.
  assert (He1' : e1 <= -46) by lia.
  assert (HEe1 : E <= e1) by lia.
  (* the mantissa after rounding *)
  assert (Hm1' : 0 <= m1 <= 100 * 2 ^ (- e1)).
  { pose proof (round_nearest_even_bounds (shr_m mrs1) (loc_of_shr_record mrs1)) as Hr.
    fold m1 in Hr.
    destruct (Z.eq_dec e1 E) as [Heq|Hne].
    - subst m1. rewrite (Hsame1 Heq).
      cbn [shr_record_of_loc loc_of_shr_record shr_m round_nearest_even].
      rewrite Heq. lia.
    - assert (Hpow : 2 ^ (- E) = 2 ^ (- e1) * 2 ^ (e1 - E)).
      { rewrite <- Z.pow_add_r by lia. f_equal. lia. }
      assert (0 < 2 ^ (e1 - E)) by (apply Z.pow_pos_nonneg; lia).
      assert (0 <= shr_m mrs1) by (rewrite Hm1; apply Z.div_pos; lia).
      assert (shr_m mrs1 < 100 * 2 ^ (- e1)).
      { rewrite Hm1. apply Z.div_lt_upper_bound; [lia|]. rewrite Hpow in HM. lia. }
      lia. }
  destruct (shr_fexp_spec m1 e1 loc_Exact ltac:(lia)) as (He2 & Hm2 & _).
  destruct (shr_fexp prec emax m1 e1 loc_Exact) as [mrs2 e2]. cbn [fst snd] in *.
  rewrite <- He2 in Hm2.
  rewrite fexp_spec in He2.
  assert (Hd1 : Zdigits2 m1 + e1 <= 7).
  { destruct m1 as [|q|q] eqn:Em1; cbn [Zdigits2]; [lia| |lia].
    assert (Z.pos (digits2_pos q) <= 7 - e1); [|lia].
    apply digits2_pos_le.
    replace (7 - e1) with (7 + - e1) by lia. rewrite Z.pow_add_r by lia.
    assert (0 < 2 ^ (- e1)) by (apply Z.pow_pos_nonneg; lia).
    change (2 ^ 7) with 128. lia. }
  assert (He2' : e2 <= -46) by lia.
  assert (He12 : e1 <= e2) by lia.
  assert (Hm2' : 0 <= shr_m mrs2 <= 100 * 2 ^ (- e2)).
  { rewrite Hm2.
    assert (Hpow : 2 ^ (- e1) = 2 ^ (e2 - e1) * 2 ^ (- e2)).
    { rewrite <- Z.pow_add_r by lia. f_equal. lia. }
    assert (0 < 2 ^ (e2 - e1)) by (apply Z.pow_pos_nonneg; lia).
    split; [apply Z.div_pos; lia|].
    apply Z.div_le_upper_bound; [lia|]. rewrite Hpow in Hm1'. lia. }
  destruct (shr_m mrs2) as [|q|q]; [exact I| |lia].
  destruct (Z.leb_spec e2 (emax - prec)) as [_|Hbig]; [|unfold emax, prec in Hbig; lia].
  split; [assumption|lia].
Qed.

End RoundingFacts.

Section ExactIntegers.
Import Num.

Lemma iter_xO_value (q k : positive) :
  Z.pos (Pos.iter xO q k) = Z.pos q * 2 ^ Z.pos k.
Proof.
  induction k as [|k IH] using Pos.peano_ind.
  - cbn [Pos.iter]. rewrite Z.pow_1_r. lia.
  - rewrite Pos.iter_succ, Pos2Z.inj_xO, IH, Pos2Z.inj_succ, Z.pow_succ_r by lia. lia.
Qed.

Lemma iter_xO_digits (q k : positive) :
  digits2_pos (Pos.iter xO q k) = (digits2_pos q + k)%positive.
Proof.
  induction k as [|k IH] using Pos.peano_ind.
  - cbn [Pos.iter digits2_pos]. lia.
  - rewrite Pos.iter_succ. cbn [digits2_pos]. rewrite IH. lia.
Qed.

Lemma shr_fexp_keep m e l :
  fexp prec emax (Zdigits2 m + e) <= e ->
  shr_fexp prec emax m e l = (shr_record_of_loc m l, e).
Proof.
  intros H. unfold shr_fexp, shr.
  destruct (fexp prec emax (Zdigits2 m + e) - e) eqn:E; [reflexivity|lia|reflexivity].
Qed.

(** A mantissa that already has the exponent the format asks for is
    kept as it is. *)
Lemma binary_round_aux_exact s (m : positive) (e : Z) :
  fexp prec emax (Z.pos (digits2_pos m) + e) <= e -> e <= emax - prec ->
  binary_round_aux prec emax s (Z.pos m) e loc_Exact = S754_finite s m e.
Proof.
  intros Hf He. unfold binary_round_aux.
  rewrite shr_fexp_keep by exact Hf.
  cbn [shr_record_of_loc loc_of_shr_record shr_m round_nearest_even].
  rewrite shr_fexp_keep by exact Hf.
  cbn [shr_record_of_loc shr_m].
  destruct (Z.leb_spec e (emax - prec)); [reflexivity|lia].
Qed.

(** An integer of magnitude below [2^53] converts to a Number without
    rounding. *)
Lemma binary_round_integer s (q : positive) :
  Z.pos q < 2 ^ 53 ->
  exists (mz : positive) (k : Z),
    binary_round prec emax s q 0 = S754_finite s mz (- k)
    /\ 0 <= k /\ Z.pos mz = Z.pos q * 2 ^ k.
Proof.
  intros Hq. unfold binary_round.
  pose proof (digits2_pos_le q 53 Hq) as Hd.
  rewrite fexp_spec, Z.add_0_r.
  replace (Z.max (Z.pos (digits2_pos q) - 53) (-1074))
    with (Z.pos (digits2_pos q) - 53) by lia.
  unfold shl_align. rewrite Z.sub_0_r.
  destruct (Z.pos (digits2_pos q) - 53) as [|k|k] eqn:Ek; [|lia|].
  - exists q, 0. rewrite binary_round_aux_exact.
    + repeat split; [lia|cbn; lia].
    + rewrite fexp_spec. lia.
    + unfold emax, prec. lia.
  - exists (Pos.iter xO q k), (Z.pos k).
    rewrite binary_round_aux_exact.
    + repeat split; [lia|apply iter_xO_value].
    + rewrite fexp_spec, iter_xO_digits, Pos2Z.inj_add. lia.
    + unfold emax, prec. lia.
Qed.

Lemma integral_value_of_Z (n : Z) :
  n <> 0 -> Z.abs n < 2 ^ 53 -> integral_value (of_Z n) = Some n.
Proof.
  intros Hn Hlt. unfold of_Z, binary_normalize.
  assert (Hpos : forall k, 0 <= k -> 0 < 2 ^ k) by (intros; apply Z.pow_pos_nonneg; lia).
  destruct n as [|q|q]; [contradiction| |].
  - destruct (binary_round_integer false q Hlt) as (mz & k & -> & Hk & Hmz).
    unfold integral_value, signed_mantissa. rewrite Hmz, Z.opp_involutive.
    specialize (Hpos k Hk).
    destruct (Z.leb_spec 0 (- k)).
    + replace k with 0 in * by lia. cbn [Z.opp Z.pow]. f_equal. lia.
    + rewrite Z.mod_mul, Z.div_mul by lia. reflexivity.
  - destruct (binary_round_integer true q Hlt) as (mz & k & -> & Hk & Hmz).
    unfold integral_value, signed_mantissa. rewrite Z.opp_involutive.
    change (Z.neg mz) with (- Z.pos mz). rewrite Hmz.
    specialize (Hpos k Hk).
    replace (- (Z.pos q * 2 ^ k)) with (Z.neg q * 2 ^ k) by lia.
    destruct (Z.leb_spec 0 (- k)).
    + replace k with 0 in * by lia. cbn [Z.opp Z.pow]. f_equal. lia.
    + rewrite Z.mod_mul, Z.div_mul by lia. reflexivity.
Qed.

(** The shape of a well-formed finite value. *)
Lemma well_formed_finite s m e :
  well_formed (S754_finite s m e) = true ->
  Z.pos m < 2 ^ 53 /\ -1074 <= e <= 971
  /\ (-1074 < e -> 2 ^ 52 <= Z.pos m).
Proof.
  unfold well_formed, valid_binary, bounded, canonical_mantissa.
  rewrite fexp_spec. intros H. apply andb_true_iff in H. destruct H as [Hc Hb].
  apply Z.eqb_eq in Hc. apply Z.leb_le in Hb. unfold emax, prec in Hb.
  pose proof (digits2_pos_bounds m) as [Hlo Hhi].
  assert (Hd : Z.pos (digits2_pos m) <= 53) by lia.
  repeat split; try lia.
  - assert (2 ^ Z.pos (digits2_pos m) <= 2 ^ 53) by (apply Z.pow_le_mono_r; lia). lia.
  - intros He. assert (Z.pos (digits2_pos m) = 53) as E by lia.
    rewrite E in Hlo. exact Hlo.
Qed.

End ExactIntegers.

(** ** Formatters *)

Section FormatterProperties.
Import Session Num Format.

(** [round_half_up m e] is the integer nearest to [m * 2^e], the upper
    one when two are equally near. *)
Lemma round_half_up_nearest m e :
  (inject_Z (round_half_up m e) - (1 # 2) <= scaled m e
   /\ scaled m e < inject_Z (round_half_up m e) + (1 # 2))%Q.
Proof.
  unfold round_half_up, scaled.
  destruct (Z.leb_spec 0 e) as [He|He].
  - unfold Qle, Qlt, Qminus, Qplus, Qopp, inject_Z. cbn [Qnum Qden]. lia.
  - assert (Hp : 0 < 2 ^ (- e)) by (apply Z.pow_pos_nonneg; lia).
    replace (2 ^ (- e + 1)) with (2 * 2 ^ (- e)) by (rewrite Z.pow_add_r by lia; lia).
    pose proof (Z.div_mod (2 * m + 2 ^ (- e)) (2 * 2 ^ (- e)) ltac:(lia)) as Hdm.
    pose proof (Z.mod_pos_bound (2 * m + 2 ^ (- e)) (2 * 2 ^ (- e)) ltac:(lia)) as Hr.
    set (n := (2 * m + 2 ^ (- e)) / (2 * 2 ^ (- e))) in *.
    set (r := (2 * m + 2 ^ (- e)) mod (2 * 2 ^ (- e))) in *.
    unfold Qle, Qlt, Qminus, Qplus, Qopp, inject_Z. cbn [Qnum Qden].
    rewrite Z2Pos.id by lia.
    set (P := 2 ^ (- e)) in *.
    split; nia.
Qed.

Lemma round_half_up_magnitude m e :
  e < 0 -> Z.abs m < 2 ^ 53 -> Z.abs (round_half_up m e) < 2 ^ 53.
Proof.
  intros He Hm. unfold round_half_up.
  destruct (Z.leb_spec 0 e) as [|_]; [lia|].
  assert (Hp : 2 <= 2 ^ (- e)).
  { change 2 with (2 ^ 1) at 1. apply Z.pow_le_mono_r; lia. }
  replace (2 ^ (- e + 1)) with (2 * 2 ^ (- e)) by (rewrite Z.pow_add_r by lia; lia).
  pose proof (Z.div_mod (2 * m + 2 ^ (- e)) (2 * 2 ^ (- e)) ltac:(lia)) as Hdm.
  pose proof (Z.mod_pos_bound (2 * m + 2 ^ (- e)) (2 * 2 ^ (- e)) ltac:(lia)) as Hr.
  set (n := (2 * m + 2 ^ (- e)) / (2 * 2 ^ (- e))) in *.
  set (r := (2 * m + 2 ^ (- e)) mod (2 * 2 ^ (- e))) in *.
  set (P := 2 ^ (- e)) in *.
  change (2 ^ 53) with 9007199254740992 in *.
  nia.
Qed.

(** [Math.round] of a finite Number is the nearest integer. *)
Lemma Math_round_nearest x :
  well_formed x = true -> is_finite x = true ->
  exists n, integral_value (Math_round x) = Some n
    /\ (inject_Z n - (1 # 2) <= exact x /\ exact x < inject_Z n + (1 # 2))%Q.
Proof.
  intros Hwf Hfin. destruct x as [s|s| |s m e]; try discriminate.
  - exists 0. split; [reflexivity|]. split; [intro H; vm_compute in H; discriminate H|reflexivity].
  - exists (round_half_up (signed_mantissa s m) e).
    split; [|apply round_half_up_nearest].
    cbn [Math_round]. destruct (Z.leb_spec 0 e) as [He|He].
    + cbn [integral_value]. unfold round_half_up.
      destruct (Z.leb_spec 0 e); [reflexivity|lia].
    + destruct (well_formed_finite s m e Hwf) as (Hm & _ & _).
      pose proof (round_half_up_magnitude (signed_mantissa s m) e He) as Hmag.
      destruct (round_half_up (signed_mantissa s m) e) as [|q|q] eqn:E.
      * reflexivity.
      * apply integral_value_of_Z; [lia|]. apply Hmag. destruct s; cbn; lia.
      * apply integral_value_of_Z; [lia|]. apply Hmag. destruct s; cbn; lia.
Qed.

Lemma below_1e21 m e :
  (scaled (Z.pos m) e < inject_Z (10 ^ 21))%Q ->
  compare_scaled 1 21 (Z.pos m) e = Gt.
Proof.
  unfold scaled, compare_scaled.
  change (Z.max (- (21)) 0) with 0. change (Z.max 21 0) with 21.
  change (10 ^ 0) with 1. change (10 ^ 21) with 1000000000000000000000.
  destruct (Z.leb_spec 0 e) as [He|He].
  - unfold Qlt, inject_Z. cbn [Qnum Qden]. intros H.
    replace (Z.max (- e) 0) with 0 by lia. replace (Z.max e 0) with e by lia.
    apply Z.compare_gt_iff. rewrite Z.pow_0_r. lia.
  - assert (Hp : 0 < 2 ^ (- e)) by (apply Z.pow_pos_nonneg; lia).
    unfold Qlt, inject_Z. cbn [Qnum Qden]. rewrite Z2Pos.id by lia. intros H.
    replace (Z.max (- e) 0) with (- e) by lia. replace (Z.max e 0) with 0 by lia.
    apply Z.compare_gt_iff. rewrite Z.pow_0_r. lia.
Qed.

(** [x.toFixed(1)] of a finite Number of magnitude below 1e21: the sign,
    then the digits of the integer nearest to ten times the magnitude,
    with the point before the last digit. *)
Lemma toFixed_one_decimal s m e :
  (scaled (Z.pos m) e < inject_Z (10 ^ 21))%Q ->
  exists n,
    toFixed (S754_finite s m e) 1 =
      (if s then utf16 "-" else []) ++ layout_fixed n 1
    /\ (inject_Z n - (1 # 2) <= scaled (Z.pos m * 10) e
        /\ scaled (Z.pos m * 10) e < inject_Z n + (1 # 2))%Q.
Proof.
  intros H. exists (round_half_up (Z.pos m * 10) e).
  split; [|apply round_half_up_nearest].
  cbn [toFixed]. rewrite (below_1e21 m e H). reflexivity.
Qed.

End FormatterProperties.

Section RenderedDigits.
Import Session Num Format Enumeration.

Lemma In_Z_upto (len : nat) : forall lo z,
  lo <= z < lo + Z.of_nat len -> In z (Z_upto lo len).
Proof.
  induction len as [|len IH]; intros lo z Hz.
  - cbn in Hz. lia.
  - cbn [Z_upto]. destruct (Z.eq_dec lo z) as [->|Hne]; [left; reflexivity|].
    right. apply IH. lia.
Qed.

Lemma jsstring_eqb_eq a b : jsstring_eqb a b = true -> a = b.
Proof.
  unfold jsstring_eqb. destruct (list_eq_dec N.eq_dec a b); [trivial|discriminate].
Qed.

Lemma renders_integer_upto_1000 :
  forallb renders_integer (Z_upto (-1000) (Z.to_nat 2001)) = true.
Proof. vm_compute. reflexivity. Qed.

Lemma lays_one_decimal_upto_20000 :
  forallb lays_one_decimal (Z_upto 0 (Z.to_nat 20001)) = true.
Proof. vm_compute. reflexivity. Qed.

(** A whole Number between -1000 and 1000 prints as the decimal digits
    of the integer. *)
Lemma Number_toString_integer n :
  -1000 <= n <= 1000 -> Number_toString (of_Z n) = decimal_signed n.
Proof.
  intros Hn. apply jsstring_eqb_eq.
  pose proof renders_integer_upto_1000 as H.
  rewrite forallb_forall in H. apply H. apply In_Z_upto.
  rewrite Z2Nat.id; lia.
Qed.

Lemma layout_fixed_one_decimal n :
  0 <= n <= 20000 ->
  layout_fixed n 1 = decimal (n / 10) ++ utf16 "." ++ [Clock.digit (n mod 10)].
Proof.
  intros Hn. apply jsstring_eqb_eq.
  pose proof lays_one_decimal_upto_20000 as H.
  rewrite forallb_forall in H. apply H. apply In_Z_upto.
  rewrite Z2Nat.id; lia.
Qed.

(** An integer within half a unit of a rational lies where the rational
    does. *)
Lemma nearest_within (q : Q) (n lo hi : Z) :
  (inject_Z n - (1 # 2) <= q /\ q < inject_Z n + (1 # 2))%Q ->
  (inject_Z lo <= q /\ q <= inject_Z hi)%Q ->
  lo <= n <= hi.
Proof.
  intros [Hn1 Hn2] [Hlo Hhi].
  pose proof (Qle_trans _ _ _ Hn1 Hhi) as H1.
  pose proof (Qle_lt_trans _ _ _ Hlo Hn2) as H2.
  unfold Qle, Qlt, Qminus, Qplus, Qopp, inject_Z in H1, H2.
  cbn [Qnum Qden] in H1, H2. lia.
Qed.

(** [Math.round] of a Number between -1000 and 1000 prints as the
    nearest integer. *)
Lemma Math_round_rendered x :
  well_formed x = true -> is_finite x = true ->
  (inject_Z (-1000) <= exact x /\ exact x <= inject_Z 1000)%Q ->
  exists n,
    (inject_Z n - (1 # 2) <= exact x /\ exact x < inject_Z n + (1 # 2))%Q
    /\ Number_toString (Math_round x) = decimal_signed n.
Proof.
  intros Hwf Hfin Hrange.
  destruct (Math_round_nearest x Hwf Hfin) as (n & Hint & Hnear).
  exists n. split; [exact Hnear|].
  pose proof (nearest_within _ _ _ _ Hnear Hrange) as Hn.
  destruct x as [s|s| |s m e]; try discriminate.
  - cbn in Hint. inversion Hint; subst n. reflexivity.
  - cbn [Math_round] in *. destruct (Z.leb_spec 0 e) as [He|He].
    + exfalso. destruct (well_formed_finite s m e Hwf) as (_ & _ & Hnormal).
      specialize (Hnormal ltac:(lia)).
      cbn [integral_value] in Hint. destruct (Z.leb_spec 0 e); [|lia].
      inversion Hint as [Hv].
      assert (0 < 2 ^ e) by (apply Z.pow_pos_nonneg; lia).
      change (2 ^ 52) with 4503599627370496 in Hnormal.
      destruct s; cbn [signed_mantissa] in Hv; nia.
    + destruct (round_half_up (signed_mantissa s m) e) as [|q|q] eqn:E.
      * cbn in Hint. inversion Hint; subst n. reflexivity.
      * rewrite integral_value_of_Z in Hint;
          [|lia|pose proof (round_half_up_magnitude (signed_mantissa s m) e He) as Hm;
                rewrite E in Hm; apply Hm;
                destruct (well_formed_finite s m e Hwf) as (? & _); destruct s; cbn; lia].
        inversion Hint; subst n. apply Number_toString_integer. exact Hn.
      * rewrite integral_value_of_Z in Hint;
          [|lia|pose proof (round_half_up_magnitude (signed_mantissa s m) e He) as Hm;
                rewrite E in Hm; apply Hm;
                destruct (well_formed_finite s m e Hwf) as (? & _); destruct s; cbn; lia].
        inversion Hint; subst n. apply Number_toString_integer. exact Hn.
Qed.

Lemma scaled_times m e k :
  (scaled (m * k) e == scaled m e * inject_Z k)%Q.
Proof.
  unfold scaled. destruct (Z.leb_spec 0 e).
  - unfold Qeq, Qmult, inject_Z. cbn [Qnum Qden]. lia.
  - unfold Qeq, Qmult, inject_Z. cbn [Qnum Qden]. rewrite Pos.mul_1_r. lia.
Qed.

(** [toFixed(1)] of a Number of magnitude below 2000: sign, integer
    part, point, one digit, the whole being the nearest tenth. *)
Lemma toFixed_rendered s m e :
  (scaled (Z.pos m) e < inject_Z 2000)%Q ->
  exists n,
    (inject_Z n - (1 # 2) <= scaled (Z.pos m * 10) e
     /\ scaled (Z.pos m * 10) e < inject_Z n + (1 # 2))%Q
    /\ 0 <= n
    /\ toFixed (S754_finite s m e) 1 =
         (if s then utf16 "-" else [])
         ++ decimal (n / 10) ++ utf16 "." ++ [Clock.digit (n mod 10)].
Proof.
  intros Hlt.
  assert (Hbig : (scaled (Z.pos m) e < inject_Z (10 ^ 21))%Q).
  { eapply Qlt_trans; [exact Hlt|]. reflexivity. }
  destruct (toFixed_one_decimal s m e Hbig) as (n & Hfix & Hnear).
  assert (Hpos : (inject_Z 0 <= scaled (Z.pos m * 10) e)%Q).
  { unfold scaled. destruct (Z.leb_spec 0 e).
    - unfold Qle, inject_Z. cbn [Qnum Qden].
      assert (0 < 2 ^ e) by (apply Z.pow_pos_nonneg; lia). nia.
    - unfold Qle, inject_Z. cbn [Qnum Qden]. lia. }
  assert (Hup : (scaled (Z.pos m * 10) e <= inject_Z 20000)%Q).
  { rewrite scaled_times. apply Qlt_le_weak.
    change (inject_Z 20000) with (inject_Z 2000 * inject_Z 10)%Q.
    apply Qmult_lt_compat_r; [reflexivity|exact Hlt]. }
  pose proof (nearest_within _ _ _ _ Hnear (conj Hpos Hup)) as Hn.
  exists n. split; [exact Hnear|]. split; [lia|].
  rewrite Hfix, layout_fixed_one_decimal by exact Hn. reflexivity.
Qed.

End RenderedDigits.

Section FormatterGuard.
Import Session Num Format.

Lemma typeof_guard value :
  negb (jsstring_eqb (typeof value) (utf16 "number")) =
    match value with VNumber _ => false | _ => true end.
Proof. destruct value; vm_compute; reflexivity. Qed.

Variable StringToNumber : jsstring -> number.

Lemma formatTemperature_cases value units :
  formatTemperature StringToNumber value units =
    match value with
    | VNumber x => Normal (Number_toString (Math_round x) ++ TEMPERATURE_UNIT units)
    | _ => Normal PLACEHOLDER
    end.
Proof.
  unfold formatTemperature. rewrite typeof_guard. destruct value; reflexivity.
Qed.

Lemma formatWindSpeed_cases value units :
  formatWindSpeed value units =
    match value with
    | VNumber x => Normal (toFixed x 1 ++ utf16 " " ++ WIND_UNIT units)
    | _ => Normal PLACEHOLDER
    end.
Proof.
  unfold formatWindSpeed. rewrite typeof_guard. destruct value; reflexivity.
Qed.

Lemma formatVisibility_cases value :
  formatVisibility StringToNumber value =
    match value with
    | VNumber x => Normal (toFixed (div x (of_Z 1000)) 1 ++ utf16 " km")
    | _ => Normal PLACEHOLDER
    end.
Proof.
  unfold formatVisibility. rewrite typeof_guard. destruct value; reflexivity.
Qed.

End FormatterGuard.

(** C5 (as amended): the three formatters never throw.  A value whose
    [typeof] is not "number" gives the placeholder.  A Number [x] gives
    [Math.round(x)] followed by the unit glyph, [x.toFixed(1)] followed by
    a space and the unit label, and [(x / 1000).toFixed(1)] followed by
    " km".  For a finite [x], [Math.round(x)] is the nearest integer (the
    upper one on a tie), printed in decimal digits (shown for -1000 to
    1000); below 1e21, [toFixed(1)] prints the integer nearest to ten
    times the magnitude with a point before its last digit (digit by
    digit below 2000).  [formatTemperature(21.6, 'metric')] is "22°C". *)
Theorem formatters_total_and_precise
  (StringToNumber : jsstring -> Num.number)
  (value : Format.JSValue) (units : Session.UnitSystem) :
  (* never an exception *)
  (exists s, Format.formatTemperature StringToNumber value units = Normal s)
  /\ (exists s, Format.formatWindSpeed value units = Normal s)
  /\ (exists s, Format.formatVisibility StringToNumber value = Normal s)
  (* not a Number: the placeholder *)
  /\ ((forall x, value <> Format.VNumber x) ->
      Format.formatTemperature StringToNumber value units = Normal Format.PLACEHOLDER
      /\ Format.formatWindSpeed value units = Normal Format.PLACEHOLDER
      /\ Format.formatVisibility StringToNumber value = Normal Format.PLACEHOLDER)
  (* a Number: the built-in applied to it, then the unit *)
  /\ (forall x, value = Format.VNumber x ->
      Format.formatTemperature StringToNumber value units =
        Normal (Num.Number_toString (Num.Math_round x) ++ Format.TEMPERATURE_UNIT units)
      /\ Format.formatWindSpeed value units =
           Normal (Num.toFixed x 1 ++ utf16 " " ++ Format.WIND_UNIT units)
      /\ Format.formatVisibility StringToNumber value =
           Normal (Num.toFixed (Num.div x (Num.of_Z 1000)) 1 ++ utf16 " km"))
  (* Math.round is the nearest integer *)
  /\ (forall x, Num.well_formed x = true -> Num.is_finite x = true ->
      exists n, Num.integral_value (Num.Math_round x) = Some n
                /\ Num.nearest_integer (Num.exact x) n)
  (* ... printed in decimal digits *)
  /\ (forall x, Num.well_formed x = true -> Num.is_finite x = true ->
      (inject_Z (-1000) <= Num.exact x /\ Num.exact x <= inject_Z 1000)%Q ->
      exists n, Num.nearest_integer (Num.exact x) n
        /\ Format.formatTemperature StringToNumber (Format.VNumber x) units =
             Normal (Num.decimal_signed n ++ Format.TEMPERATURE_UNIT units))
  (* toFixed(1) is the nearest tenth *)
  /\ (forall s m e, (Num.scaled (Z.pos m) e < inject_Z (10 ^ 21))%Q ->
      exists n, Num.nearest_integer (Num.scaled (Z.pos m * 10) e) n
        /\ Num.toFixed (S754_finite s m e) 1 =
             (if s then utf16 "-" else []) ++ Num.layout_fixed n 1)
  (* ... printed as integer part, point and one digit *)
  /\ (forall s m e, (Num.scaled (Z.pos m) e < inject_Z 2000)%Q ->
      exists n, Num.nearest_integer (Num.scaled (Z.pos m * 10) e) n
        /\ Format.formatWindSpeed (Format.VNumber (S754_finite s m e)) units =
             Normal ((if s then utf16 "-" else [])
                     ++ Num.decimal (n / 10) ++ utf16 "."
                     ++ [Clock.digit (n mod 10)]
                     ++ utf16 " " ++ Format.WIND_UNIT units))
  /\ (forall x s m e, Num.div x (Num.of_Z 1000) = S754_finite s m e ->
      (Num.scaled (Z.pos m) e < inject_Z 2000)%Q ->
      exists n, Num.nearest_integer (Num.scaled (Z.pos m * 10) e) n
        /\ Format.formatVisibility StringToNumber (Format.VNumber x) =
             Normal ((if s then utf16 "-" else [])
                     ++ Num.decimal (n / 10) ++ utf16 "."
                     ++ [Clock.digit (n mod 10)] ++ utf16 " km"))
  (* examples *)
  /\ Format.formatTemperature StringToNumber
       (Format.VNumber NumberSamples.n21_6) Session.metric = Normal (utf16 "22°C")
  /\ Format.formatWindSpeed
       (Format.VNumber NumberSamples.n3_14) Session.imperial = Normal (utf16 "3.1 mph")
  /\ Format.formatVisibility StringToNumber
       (Format.VNumber (Num.of_Z 10000)) = Normal (utf16 "10.0 km").
Proof.
  rewrite !formatTemperature_cases, !formatWindSpeed_cases, !formatVisibility_cases.
  repeat match goal with |- _ /\ _ => split end.
  - destruct value; eexists; reflexivity.
  - destruct value; eexists; reflexivity.
  - destruct value; eexists; reflexivity.
  - intros Hnot. destruct value as [| |b|x|s]; try (repeat split; reflexivity).
    exfalso. apply (Hnot x). reflexivity.
  - intros x ->. repeat split; reflexivity.
  - apply Math_round_nearest.
  - intros x Hwf Hfin Hrange.
    destruct (Math_round_rendered x Hwf Hfin Hrange) as (n & Hnear & Hshow).
    exists n. split; [exact Hnear|].
    rewrite formatTemperature_cases, Hshow. reflexivity.
  - intros s m e Hlt.
    destruct (toFixed_one_decimal s m e Hlt) as (n & Hfix & Hnear).
    exists n. split; [exact Hnear|exact Hfix].
  - intros s m e Hlt.
    destruct (toFixed_rendered s m e Hlt) as (n & Hnear & _ & Hfix).
    exists n. split; [exact Hnear|].
    rewrite formatWindSpeed_cases, Hfix, <- !app_assoc. reflexivity.
  - intros x s m e Hdiv Hlt.
    destruct (toFixed_rendered s m e Hlt) as (n & Hnear & _ & Hfix).
    exists n. split; [exact Hnear|].
    rewrite formatVisibility_cases, Hdiv, Hfix, <- !app_assoc. reflexivity.
  - vm_compute. reflexivity.
  - vm_compute. reflexivity.
  - vm_compute. reflexivity.
Qed.

Lemma formatters_total_and_precise_witness :
  exists n, Num.nearest_integer (Num.exact NumberSamples.n21_6) n
    /\ Format.formatTemperature (fun _ => S754_nan)
         (Format.VNumber NumberSamples.n21_6) Session.metric =
       Normal (Num.decimal_signed n ++ Format.TEMPERATURE_UNIT Session.metric).
Proof.
  destruct (formatters_total_and_precise (fun _ => S754_nan)
              (Format.VNumber NumberSamples.n21_6) Session.metric)
    as (_ & _ & _ & _ & _ & _ & Hround & _).
  apply Hround; [reflexivity|reflexivity|].
  split; [intro H; vm_compute in H; discriminate H
         |intro H; vm_compute in H; discriminate H].
Defined.

Lemma uint_digits_are_digits (d : Decimal.uint) :
  Forall (fun c => (48 <= c <= 57)%N) (Num.uint_digits d).
Proof.
  induction d; cbn [Num.uint_digits]; constructor; try assumption; lia.
Qed.

(** C5, counterexample: NaN is a Number for [typeof], so it is
    formatted, not replaced: the result is neither the placeholder nor an
    integer followed by the glyph.  From 1e21 on, [toFixed] prints no
    decimal. *)
Lemma formatTemperature_NaN_is_not_placeholder :
  let out := Format.formatTemperature (fun _ => S754_nan)
               (Format.VNumber S754_nan) Session.metric in
  out = Normal (utf16 "NaN°C")
  /\ out <> Normal Format.PLACEHOLDER
  /\ (forall n : Z,
        out <> Normal (Num.decimal_signed n ++ Format.TEMPERATURE_UNIT Session.metric))
  /\ Format.formatWindSpeed (Format.VNumber (Num.of_Z (10 ^ 21))) Session.metric
      = Normal (utf16 "1e+21 m/s").
Proof.
  cbv zeta. rewrite formatTemperature_cases, formatWindSpeed_cases.
  split; [vm_compute; reflexivity|].
  split; [intro H; vm_compute in H; discriminate H|].
  split; [|vm_compute; reflexivity].
  intros n H. injection H as H.
  change (Num.Number_toString (Num.Math_round S754_nan)
          ++ Format.TEMPERATURE_UNIT Session.metric)
    with [78%N; 97%N; 78%N; 176%N; 67%N] in H.
  change (Format.TEMPERATURE_UNIT Session.metric) with [176%N; 67%N] in H.
  unfold Num.decimal_signed in H.
  destruct (n <? 0).
  - change (utf16 "-") with [45%N] in H. discriminate H.
  - unfold Num.decimal in H.
    pose proof (uint_digits_are_digits (N.to_uint (Z.to_N n))) as Hd.
    destruct (Num.uint_digits (N.to_uint (Z.to_N n))) as [|c rest].
    + discriminate H.
    + injection H as Hc _. inversion Hd as [|? ? Hrange _]. lia.
Qed.

(** ** Sun events *)

Section ClockProperties.
Import Num Format Clock.

Lemma two_digits_spec n :
  0 <= n < 60 -> two_digits n = [digit (n / 10); Clock.digit (n mod 10)].
Proof.
  intros H. destruct n as [|p|p]; [reflexivity| |lia].
  do 6 (destruct p as [p|p|]; try lia; try reflexivity).
Qed.

Lemma clock_HH_MM_spec t h m :
  h = (t / msPerHour) mod 24 -> m = (t / msPerMinute) mod 60 ->
  clock_HH_MM t =
    [digit (h / 10); digit (h mod 10); 58%N; digit (m / 10); digit (m mod 10)].
Proof.
  intros -> ->. unfold clock_HH_MM, HourFromTime, MinFromTime.
  rewrite !two_digits_spec.
  - reflexivity.
  - pose proof (Z.mod_pos_bound (t / msPerMinute) 60). lia.
  - pose proof (Z.mod_pos_bound (t / msPerHour) 24). lia.
Qed.

(** Splitting seconds since the epoch into days, hours, minutes and
    seconds fixes the hour and the minute of the time value. *)
Lemma clock_fields secs d h m s :
  secs = 86400 * d + 3600 * h + 60 * m + s ->
  0 <= h < 24 -> 0 <= m < 60 -> 0 <= s < 60 ->
  (secs * 1000 / msPerHour) mod 24 = h /\ (secs * 1000 / msPerMinute) mod 60 = m.
Proof.
  intros -> Hh Hm Hs. unfold msPerHour, msPerMinute. split.
  - replace ((86400 * d + 3600 * h + 60 * m + s) * 1000 / 3600000)
      with (24 * d + h).
    + rewrite Z.add_comm, Z.mul_comm, Z.mod_add by lia. apply Z.mod_small; lia.
    + apply Z.div_unique with (r := (60 * m + s) * 1000); lia.
  - replace ((86400 * d + 3600 * h + 60 * m + s) * 1000 / 60000)
      with (60 * (24 * d + h) + m).
    + rewrite Z.add_comm, Z.mul_comm, Z.mod_add by lia. apply Z.mod_small; lia.
    + apply Z.div_unique with (r := s * 1000); lia.
Qed.

End ClockProperties.

(** C6 (as amended): [formatSunEvent] gives the placeholder for an absent
    or zero timestamp; for any other timestamp whose sum with the offset
    is within the range of a Date it gives the five characters HH:MM of
    the hour and minute of (timestamp + offset) seconds since the epoch,
    read as UTC, and "Invalid Date" outside that range.  The function has
    no other input, so the caller's time zone cannot matter, and
    [formatSunEvent 1700000000 7200] is the clock time of 1700007200. *)
Theorem formatSunEvent_utc_clock (ts offset d h m s : Z) :
  ts <> 0 ->
  Z.abs (ts + offset) <= 8640000000000 ->
  ts + offset = 86400 * d + 3600 * h + 60 * m + s ->
  0 <= h < 24 -> 0 <= m < 60 -> 0 <= s < 60 ->
  Clock.formatSunEvent (Some ts) offset =
    [Clock.digit (h / 10); Clock.digit (h mod 10); 58%N; Clock.digit (m / 10); Clock.digit (m mod 10)]
  /\ Clock.formatSunEvent None offset = Format.PLACEHOLDER
  /\ Clock.formatSunEvent (Some 0) offset = Format.PLACEHOLDER
  /\ (forall ts', 8640000000000 < Z.abs (ts' + offset) -> ts' <> 0 ->
      Clock.formatSunEvent (Some ts') offset = utf16 "Invalid Date")
  /\ Clock.formatSunEvent (Some 1700000000) 7200 = Clock.clock_HH_MM (1700007200 * 1000)
  /\ Clock.formatSunEvent (Some 1700000000) 7200 = utf16 "00:13".
Proof.
  intros Hts Hrange Hsplit Hh Hm Hs.
  split; [|split; [reflexivity|split; [reflexivity|split; [|split; reflexivity]]]].
  - unfold Clock.formatSunEvent, Clock.TimeClip.
    destruct (Z.eqb_spec ts 0) as [|_]; [contradiction|].
    destruct (Z.leb_spec (Z.abs ((ts + offset) * 1000)) 8640000000000000) as [_|Hbad];
      [|lia].
    unfold Clock.toLocaleTimeString.
    destruct (clock_fields (ts + offset) d h m s Hsplit Hh Hm Hs) as [Eh Em].
    apply clock_HH_MM_spec; symmetry; assumption.
  - intros ts' Hout Hnz. unfold Clock.formatSunEvent, Clock.TimeClip.
    destruct (Z.eqb_spec ts' 0) as [|_]; [contradiction|].
    destruct (Z.leb_spec (Z.abs ((ts' + offset) * 1000)) 8640000000000000) as [Hin|_];
      [lia|reflexivity].
Qed.

Lemma formatSunEvent_utc_clock_witness :
  Clock.formatSunEvent (Some 1700000000) 7200 =
    [Clock.digit (0 / 10); Clock.digit (0 mod 10); 58%N; Clock.digit (13 / 10); Clock.digit (13 mod 10)].
Proof.
  apply (formatSunEvent_utc_clock 1700000000 7200 19676 0 13 20); lia.
Defined.

(** C6, counterexample: 1700000000 + 7200 is 1700007200, whose UTC clock
    reads 00:13; the clock of 1700002200 reads 22:50. *)
Lemma formatSunEvent_is_not_clock_of_1700002200 :
  Clock.formatSunEvent (Some 1700000000) 7200 = utf16 "00:13"
  /\ Clock.toLocaleTimeString (Clock.TimeClip (1700002200 * 1000)) = utf16 "22:50"
  /\ Clock.formatSunEvent (Some 1700000000) 7200
     <> Clock.toLocaleTimeString (Clock.TimeClip (1700002200 * 1000)).
Proof.
  split; [reflexivity|]. split; [reflexivity|].
  intro H. vm_compute in H. discriminate H.
Qed.

(** ** Forecast projector *)

Section ProjectorProperties.
Import Num Format Clock Projector.

Lemma round_half_up_percentage m k :
  0 <= k -> 0 <= m <= 100 * 2 ^ k ->
  0 <= round_half_up m (- k) <= 100.
Proof.
  intros Hk Hm. unfold round_half_up.
  assert (Hp : 0 < 2 ^ k) by (apply Z.pow_pos_nonneg; lia).
  destruct (Z.leb_spec 0 (- k)) as [H0|H0].
  - replace k with 0 in * by lia. cbn [Z.opp Z.pow] in *. lia.
  - rewrite Z.opp_involutive.
    replace (2 ^ (k + 1)) with (2 * 2 ^ k) by (rewrite Z.pow_add_r by lia; lia).
    split.
    + apply Z.div_pos; lia.
    + assert ((2 * m + 2 ^ k) / (2 * 2 ^ k) < 101); [|lia].
      apply Z.div_lt_upper_bound; lia.
Qed.

(** [Math.round] of a value between 0 and 100. *)
Lemma Math_round_percentage (m : positive) (e : Z) :
  e <= -46 -> Z.pos m <= 100 * 2 ^ (- e) ->
  exists n, integral_value (Math_round (S754_finite false m e)) = Some n
            /\ 0 <= n <= 100.
Proof.
  intros He Hm. cbn [Math_round signed_mantissa].
  destruct (Z.leb_spec 0 e) as [|_]; [lia|].
  pose proof (round_half_up_percentage (Z.pos m) (- e) ltac:(lia) ltac:(lia)) as Hn.
  rewrite Z.opp_involutive in Hn.
  exists (round_half_up (Z.pos m) e). split; [|exact Hn].
  destruct (round_half_up (Z.pos m) e) as [|q|q] eqn:E; [reflexivity| |lia].
  apply integral_value_of_Z; [lia|]. change (2 ^ 53) with 9007199254740992. lia.
Qed.

Lemma probability_shape p :
  is_probability p = true ->
  (exists s, p = S754_zero s)
  \/ p = of_Z 1
  \/ exists m e, p = S754_finite false m e /\ e <= -53 /\ Z.pos m < 2 ^ (- e).
Proof.
  unfold is_probability. intros H.
  apply andb_true_iff in H. destruct H as [H Hle1].
  apply andb_true_iff in H. destruct H as [Hwf Hge0].
  destruct p as [s|s| |s m e].
  - left. exists s. reflexivity.
  - exfalso. destruct s; [vm_compute in Hge0|vm_compute in Hle1]; discriminate.
  - exfalso. vm_compute in Hge0. discriminate.
  - destruct s; [discriminate|].
    destruct (well_formed_finite false m e Hwf) as (Hm & He & Hnormal).
    assert (Hone : exists c, of_Z 1 = S754_finite false c (-52) /\ Z.pos c = 2 ^ 52).
    { eexists. split; [vm_compute; reflexivity|reflexivity]. }
    destruct Hone as (c & Ec & Hc). rewrite Ec in *.
    unfold SFleb, SFcompare in Hle1.
    destruct (IntDef.Z.compare e (-52)) eqn:C; [| |discriminate].
    + assert (Heq : e = -52) by (apply Z.compare_eq_iff; exact C).
      right. left. subst e.
      rewrite Pos.compare_cont_spec in Hle1.
      revert Hle1.
      destruct (Pos.compare_spec m c) as [E|E|E]; intros Hle1;
        [subst; reflexivity| |cbn in Hle1; discriminate].
      exfalso. specialize (Hnormal ltac:(lia)). lia.
    + assert (Hlt : e < -52) by (apply Z.compare_lt_iff; exact C).
      right. right. exists m, e. repeat split; [lia|].
      assert (2 ^ 53 <= 2 ^ (- e)) by (apply Z.pow_le_mono_r; lia). lia.
Qed.

(** A probability times 100, rounded, is a whole percentage. *)
Lemma percentage_of_probability p :
  is_probability p = true ->
  exists n, integral_value (Math_round (mul p (of_Z 100))) = Some n /\ 0 <= n <= 100.
Proof.
  intros Hp. destruct (probability_shape p Hp) as [[s ->]|[->|(m & e & -> & He & Hm)]].
  - exists 0. split; [destruct s; reflexivity|lia].
  - exists 100. split; [vm_compute; reflexivity|lia].
  - change (of_Z 100) with (S754_finite false 7036874417766400 (-46)).
    cbn [mul SFmul xorb].
    assert (Hpow : 2 ^ (- (e + -46)) = 2 ^ (- e) * 2 ^ 46).
    { rewrite <- Z.pow_add_r by lia. f_equal. lia. }
    assert (HM : Z.pos (m * 7036874417766400) < 100 * 2 ^ (- (e + -46))).
    { rewrite Hpow, Pos2Z.inj_mul. change (2 ^ 46) with 70368744177664. lia. }
    pose proof (round_aux_below_100 (m * 7036874417766400) (e + -46) ltac:(lia) HM) as H.
    revert H.
    destruct (binary_round_aux prec emax false (Z.pos (m * 7036874417766400)) (e + -46) loc_Exact)
      as [[|]|s| |[|] m2 e2]; intros H; try contradiction.
    + exists 0. split; [reflexivity|lia].
    + destruct H as [He2 Hm2]. apply Math_round_percentage; assumption.
Qed.

Lemma map_completion_all {A B} (f : A -> Completion B) (l : list A) :
  (forall a, In a l -> exists b, f a = Normal b) ->
  exists bs, map_completion f l = Normal bs
    /\ List.length bs = List.length l
    /\ forall i a, nth_error l i = Some a ->
         exists b, nth_error bs i = Some b /\ f a = Normal b.
Proof.
  induction l as [|a l IH]; intros Hall.
  - exists []. repeat split. intros [|i] a H; discriminate H.
  - destruct (Hall a (or_introl eq_refl)) as [b Hb].
    destruct IH as (bs & Hbs & Hlen & Hnth); [intros x Hx; apply Hall; right; exact Hx|].
    exists (b :: bs). cbn [map_completion]. rewrite Hb. cbn [bind]. rewrite Hbs. cbn [bind].
    repeat split; [cbn; lia|].
    intros [|i] x Hx; cbn [nth_error] in *.
    + inversion Hx; subst. exists b. split; [reflexivity|exact Hb].
    + apply Hnth; exact Hx.
Qed.

Lemma project_item_in_range tz item :
  Z.abs ((dt item + tz) * 1000) <= 8640000000000000 ->
  exists lbl, project_item tz item =
    Normal {| label := lbl;
              temperature := match main item with
                             | Some m => or_null (temp m)
                             | None => VNull
                             end;
              point_humidity := match main item with
                                | Some m => or_null (humidity m)
                                | None => VNull
                                end;
              precipitation :=
                Math_round (mul (match pop item with
                                 | Some p => p
                                 | None => S754_zero false
                                 end) (of_Z 100)) |}.
Proof.
  intros H. unfold project_item, TimeClip.
  destruct (Z.leb_spec (Z.abs ((dt item + tz) * 1000)) 8640000000000000); [|lia].
  cbn [format_weekday_time bind]. eexists. reflexivity.
Qed.

End ProjectorProperties.

(** C4 (as amended): an absent or empty series gives the empty sequence.
    A series whose first eight timestamps, shifted by the city offset,
    are within the range of a Date gives one point per entry for the
    first eight entries, in source order (exactly eight when there are
    eight or more).  Each point's precipitation is
    [Math.round(pop * 100)], with 0 for an absent [pop]; when [pop] is a
    Number in [0, 1] it is a whole number in [0, 100]. *)
Theorem buildForecastPoints_first_eight
  (f : Projector.ForecastPayload) (entries : list Projector.ForecastItem) :
  Projector.forecast_list f = Some entries ->
  (forall item, In item (firstn 8 entries) ->
     Z.abs ((Projector.dt item + Projector.city_timezone f) * 1000)
     <= 8640000000000000) ->
  exists points,
    Projector.buildForecastPoints (Some f) = Normal points
    /\ List.length points = Nat.min 8 (List.length entries)
    /\ (forall i item, (i < 8)%nat -> nth_error entries i = Some item ->
        exists pt,
          nth_error points i = Some pt
          /\ Projector.project_item (Projector.city_timezone f) item = Normal pt
          /\ Projector.precipitation pt =
               Num.Math_round
                 (Num.mul (match Projector.pop item with
                           | Some p => p
                           | None => S754_zero false
                           end) (Num.of_Z 100))
          /\ (forall p, Projector.pop item = Some p ->
                Projector.is_probability p = true ->
                exists n, Num.integral_value (Projector.precipitation pt) = Some n
                          /\ 0 <= n <= 100)
          /\ (Projector.pop item = None ->
                Num.integral_value (Projector.precipitation pt) = Some 0))
    /\ Projector.buildForecastPoints None = Normal []
    /\ Projector.forecastPoints (Session.initialState unit _) = Normal []
    /\ (forall c, Projector.buildForecastPoints
                    (Some {| Projector.forecast_list := None;
                             Projector.forecast_city := c |}) = Normal [])
    /\ (forall c, Projector.buildForecastPoints
                    (Some {| Projector.forecast_list := Some [];
                             Projector.forecast_city := c |}) = Normal []).
Proof.
  intros Hlist Hrange.
  destruct (map_completion_all (Projector.project_item (Projector.city_timezone f))
              (firstn 8 entries)) as (points & Hpoints & Hlen & Hnth).
  { intros item Hin.
    destruct (project_item_in_range (Projector.city_timezone f) item (Hrange item Hin))
      as [lbl Hitem].
    eexists. exact Hitem. }
  exists points.
  split; [|split; [|split; [|split; [reflexivity|split; [reflexivity|split; reflexivity]]]]].
  - unfold Projector.buildForecastPoints. rewrite Hlist.
    destruct entries as [|first rest]; [|exact Hpoints].
    cbn in Hlen. destruct points; [reflexivity|discriminate Hlen].
  - rewrite Hlen. apply length_firstn.
  - intros i item Hi Hitem.
    assert (Hfirst : nth_error (firstn 8 entries) i = Some item).
    { rewrite nth_error_firstn. apply Nat.ltb_lt in Hi. rewrite Hi. exact Hitem. }
    destruct (Hnth i item Hfirst) as (pt & Hpt & Hproj).
    exists pt. split; [exact Hpt|]. split; [exact Hproj|].
    assert (Hin : In item (firstn 8 entries)) by (eapply nth_error_In; exact Hfirst).
    destruct (project_item_in_range (Projector.city_timezone f) item (Hrange item Hin))
      as [lbl Hshape].
    rewrite Hshape in Hproj. inversion Hproj as [Hpt']. cbn [Projector.precipitation].
    split; [reflexivity|]. split.
    + intros p Hp Hprob. rewrite Hp. apply percentage_of_probability. exact Hprob.
    + intros Hnone. rewrite Hnone. reflexivity.
Qed.

Lemma buildForecastPoints_first_eight_witness :
  exists points,
    Projector.buildForecastPoints (Some ForecastSamples.ten_entries) = Normal points
    /\ List.length points = 8%nat.
Proof.
  destruct (buildForecastPoints_first_eight ForecastSamples.ten_entries
              (map ForecastSamples.entry [0; 1; 2; 3; 4; 5; 6; 7; 8; 9]) eq_refl)
    as (points & Hpoints & Hlen & _).
  - intros item Hin. cbn [firstn map] in Hin.
    repeat (destruct Hin as [<-|Hin]; [vm_compute; discriminate|]).
    destruct Hin.
  - exists points. split; [exact Hpoints|exact Hlen].
Defined.

(** C4, counterexample: eight entries whose timestamp is past the last
    instant of a Date make the projector throw instead of returning the
    eight points. *)
Lemma buildForecastPoints_throws_on_invalid_date :
  Projector.forecast_list ForecastSamples.past_last_date
    = Some (repeat {| Projector.dt := 8640000000001; Projector.main := None;
                      Projector.pop := None |} 8)
  /\ Projector.buildForecastPoints (Some ForecastSamples.past_last_date)
     = Throw RangeError
  /\ forall points,
       Projector.buildForecastPoints (Some ForecastSamples.past_last_date)
       <> Normal points.
Proof.
  split; [reflexivity|]. split; [vm_compute; reflexivity|].
  intros points H. vm_compute in H. discriminate H.
Qed.

(** ** Session controller *)

Section SessionProperties.
Import Session.

Context {Current Forecast : Type}.

#[local] Abbreviation World := (World Current Forecast).
#[local] Abbreviation Outcome := (Outcome Current Forecast).

(** A guard that fails leaves everything but [error] alone. *)
Lemma fetchWeather_refused apiKey c u (o : Outcome) (w : World) :
  precondition apiKey c = false ->
  fetchWeather apiKey c u o w =
    update (setError (Some (if config_falsy apiKey then MSG_MISSING_KEY
                            else MSG_INVALID_CITY))) w.
Proof.
  unfold precondition, fetchWeather, fetchWeather_begin, config_falsy.
  destruct apiKey as [key|]; simpl; [|reflexivity].
  destruct (string_falsy key); simpl; [reflexivity|].
  destruct (string_falsy (trim c)); simpl; [reflexivity|discriminate].
Qed.

(** A cycle that passes the guards issues its two requests and later
    settles. *)
Lemma fetchWeather_accepted apiKey c u (o : Outcome) (w : World) :
  precondition apiKey c = true ->
  exists key, apiKey = Some key /\
  fetchWeather apiKey c u o w =
    fetchWeather_settle o
      (fetch {| endpoint := forecast_endpoint; params := query_params (trim c) u key |}
        (fetch {| endpoint := weather_endpoint; params := query_params (trim c) u key |}
          (update (setError None) (update (setLoading true) w)))).
Proof.
  unfold precondition, fetchWeather, fetchWeather_begin, config_falsy.
  destruct apiKey as [key|]; simpl; [|discriminate].
  destruct (string_falsy key); simpl; [discriminate|].
  destruct (string_falsy (trim c)); simpl; [discriminate|].
  intros _. exists key. split; reflexivity.
Qed.

Lemma await_payloads_succeeds (o : Outcome) :
  cycle_succeeds o = true ->
  exists cur fc, await_payloads o = Fulfilled (cur, fc).
Proof.
  unfold cycle_succeeds, await_payloads.
  destruct (currentFetch o) as [cr|]; [|discriminate].
  destruct (forecastFetch o) as [fr|]; [|discriminate]. simpl.
  destruct (ok cr); [|discriminate]. destruct (ok fr); [|discriminate]. simpl.
  destruct (json cr) as [cur|]; [|discriminate].
  destruct (json fr) as [fc|]; [|discriminate].
  intros _. exists cur, fc. reflexivity.
Qed.

Lemma await_payloads_fails (o : Outcome) :
  cycle_succeeds o = false ->
  exists message, await_payloads o = Rejected message.
Proof.
  unfold cycle_succeeds, await_payloads.
  destruct (currentFetch o) as [cr|m1], (forecastFetch o) as [fr|m2]; simpl;
    try (intros _; eexists; reflexivity).
  destruct (ok cr); simpl; [|intros _; eexists; reflexivity].
  destruct (ok fr); simpl; [|intros _; eexists; reflexivity].
  destruct (json cr), (json fr); simpl; try discriminate;
    intros _; eexists; reflexivity.
Qed.

Lemma guard_messages_distinct : MSG_MISSING_KEY <> MSG_INVALID_CITY.
Proof. intro H; vm_compute in H; discriminate H. Qed.

Lemma failure_messages_distinct : MSG_CURRENT_FAILED <> MSG_FORECAST_FAILED.
Proof. intro H; vm_compute in H; discriminate H. Qed.

End SessionProperties.

Section SessionClaims.
Import Session.

Context {Current Forecast : Type}.

#[local] Abbreviation World := (World Current Forecast).
#[local] Abbreviation Outcome := (Outcome Current Forecast).

(** C1 (as amended): a cycle that passes the guards of [fetchWeather] and
    settles with nothing in between never leaves [error] and the weather
    data both non-null: if it ends with an error, [currentConditions] and
    [forecastSeries] are null. *)
Theorem settled_cycle_error_excludes_data apiKey c u (o : Outcome) (w : World) :
  precondition apiKey c = true ->
  let st := session (fetchWeather apiKey c u o w) in
  error st <> None -> currentConditions st = None /\ forecastSeries st = None.
Proof.
  intros Hpre. destruct (fetchWeather_accepted apiKey c u o w Hpre) as (key & _ & ->).
  unfold fetchWeather_settle, currentConditions, forecastSeries.
  destruct (await_payloads o) as [[cur fc]|message]; simpl.
  - intros H. exfalso. apply H. reflexivity.
  - intros _. split; reflexivity.
Qed.

(** C2: a missing credential or a city that trims to the empty string sets
    [error] to its own message and issues no request; otherwise the
    current-conditions and the forecast request are issued, in this
    order, with the same parameters. *)
Theorem fetchWeather_guards_requests apiKey c u (o : Outcome) (w : World) :
  let w' := fetchWeather apiKey c u o w in
  match apiKey with
  | None =>
    error (session w') = Some MSG_MISSING_KEY /\ requests w' = requests w
  | Some key =>
    if string_falsy key then
      error (session w') = Some MSG_MISSING_KEY /\ requests w' = requests w
    else if string_falsy (trim c) then
      error (session w') = Some MSG_INVALID_CITY /\ requests w' = requests w
    else
      requests w' = requests w ++
        [ {| endpoint := weather_endpoint; params := query_params (trim c) u key |};
          {| endpoint := forecast_endpoint; params := query_params (trim c) u key |} ]
  end
  /\ MSG_MISSING_KEY <> MSG_INVALID_CITY.
Proof.
  split; [|exact guard_messages_distinct].
  unfold fetchWeather, fetchWeather_begin.
  destruct apiKey as [key|]; simpl; [|split; reflexivity].
  destruct (string_falsy key); simpl; [split; reflexivity|].
  destruct (string_falsy (trim c)); simpl; [split; reflexivity|].
  unfold fetchWeather_settle.
  destruct (await_payloads o) as [[cur fc]|message]; simpl;
    symmetry; apply (app_assoc (requests w) [_] [_]).
Qed.

(** C3: [lastUpdated] becomes the settlement time exactly when the guards
    pass and both requests are answered with a success status and a body
    that parses; in every other case it keeps its prior value. *)
Theorem lastUpdated_only_on_full_success apiKey c u (o : Outcome) (w : World) :
  lastUpdated (session (fetchWeather apiKey c u o w)) =
    if precondition apiKey c && cycle_succeeds o
    then Some (now o)
    else lastUpdated (session w).
Proof.
  destruct (precondition apiKey c) eqn:Hpre; simpl.
  - destruct (fetchWeather_accepted apiKey c u o w Hpre) as (key & _ & ->).
    unfold fetchWeather_settle.
    destruct (cycle_succeeds o) eqn:Hs.
    + destruct (await_payloads_succeeds o Hs) as (cur & fc & ->). reflexivity.
    + destruct (await_payloads_fails o Hs) as (message & ->). reflexivity.
  - rewrite (fetchWeather_refused apiKey c u o w Hpre). reflexivity.
Qed.

(** C7 (as amended): a cycle that passes the guards ends with [loading]
    false whatever its outcome; a call refused by a guard leaves
    [loading] as it was. *)
Theorem loading_after_cycle apiKey c u (o : Outcome) (w : World) :
  loading (session (fetchWeather apiKey c u o w)) =
    if precondition apiKey c then false else loading (session w).
Proof.
  destruct (precondition apiKey c) eqn:Hpre.
  - destruct (fetchWeather_accepted apiKey c u o w Hpre) as (key & _ & ->).
    reflexivity.
  - rewrite (fetchWeather_refused apiKey c u o w Hpre). reflexivity.
Qed.

(** C8 (as amended): in a cycle that passes the guards and in which both
    requests are answered, a status outside 200-299 gives the message of
    the call that failed: the current-conditions message if that response
    is not ok, the forecast message if only the forecast response is not
    ok.  The two messages differ and neither is empty.  A fetch that is
    rejected gives the error its own reason instead, whatever the status
    of the other response. *)
Theorem non_success_status_names_the_call apiKey c u (o : Outcome) (w : World) :
  precondition apiKey c = true ->
  (forall (currentRes : Response Current) (forecastRes : Response Forecast),
     currentFetch o = Fulfilled currentRes ->
     forecastFetch o = Fulfilled forecastRes ->
     ~ (200 <= status currentRes <= 299 /\ 200 <= status forecastRes <= 299) ->
     error (session (fetchWeather apiKey c u o w)) =
       Some (if (200 <=? status currentRes) && (status currentRes <=? 299)
             then MSG_FORECAST_FAILED else MSG_CURRENT_FAILED))
  /\ (forall (currentRes : Response Current) reason,
        currentFetch o = Fulfilled currentRes ->
        forecastFetch o = Rejected reason ->
        error (session (fetchWeather apiKey c u o w)) = Some reason)
  /\ (forall (forecastRes : Response Forecast) reason,
        currentFetch o = Rejected reason ->
        forecastFetch o = Fulfilled forecastRes ->
        error (session (fetchWeather apiKey c u o w)) = Some reason)
  /\ MSG_CURRENT_FAILED <> MSG_FORECAST_FAILED
  /\ MSG_CURRENT_FAILED <> [] /\ MSG_FORECAST_FAILED <> [].
Proof.
  intros Hpre.
  destruct (fetchWeather_accepted apiKey c u o w Hpre) as (key & _ & ->).
  unfold fetchWeather_settle, await_payloads.
  split; [|split; [|split; [|split; [exact failure_messages_distinct|split]]]].
  - intros currentRes forecastRes Hc Hf Hbad. rewrite Hc, Hf. simpl. unfold ok.
    destruct ((200 <=? status currentRes) && (status currentRes <=? 299)) eqn:E1; simpl;
      [|reflexivity].
    destruct ((200 <=? status forecastRes) && (status forecastRes <=? 299)) eqn:E2; simpl;
      [|reflexivity].
    exfalso. apply Hbad.
    apply andb_true_iff in E1, E2. lia.
  - intros currentRes reason Hc Hf. rewrite Hc, Hf. reflexivity.
  - intros forecastRes reason Hc Hf. rewrite Hc, Hf. reflexivity.
  - intro H; vm_compute in H; discriminate H.
  - intro H; vm_compute in H; discriminate H.
Qed.

(** C10: a call refused by a guard changes [error] and nothing else:
    weather data, [loading], [lastUpdated], city and units keep their prior
    values, and no request is issued. *)
Theorem refused_call_only_sets_error apiKey c u (o : Outcome) (w : World) :
  precondition apiKey c = false ->
  let st := session w in
  let st' := session (fetchWeather apiKey c u o w) in
  st' = setError (error st') st
  /\ (error st' = Some MSG_MISSING_KEY \/ error st' = Some MSG_INVALID_CITY)
  /\ currentConditions st' = currentConditions st
  /\ forecastSeries st' = forecastSeries st
  /\ loading st' = loading st
  /\ lastUpdated st' = lastUpdated st
  /\ requests (fetchWeather apiKey c u o w) = requests w.
Proof.
  intros Hpre. rewrite (fetchWeather_refused apiKey c u o w Hpre). simpl.
  repeat split; try reflexivity.
  destruct (config_falsy apiKey); [left|right]; reflexivity.
Qed.

(** C9 (as amended): with cycles issued in order A then B and A settling
    after B, the weather data finally stored is what A's settlement
    writes (A's payloads on success, null on failure), whatever B
    delivered: a settlement is applied whenever it arrives.  The other
    fields follow the same rule: the error is A's when A failed and
    otherwise what B left, [lastUpdated] is A's settlement time when A
    succeeded and otherwise what B left, and [loading] is false. *)
Theorem last_settlement_wins apiKey cA uA (oA : Outcome) cB uB (oB : Outcome) (w : World) :
  precondition apiKey cA = true ->
  precondition apiKey cB = true ->
  let final := session (world (overtaken apiKey cA uA oA cB uB oB w)) in
  weatherData final =
    match await_payloads oA with
    | Fulfilled (cur, fc) => Some {| current := cur; forecast := fc |}
    | Rejected _ => None
    end
  /\ weatherData final = weatherData (session (fetchWeather apiKey cA uA oA w))
  /\ error final =
       match await_payloads oA, await_payloads oB with
       | Rejected message, _ => Some message
       | Fulfilled _, Rejected message => Some message
       | Fulfilled _, Fulfilled _ => None
       end
  /\ lastUpdated final =
       match await_payloads oA, await_payloads oB with
       | Fulfilled _, _ => Some (now oA)
       | Rejected _, Fulfilled _ => Some (now oB)
       | Rejected _, Rejected _ => lastUpdated (session w)
       end
  /\ loading final = false
  /\ inflight (overtaken apiKey cA uA oA cB uB oB w) = [].
Proof.
  intros HA HB.
  destruct (fetchWeather_accepted apiKey cA uA oA w HA) as (key & Hkey & EA).
  rewrite EA. clear EA.
  unfold overtaken, run, boot, precondition, config_falsy in *. subst apiKey. simpl.
  unfold fetchWeather_begin.
  destruct (string_falsy key); [discriminate|].
  destruct (string_falsy (trim cA)); [discriminate|].
  destruct (string_falsy (trim cB)); [discriminate|].
  simpl. unfold fetchWeather_settle.
  destruct (await_payloads oA) as [[cur fc]|mA], (await_payloads oB) as [[cur' fc']|mB];
    simpl; repeat split; reflexivity.
Qed.

End SessionClaims.

Import Session.

Lemma settled_cycle_error_excludes_data_witness :
  precondition (Some Samples.key) DEFAULT_CITY = true
  /\ error (session (fetchWeather (Some Samples.key) DEFAULT_CITY metric
                       (Samples.current_404 5000) Samples.showing)) <> None
  /\ currentConditions (session (fetchWeather (Some Samples.key) DEFAULT_CITY metric
                       (Samples.current_404 5000) Samples.showing)) = None
  /\ forecastSeries (session (fetchWeather (Some Samples.key) DEFAULT_CITY metric
                       (Samples.current_404 5000) Samples.showing)) = None.
Proof.
  split; [reflexivity|]. split; [discriminate|].
  apply (settled_cycle_error_excludes_data (Some Samples.key) DEFAULT_CITY metric
           (Samples.current_404 5000) Samples.showing); [reflexivity|discriminate].
Defined.

(** C1, counterexample: with weather on display, a call with a blank
    city ends with an error and the old data still stored.  The same
    happens when two cycles overlap: A fails first, B then succeeds, and
    the state ends with A's error next to B's data. *)
Lemma refused_call_keeps_stale_data :
  let st := session (fetchWeather (Some Samples.key) Samples.blank metric
                       (Samples.both_ok 1 2 5000) Samples.showing) in
  let st' := session (world (run (Some Samples.key)
                       [Trigger DEFAULT_CITY metric (Samples.current_404 5000);
                        Trigger DEFAULT_CITY metric (Samples.both_ok 3 4 6000);
                        Settle 0%nat; Settle 1%nat]
                       (boot Samples.fresh))) in
  (error st <> None /\ currentConditions st <> None /\ forecastSeries st <> None)
  /\ (error st' <> None /\ currentConditions st' <> None /\ forecastSeries st' <> None).
Proof. repeat split; discriminate. Qed.

(** C7, counterexample: a call with a blank city, made while an earlier
    cycle is still in flight, returns with [loading] still true. *)
Lemma refused_call_leaves_loading_set :
  let w1 := fst (fetchWeather_begin (Some Samples.key) DEFAULT_CITY metric Samples.fresh) in
  precondition (Some Samples.key) Samples.blank = false
  /\ loading (session (fetchWeather (Some Samples.key) Samples.blank metric
                         (Samples.both_ok 1 2 5000) w1)) = true.
Proof. split; reflexivity. Qed.

Lemma non_success_status_names_the_call_witness :
  error (session (fetchWeather (Some Samples.key) DEFAULT_CITY metric
                    (Samples.forecast_500 5000) Samples.showing))
  = Some (if (200 <=? status (Samples.reply 200 3))
             && (status (Samples.reply 200 3) <=? 299)
          then MSG_FORECAST_FAILED else MSG_CURRENT_FAILED).
Proof.
  destruct (non_success_status_names_the_call (Some Samples.key) DEFAULT_CITY metric
              (Samples.forecast_500 5000) Samples.showing eq_refl) as [H _].
  apply (H (Samples.reply 200 3) (Samples.reply 500 0) eq_refl eq_refl).
  simpl. lia.
Defined.

(** C8, counterexample: the weather call is answered with 404 and the
    forecast fetch is rejected; a request returned a non-success status,
    yet the error is the reason of the rejection, which is neither of the
    two messages and names no call. *)
Lemma rejected_fetch_hides_the_failed_call :
  let o := {| currentFetch := Samples.answered 404 0;
              forecastFetch := Rejected (utf16 "Failed to fetch");
              fetchOrder := false; jsonOrder := false; now := 5000 |} in
  let st := session (fetchWeather (Some Samples.key) DEFAULT_CITY metric o
                       Samples.showing) in
  precondition (Some Samples.key) DEFAULT_CITY = true
  /\ error st = Some (utf16 "Failed to fetch")
  /\ error st <> Some MSG_CURRENT_FAILED
  /\ error st <> Some MSG_FORECAST_FAILED.
Proof.
  cbv zeta. split; [reflexivity|]. split; [vm_compute; reflexivity|].
  split; intro H; vm_compute in H; discriminate H.
Qed.

Lemma refused_call_only_sets_error_witness :
  loading (session (fetchWeather (Some Samples.key) Samples.blank imperial
                      (Samples.both_ok 1 2 5000) Samples.showing)) = false
  /\ lastUpdated (session (fetchWeather (Some Samples.key) Samples.blank imperial
                      (Samples.both_ok 1 2 5000) Samples.showing)) = Some 1000.
Proof.
  pose proof (refused_call_only_sets_error (Some Samples.key) Samples.blank imperial
                (Samples.both_ok 1 2 5000) Samples.showing eq_refl) as H.
  cbv zeta in H. destruct H as (_ & _ & _ & _ & Hl & Hu & _).
  split; [exact Hl|exact Hu].
Defined.

(** C9, counterexample: A (payloads 1, 2) is issued before B (payloads 3,
    4) and settles after it; the state ends with A's data, not B's. *)
Lemma stale_cycle_overwrites_newer :
  let final := world (overtaken (Some Samples.key)
                        DEFAULT_CITY metric (Samples.both_ok 1 2 5000)
                        DEFAULT_CITY imperial (Samples.both_ok 3 4 6000)
                        Samples.fresh) in
  let resultB := session (fetchWeather (Some Samples.key) DEFAULT_CITY imperial
                            (Samples.both_ok 3 4 6000) Samples.fresh) in
  weatherData (session final) = Some {| current := 1; forecast := 2 |}
  /\ weatherData resultB = Some {| current := 3; forecast := 4 |}
  /\ session final <> resultB.
Proof.
  repeat split. intro H. apply (f_equal weatherData) in H. discriminate H.
Qed.

Lemma last_settlement_wins_witness :
  weatherData (session (world (overtaken (Some Samples.key)
                        DEFAULT_CITY metric (Samples.current_404 5000)
                        DEFAULT_CITY imperial (Samples.both_ok 3 4 6000)
                        Samples.showing))) = None.
Proof.
  apply (last_settlement_wins (Some Samples.key)
           DEFAULT_CITY metric (Samples.current_404 5000)
           DEFAULT_CITY imperial (Samples.both_ok 3 4 6000)
           Samples.showing eq_refl eq_refl).
Defined.

(** ** The component: handlers, effect and timer *)

Section TrimFacts.

Lemma trim_start_idempotent s : trim_start (trim_start s) = trim_start s.
Proof.
  induction s as [|c r IH]; simpl; [reflexivity|].
  destruct (is_white_space c) eqn:E; [exact IH|]. simpl. rewrite E. reflexivity.
Qed.

Lemma trim_start_head s c r :
  trim_start s = c :: r -> is_white_space c = false.
Proof.
  induction s as [|d t IH]; simpl; [discriminate|].
  destruct (is_white_space d) eqn:E; [exact IH|].
  intros H. injection H as -> _. exact E.
Qed.

Lemma trim_start_keeps_last s c :
  is_white_space c = false ->
  exists v, trim_start (s ++ [c]) = v ++ [c].
Proof.
  intros Hc. induction s as [|d t IH]; simpl.
  - rewrite Hc. exists []. reflexivity.
  - destruct (is_white_space d); [exact IH|]. exists (d :: t). reflexivity.
Qed.

Lemma trim_end_idempotent s : trim_end (trim_end s) = trim_end s.
Proof.
  unfold trim_end. rewrite rev_involutive, trim_start_idempotent. reflexivity.
Qed.

Lemma trim_start_of_trim s : trim_start (trim s) = trim s.
Proof.
  unfold trim, trim_end.
  destruct (trim_start s) as [|c r] eqn:E; [reflexivity|].
  pose proof (trim_start_head _ _ _ E) as Hc.
  simpl rev.
  destruct (trim_start_keeps_last (rev r) c Hc) as [v Hv]. rewrite Hv.
  rewrite rev_app_distr. simpl. rewrite Hc. reflexivity.
Qed.

Lemma trim_idempotent s : trim (trim s) = trim s.
Proof.
  unfold trim at 1. rewrite trim_start_of_trim.
  unfold trim. apply trim_end_idempotent.
Qed.

End TrimFacts.

Section ComponentProperties.
Import Session App.

Context {Current Forecast : Type}.

#[local] Abbreviation Machine := (Session.Machine Current Forecast).
#[local] Abbreviation Outcome := (Session.Outcome Current Forecast).
#[local] Abbreviation Action := (App.Action Current Forecast).

Lemma run_app_invariant apiKey (P : Machine -> Prop) :
  (forall m a, P m -> P (act apiKey m a)) ->
  forall actions m, P m -> P (run_app apiKey actions m).
Proof.
  intros Hstep actions. unfold run_app.
  induction actions as [|a rest IH]; simpl; intros m Hm; [exact Hm|].
  apply IH, Hstep, Hm.
Qed.

Lemma trigger_accepted key c u (o : Outcome) (m : Machine) :
  string_falsy key = false ->
  string_falsy (trim c) = false ->
  step (Some key) m (Trigger c u o) =
    {| world := {| session := setError None (setLoading true (session (world m)));
                   requests := requests (world m) ++ cycle_requests key (trim c, u) |};
       inflight := inflight m ++ [(issued m, o)];
       issued := S (issued m) |}.
Proof.
  intros Hk Hc. unfold step, fetchWeather_begin. rewrite Hk, Hc.
  unfold fetch, update, cycle_requests. simpl.
  rewrite <- app_assoc. reflexivity.
Qed.

Lemma trigger_without_key apiKey c u (o : Outcome) (m : Machine) :
  config_falsy apiKey = true ->
  step apiKey m (Trigger c u o) =
    {| world := update (setError (Some MSG_MISSING_KEY)) (world m);
       inflight := inflight m;
       issued := S (issued m) |}.
Proof.
  intros Hk. unfold step, fetchWeather_begin.
  destruct apiKey as [key|]; simpl in Hk; [rewrite Hk|]; reflexivity.
Qed.

Lemma city_committed_nonblank (m : Machine) :
  city_committed m -> string_falsy (trim (city (session (world m)))) = false.
Proof. intros [H1 H2]. rewrite H2. exact H1. Qed.

Lemma step_keeps_city apiKey (m : Machine) ev :
  city (session (world (step apiKey m ev))) = city (session (world m)) /\
  units (session (world (step apiKey m ev))) = units (session (world m)) /\
  searchTerm (session (world (step apiKey m ev))) = searchTerm (session (world m)).
Proof.
  destruct ev as [c u o|n]; simpl.
  - unfold fetchWeather_begin.
    destruct apiKey as [key|]; [|simpl; auto].
    destruct (string_falsy key); [simpl; auto|].
    destruct (string_falsy (trim c)); simpl; auto.
  - destruct (take_cycle _ _ n (inflight m)) as [[o rest]|]; [|auto].
    unfold fetchWeather_settle. destruct (await_payloads o) as [[cur fc]|msg]; simpl; auto.
Qed.

Lemma fetchWeather_default_city_committed apiKey (o : Outcome) (m : Machine) :
  city_committed m -> city_committed (fetchWeather_default apiKey o m).
Proof.
  intros H. unfold city_committed, fetchWeather_default, call_fetchWeather.
  destruct (step_keeps_city apiKey m
    (Trigger (city (session (world m))) (units (session (world m))) o)) as [-> _].
  exact H.
Qed.

Lemma after_render_city_committed apiKey before (o : Outcome) (m : Machine) :
  city_committed m -> city_committed (after_render apiKey before o m).
Proof.
  intros H. unfold after_render.
  destruct (_ && _); [exact H|apply fetchWeather_default_city_committed, H].
Qed.

Lemma handleSubmit_city_committed apiKey (o : Outcome) (m : Machine) :
  city_committed m -> city_committed (handleSubmit apiKey o m).
Proof.
  intros H. unfold handleSubmit.
  destruct (string_falsy (trim (searchTerm (session (world m))))) eqn:E.
  - exact H.
  - unfold city_committed, call_fetchWeather.
    match goal with |- context [step apiKey ?m' ?ev] =>
      destruct (step_keeps_city apiKey m' ev) as [-> _] end.
    simpl. split; [exact E|apply trim_idempotent].
Qed.

Lemma handleUnitChange_city_committed apiKey nu (o : Outcome) (m : Machine) :
  city_committed m -> city_committed (handleUnitChange apiKey nu o m).
Proof.
  intros H. unfold handleUnitChange, city_committed, call_fetchWeather.
  match goal with |- context [step apiKey ?m' ?ev] =>
    destruct (step_keeps_city apiKey m' ev) as [-> _] end.
  exact H.
Qed.

Lemma act_keeps_city_committed apiKey (m : Machine) a :
  city_committed m -> city_committed (act apiKey m a).
Proof.
  intros H. destruct a as [text|o oE|nu o oE|o|o|n]; cbn [act].
  - exact H.
  - apply after_render_city_committed, handleSubmit_city_committed, H.
  - apply after_render_city_committed, handleUnitChange_city_committed, H.
  - apply fetchWeather_default_city_committed, H.
  - apply fetchWeather_default_city_committed, H.
  - unfold city_committed.
    destruct (step_keeps_city apiKey m (Settle n)) as [-> _]. exact H.
Qed.

Lemma mounted_city_committed apiKey (o : Outcome) :
  city_committed (mounted apiKey o).
Proof.
  unfold city_committed, mounted, fetchWeather_default, call_fetchWeather.
  match goal with |- context [step apiKey ?m' ?ev] =>
    destruct (step_keeps_city apiKey m' ev) as [-> _] end.
  split; vm_compute; reflexivity.
Qed.

(** X1.  Whatever the user types, submits or clicks and whatever the
    network answers, the committed city of the mounted component is a
    non-empty string equal to its own trimmed form. *)
Theorem committed_city_never_blank apiKey (o : Outcome) (actions : list Action) :
  let st := session (world (run_app apiKey actions (mounted apiKey o))) in
  string_falsy (city st) = false /\ trim (city st) = city st.
Proof.
  apply (run_app_invariant apiKey city_committed).
  - intros m a. apply act_keeps_city_committed.
  - apply mounted_city_committed.
Qed.

Lemma settle_keeps_requests apiKey (m : Machine) n :
  requests (world (step apiKey m (Settle n))) = requests (world m) /\
  issued (step apiKey m (Settle n)) = issued m.
Proof.
  simpl. destruct (take_cycle _ _ n (inflight m)) as [[o rest]|]; [|auto].
  unfold fetchWeather_settle. destruct (await_payloads o) as [[cur fc]|msg]; simpl; auto.
Qed.

Lemma trigger_keeps_requests_paired key c u (o : Outcome) (m : Machine) :
  string_falsy key = false ->
  string_falsy (trim c) = false ->
  requests_paired key m ->
  requests_paired key (call_fetchWeather (Some key) c u o m).
Proof.
  intros Hk Hc (calls & Hr & Hall & Hlen).
  unfold call_fetchWeather. rewrite (trigger_accepted key c u o m Hk Hc).
  exists (calls ++ [(trim c, u)]). simpl. split; [|split].
  - rewrite flat_map_app, Hr. reflexivity.
  - apply Forall_app. split; [exact Hall|].
    constructor; [|constructor]. simpl. split; [exact Hc|apply trim_idempotent].
  - rewrite length_app, Hlen. simpl. lia.
Qed.

Lemma act_keeps_requests_paired key (m : Machine) a :
  string_falsy key = false ->
  city_committed m /\ requests_paired key m ->
  city_committed (act (Some key) m a) /\ requests_paired key (act (Some key) m a).
Proof.
  intros Hk [Hc Hp]. split; [apply act_keeps_city_committed, Hc|].
  assert (Hfd : forall o (m' : Machine), city_committed m' -> requests_paired key m' ->
            requests_paired key (fetchWeather_default (Some key) o m')).
  { intros o m' Hc' Hp'. unfold fetchWeather_default.
    apply trigger_keeps_requests_paired; [exact Hk| |exact Hp'].
    apply city_committed_nonblank, Hc'. }
  assert (Har : forall before o (m' : Machine), city_committed m' -> requests_paired key m' ->
            requests_paired key (after_render (Some key) before o m')).
  { intros before o m' Hc' Hp'. unfold after_render.
    destruct (_ && _); [exact Hp'|apply Hfd; assumption]. }
  destruct a as [text|o oE|nu o oE|o|o|n]; cbn [act].
  - exact Hp.
  - apply Har; [apply handleSubmit_city_committed, Hc|].
    unfold handleSubmit.
    destruct (string_falsy (trim (searchTerm (session (world m))))) eqn:E.
    + exact Hp.
    + apply trigger_keeps_requests_paired; [exact Hk| |exact Hp].
      rewrite trim_idempotent. exact E.
  - apply Har; [apply handleUnitChange_city_committed, Hc|].
    unfold handleUnitChange.
    apply trigger_keeps_requests_paired; [exact Hk| |exact Hp].
    apply city_committed_nonblank, Hc.
  - apply Hfd; assumption.
  - apply Hfd; assumption.
  - destruct Hp as (calls & Hr & Hall & Hlen). exists calls.
    destruct (settle_keeps_requests (Some key) m n) as [-> ->]. auto.
Qed.

Lemma cycle_requests_pair key (c : jsstring) (u : UnitSystem) :
  cycle_requests key (c, u) =
    [ {| endpoint := weather_endpoint;
         params := [ (utf16 "q", c);
                     (utf16 "units", match u with
                                     | metric => utf16 "metric"
                                     | imperial => utf16 "imperial"
                                     end);
                     (utf16 "appid", key);
                     (utf16 "lang", utf16 "es") ] |};
      {| endpoint := forecast_endpoint;
         params := [ (utf16 "q", c);
                     (utf16 "units", match u with
                                     | metric => utf16 "metric"
                                     | imperial => utf16 "imperial"
                                     end);
                     (utf16 "appid", key);
                     (utf16 "lang", utf16 "es") ] |} ].
Proof. unfold cycle_requests, query_params, units_param. destruct u; reflexivity. Qed.

(** X2.  With a credential configured, the requests the mounted component
    has sent are exactly one weather/forecast pair per call of
    [fetchWeather] it made, in order; both requests of a pair carry the
    same parameters: [q], a non-empty trimmed city, [units], the name of
    the unit system, [appid], the credential, and [lang=es].  No call was
    refused. *)
Theorem every_call_sends_one_pair key (o : Outcome) (actions : list Action) :
  string_falsy key = false ->
  let m := run_app (Some key) actions (mounted (Some key) o) in
  exists calls : list (jsstring * UnitSystem),
    requests (world m) =
      flat_map
        (fun call =>
           [ {| endpoint := weather_endpoint;
                params := [ (utf16 "q", fst call);
                            (utf16 "units", match snd call with
                                            | metric => utf16 "metric"
                                            | imperial => utf16 "imperial"
                                            end);
                            (utf16 "appid", key);
                            (utf16 "lang", utf16 "es") ] |};
             {| endpoint := forecast_endpoint;
                params := [ (utf16 "q", fst call);
                            (utf16 "units", match snd call with
                                            | metric => utf16 "metric"
                                            | imperial => utf16 "imperial"
                                            end);
                            (utf16 "appid", key);
                            (utf16 "lang", utf16 "es") ] |} ])
        calls /\
    Forall (fun call => string_falsy (fst call) = false /\
                        trim (fst call) = fst call) calls /\
    List.length calls = issued m.
Proof.
  intros Hk. cbv zeta.
  assert (Hinv : city_committed (run_app (Some key) actions (mounted (Some key) o))
                 /\ requests_paired key (run_app (Some key) actions (mounted (Some key) o))).
  { apply (run_app_invariant (Some key)
             (fun m => city_committed m /\ requests_paired key m)).
    - intros m a. apply act_keeps_requests_paired, Hk.
    - split; [apply mounted_city_committed|].
      unfold mounted, fetchWeather_default.
      apply trigger_keeps_requests_paired; [exact Hk|vm_compute; reflexivity|].
      exists []. simpl. repeat split. constructor. }
  destruct Hinv as [_ (calls & Hr & Hall & Hlen)].
  exists calls. split; [|split; assumption].
  rewrite Hr. apply flat_map_ext. intros [c u]. apply cycle_requests_pair.
Qed.

Lemma act_keeps_offline apiKey (m : Machine) a :
  config_falsy apiKey = true -> offline m -> offline (act apiKey m a).
Proof.
  intros Hk.
  assert (Hcall : forall c u o (m' : Machine), offline m' ->
            offline (call_fetchWeather apiKey c u o m')).
  { intros c u o m' H. unfold call_fetchWeather.
    rewrite (trigger_without_key apiKey c u o m' Hk). exact H. }
  assert (Har : forall before o (m' : Machine), offline m' ->
            offline (after_render apiKey before o m')).
  { intros before o m' H. unfold after_render.
    destruct (_ && _); [exact H|apply Hcall, H]. }
  intros H. destruct a as [text|o oE|nu o oE|o|o|n]; cbn [act].
  - exact H.
  - apply Har. unfold handleSubmit.
    destruct (string_falsy _); [exact H|apply Hcall, H].
  - apply Har. unfold handleUnitChange. apply Hcall, H.
  - apply Hcall, H.
  - apply Hcall, H.
  - destruct H as (Hr & Hi & Hrest). simpl. rewrite Hi. simpl.
    repeat split; try assumption; apply Hrest.
Qed.

(** X3.  Without a credential the mounted component never sends a
    request, never has a cycle in flight, never shows the loading state
    and never holds weather data or an update time, whatever the user
    does. *)
Theorem no_credential_no_network apiKey (o : Outcome) (actions : list Action) :
  config_falsy apiKey = true ->
  let m := run_app apiKey actions (mounted apiKey o) in
  requests (world m) = [] /\ inflight m = [] /\
  loading (session (world m)) = false /\
  weatherData (session (world m)) = None /\
  lastUpdated (session (world m)) = None.
Proof.
  intros Hk. apply (run_app_invariant apiKey offline).
  - intros m a. apply act_keeps_offline, Hk.
  - unfold mounted, fetchWeather_default, call_fetchWeather.
    rewrite (trigger_without_key apiKey _ _ o _ Hk). repeat split.
Qed.

Lemma trigger_keeps_quiet apiKey c u (o : Outcome) (m : Machine) :
  quiet_when_idle m -> quiet_when_idle (call_fetchWeather apiKey c u o m).
Proof.
  unfold quiet_when_idle, call_fetchWeather, step, fetchWeather_begin.
  intros H.
  destruct apiKey as [key|]; [|exact H].
  destruct (string_falsy key); [exact H|].
  destruct (string_falsy (trim c)); [exact H|].
  simpl. intros E. destruct (inflight m); discriminate E.
Qed.

Lemma act_keeps_quiet apiKey (m : Machine) a :
  quiet_when_idle m -> quiet_when_idle (act apiKey m a).
Proof.
  assert (Har : forall before o (m' : Machine), quiet_when_idle m' ->
            quiet_when_idle (after_render apiKey before o m')).
  { intros before o m' H. unfold after_render.
    destruct (_ && _); [exact H|apply trigger_keeps_quiet, H]. }
  intros H. destruct a as [text|o oE|nu o oE|o|o|n]; cbn [act].
  - exact H.
  - apply Har. unfold handleSubmit.
    destruct (string_falsy _); [exact H|].
    apply trigger_keeps_quiet. exact H.
  - apply Har. unfold handleUnitChange. apply trigger_keeps_quiet. exact H.
  - apply trigger_keeps_quiet, H.
  - apply trigger_keeps_quiet, H.
  - unfold quiet_when_idle. simpl.
    destruct (take_cycle _ _ n (inflight m)) as [[o rest]|]; [|exact H].
    intros _. reflexivity.
Qed.

(** X4.  Whenever no cycle of the mounted component is in flight, the
    loading flag is off: the loading state cannot outlive the requests. *)
Theorem idle_component_is_not_loading apiKey (o : Outcome) (actions : list Action) :
  let m := run_app apiKey actions (mounted apiKey o) in
  inflight m = [] -> loading (session (world m)) = false.
Proof.
  apply (run_app_invariant apiKey quiet_when_idle).
  - intros m a. apply act_keeps_quiet.
  - apply trigger_keeps_quiet. intros _. reflexivity.
Qed.

End ComponentProperties.

Section HandlerProperties.
Import Session App.

Context {Current Forecast : Type}.

#[local] Abbreviation Machine := (Session.Machine Current Forecast).
#[local] Abbreviation Outcome := (Session.Outcome Current Forecast).

Lemma jsstring_eqb_refl s : jsstring_eqb s s = true.
Proof.
  unfold jsstring_eqb. destruct (list_eq_dec N.eq_dec s s) as [_|n]; [reflexivity|].
  exfalso. apply n. reflexivity.
Qed.

Lemma jsstring_eqb_of_eq a b : a = b -> jsstring_eqb a b = true.
Proof. intros ->. apply jsstring_eqb_refl. Qed.

Lemma jsstring_eqb_neq a b : a <> b -> jsstring_eqb a b = false.
Proof.
  intros H. unfold jsstring_eqb. destruct (list_eq_dec N.eq_dec a b) as [e|_];
    [contradiction|reflexivity].
Qed.

Lemma UnitSystem_eqb_refl u : UnitSystem_eqb u u = true.
Proof. destruct u; reflexivity. Qed.

Lemma UnitSystem_eqb_of_eq a b : a = b -> UnitSystem_eqb a b = true.
Proof. intros ->. apply UnitSystem_eqb_refl. Qed.

Lemma UnitSystem_eqb_neq a b : a <> b -> UnitSystem_eqb a b = false.
Proof. destruct a, b; intros H; try reflexivity; exfalso; apply H; reflexivity. Qed.

(** X5.  Submitting a search box that holds only white space changes
    nothing but the error message: no request is sent, no cycle starts,
    the committed city and the displayed data stay, and the effect does
    not run again. *)
Theorem blank_submit_only_reports apiKey (o oEffect : Outcome) (m : Machine) :
  string_falsy (trim (searchTerm (session (world m)))) = true ->
  act apiKey m (Submit o oEffect) = on_state (setError (Some MSG_INVALID_CITY)) m.
Proof.
  intros H. cbn [act]. unfold handleSubmit. rewrite H.
  unfold after_render. simpl.
  rewrite jsstring_eqb_refl, UnitSystem_eqb_refl. reflexivity.
Qed.

(** X6.  With a credential, submitting a non-blank search term commits its
    trimmed form as the city and starts one cycle for it from the handler;
    when the city changed, the effect runs again and starts a second cycle
    with the same parameters, so four requests leave for one submit. *)
Theorem submit_fetches_once_or_twice key (o oEffect : Outcome) (m : Machine) :
  string_falsy key = false ->
  string_falsy (trim (searchTerm (session (world m)))) = false ->
  let st := session (world m) in
  let trimmed := trim (searchTerm st) in
  let parameters := [ (utf16 "q", trimmed);
                      (utf16 "units", match units st with
                                      | metric => utf16 "metric"
                                      | imperial => utf16 "imperial"
                                      end);
                      (utf16 "appid", key);
                      (utf16 "lang", utf16 "es") ] in
  let pair := [ {| endpoint := weather_endpoint; params := parameters |};
                {| endpoint := forecast_endpoint; params := parameters |} ] in
  let m' := act (Some key) m (Submit o oEffect) in
  city (session (world m')) = trimmed /\
  (trimmed = city st ->
     requests (world m') = requests (world m) ++ pair /\
     inflight m' = inflight m ++ [(issued m, o)]) /\
  (trimmed <> city st ->
     requests (world m') = requests (world m) ++ pair ++ pair /\
     inflight m' = inflight m ++ [(issued m, o); (S (issued m), oEffect)]).
Proof.
  intros Hk Ht. cbv zeta.
  rewrite <- (cycle_requests_pair key (trim (searchTerm (session (world m))))
               (units (session (world m)))).
  cbn [act]. unfold handleSubmit. rewrite Ht.
  unfold call_fetchWeather.
  rewrite (trigger_accepted key _ _ o _ Hk)
    by (rewrite trim_idempotent; exact Ht).
  rewrite trim_idempotent.
  unfold after_render. cbn [world session city units setError setLoading
    on_state update setCity requests inflight issued].
  rewrite UnitSystem_eqb_refl, andb_true_r.
  split; [|split].
  - destruct (jsstring_eqb _ _); [reflexivity|].
    unfold fetchWeather_default, call_fetchWeather.
    match goal with |- context [step ?k ?m' ?ev] =>
      destruct (step_keeps_city k m' ev) as [-> _] end.
    reflexivity.
  - intros E. rewrite (jsstring_eqb_of_eq _ _ E). split; reflexivity.
  - intros E. rewrite (jsstring_eqb_neq _ _ E).
    unfold fetchWeather_default, call_fetchWeather.
    cbn [world session city units setError setLoading setCity setUnits].
    rewrite (trigger_accepted key _ _ oEffect _ Hk)
      by (rewrite trim_idempotent; exact Ht).
    rewrite trim_idempotent.
    cbn [world session city units setError setLoading setCity setUnits requests inflight issued].
    rewrite <- !app_assoc. split; reflexivity.
Qed.

(** X7.  With a credential and a committed city, the unit handler commits
    the new units and starts a cycle for the committed city in those
    units; when the units changed, the effect runs again and starts a
    second cycle with the same parameters. *)
Theorem unit_change_fetches_in_new_units key newUnits (o oEffect : Outcome)
  (m : Machine) :
  string_falsy key = false ->
  string_falsy (trim (city (session (world m)))) = false ->
  let st := session (world m) in
  let parameters := [ (utf16 "q", trim (city st));
                      (utf16 "units", match newUnits with
                                      | metric => utf16 "metric"
                                      | imperial => utf16 "imperial"
                                      end);
                      (utf16 "appid", key);
                      (utf16 "lang", utf16 "es") ] in
  let pair := [ {| endpoint := weather_endpoint; params := parameters |};
                {| endpoint := forecast_endpoint; params := parameters |} ] in
  let m' := act (Some key) m (ChangeUnits newUnits o oEffect) in
  units (session (world m')) = newUnits /\
  city (session (world m')) = city st /\
  (newUnits = units st ->
     requests (world m') = requests (world m) ++ pair /\
     inflight m' = inflight m ++ [(issued m, o)]) /\
  (newUnits <> units st ->
     requests (world m') = requests (world m) ++ pair ++ pair /\
     inflight m' = inflight m ++ [(issued m, o); (S (issued m), oEffect)]).
Proof.
  intros Hk Ht. cbv zeta.
  rewrite <- (cycle_requests_pair key (trim (city (session (world m)))) newUnits).
  cbn [act]. unfold handleUnitChange.
  unfold call_fetchWeather.
  rewrite (trigger_accepted key _ _ o _ Hk Ht).
  unfold after_render. cbn [world session city units setError setLoading
    on_state update setUnits requests inflight issued].
  rewrite jsstring_eqb_refl, andb_true_l.
  split; [|split; [|split]].
  - destruct (UnitSystem_eqb _ _); [reflexivity|].
    unfold fetchWeather_default, call_fetchWeather.
    match goal with |- context [step ?k ?m' ?ev] =>
      destruct (step_keeps_city k m' ev) as (_ & -> & _) end.
    reflexivity.
  - destruct (UnitSystem_eqb _ _); [reflexivity|].
    unfold fetchWeather_default, call_fetchWeather.
    match goal with |- context [step ?k ?m' ?ev] =>
      destruct (step_keeps_city k m' ev) as (-> & _) end.
    reflexivity.
  - intros E. rewrite (UnitSystem_eqb_of_eq _ _ E). split; reflexivity.
  - intros E. rewrite (UnitSystem_eqb_neq _ _ E).
    unfold fetchWeather_default, call_fetchWeather.
    cbn [world session city units setError setLoading setCity setUnits].
    rewrite (trigger_accepted key _ _ oEffect _ Hk Ht).
    cbn [world session city units setError setLoading setCity setUnits requests inflight issued].
    rewrite <- !app_assoc. split; reflexivity.
Qed.

Lemma take_cycle_head n (o : Outcome) rest :
  take_cycle _ _ n ((n, o) :: rest) = Some (o, rest).
Proof. simpl. rewrite Nat.eqb_refl. reflexivity. Qed.

Lemma submit_new_city_inflight key (o oEffect : Outcome) (m : Machine) :
  string_falsy key = false ->
  string_falsy (trim (searchTerm (session (world m)))) = false ->
  trim (searchTerm (session (world m))) <> city (session (world m)) ->
  inflight (act (Some key) m (Submit o oEffect))
  = inflight m ++ [(issued m, o); (S (issued m), oEffect)].
Proof.
  intros Hk Ht Hne. cbn [act]. unfold handleSubmit. rewrite Ht.
  unfold call_fetchWeather.
  rewrite (trigger_accepted key _ _ o _ Hk)
    by (rewrite trim_idempotent; exact Ht).
  unfold after_render. cbn [world session city units setError setLoading
    on_state update setCity requests inflight issued].
  rewrite (jsstring_eqb_neq _ _ Hne). cbn [andb].
  unfold fetchWeather_default, call_fetchWeather.
  cbn [world session city units setError setLoading setCity].
  rewrite (trigger_accepted key _ _ oEffect _ Hk)
    by (rewrite trim_idempotent; exact Ht).
  cbn [inflight issued]. rewrite <- app_assoc. reflexivity.
Qed.

(** X8.  One submit of a new city from an idle component can end with an
    error message and weather data shown together: the handler's cycle
    and the effect's cycle overlap, and when the first fails and the
    second succeeds the success does not clear the error. *)
Theorem one_submit_can_leave_error_and_data key (oA oB : Outcome) (m : Machine)
  message cur fc :
  string_falsy key = false ->
  string_falsy (trim (searchTerm (session (world m)))) = false ->
  trim (searchTerm (session (world m))) <> city (session (world m)) ->
  inflight m = [] ->
  await_payloads oA = Rejected message ->
  await_payloads oB = Fulfilled (cur, fc) ->
  let m' := run_app (Some key)
              [Submit oA oB; Settled (issued m); Settled (S (issued m))] m in
  error (session (world m')) = Some message /\
  weatherData (session (world m')) = Some {| current := cur; forecast := fc |} /\
  loading (session (world m')) = false /\
  inflight m' = [].
Proof.
  intros Hk Ht Hne Hidle HA HB. cbv zeta.
  pose proof (submit_new_city_inflight key oA oB m Hk Ht Hne) as Hin.
  rewrite Hidle in Hin. cbn [app] in Hin.
  unfold run_app. cbn [fold_left].
  destruct (act (Some key) m (Submit oA oB)) as [w1 in1 is1].
  cbn [inflight] in Hin. subst in1.
  cbn [act step inflight]. rewrite take_cycle_head.
  cbn [inflight]. rewrite take_cycle_head.
  unfold fetchWeather_settle. rewrite HA, HB. simpl. repeat split.
Qed.

End HandlerProperties.

Section ComponentWitnesses.
Import Session App.

Lemma every_call_sends_one_pair_witness :
  let m := run_app (Some Samples.key) AppSamples.visit
             (mounted (Some Samples.key) (Samples.both_ok 1 2 1000)) in
  exists calls : list (jsstring * UnitSystem),
    requests (world m) =
      flat_map
        (fun call =>
           [ {| endpoint := weather_endpoint;
                params := [ (utf16 "q", fst call);
                            (utf16 "units", match snd call with
                                            | metric => utf16 "metric"
                                            | imperial => utf16 "imperial"
                                            end);
                            (utf16 "appid", Samples.key);
                            (utf16 "lang", utf16 "es") ] |};
             {| endpoint := forecast_endpoint;
                params := [ (utf16 "q", fst call);
                            (utf16 "units", match snd call with
                                            | metric => utf16 "metric"
                                            | imperial => utf16 "imperial"
                                            end);
                            (utf16 "appid", Samples.key);
                            (utf16 "lang", utf16 "es") ] |} ])
        calls /\
    Forall (fun call => string_falsy (fst call) = false /\
                        trim (fst call) = fst call) calls /\
    List.length calls = issued m.
Proof.
  exact (every_call_sends_one_pair Samples.key (Samples.both_ok 1 2 1000)
           AppSamples.visit eq_refl).
Defined.

Lemma no_credential_no_network_witness :
  let m := run_app None AppSamples.visit (mounted None (Samples.both_ok 1 2 1000)) in
  requests (world m) = [] /\ inflight m = [] /\
  loading (session (world m)) = false /\
  weatherData (session (world m)) = None /\
  lastUpdated (session (world m)) = None.
Proof.
  exact (no_credential_no_network None (Samples.both_ok 1 2 1000)
           AppSamples.visit eq_refl).
Defined.

Lemma idle_component_is_not_loading_witness :
  loading (session (world (run_app (Some Samples.key) AppSamples.settled_visit
             (mounted (Some Samples.key) (Samples.both_ok 1 2 1000))))) = false.
Proof.
  apply (idle_component_is_not_loading (Some Samples.key) (Samples.both_ok 1 2 1000)
           AppSamples.settled_visit).
  vm_compute. reflexivity.
Defined.

Lemma blank_submit_only_reports_witness :
  act (Some Samples.key) (AppSamples.idle_with Samples.blank)
      (Submit (Samples.both_ok 1 2 5000) (Samples.both_ok 3 4 6000))
  = on_state (setError (Some MSG_INVALID_CITY)) (AppSamples.idle_with Samples.blank).
Proof.
  exact (blank_submit_only_reports (Some Samples.key)
           (Samples.both_ok 1 2 5000) (Samples.both_ok 3 4 6000)
           (AppSamples.idle_with Samples.blank) eq_refl).
Defined.

Lemma submit_fetches_once_or_twice_witness :
  let m := AppSamples.idle_with (utf16 "  Lima ") in
  let st := session (world m) in
  let trimmed := trim (searchTerm st) in
  let parameters := [ (utf16 "q", trimmed);
                      (utf16 "units", match units st with
                                      | metric => utf16 "metric"
                                      | imperial => utf16 "imperial"
                                      end);
                      (utf16 "appid", Samples.key);
                      (utf16 "lang", utf16 "es") ] in
  let pair := [ {| endpoint := weather_endpoint; params := parameters |};
                {| endpoint := forecast_endpoint; params := parameters |} ] in
  let m' := act (Some Samples.key) m
              (Submit (Samples.both_ok 1 2 5000) (Samples.both_ok 3 4 6000)) in
  city (session (world m')) = trimmed /\
  (trimmed = city st ->
     requests (world m') = requests (world m) ++ pair /\
     inflight m' = inflight m ++ [(issued m, Samples.both_ok 1 2 5000)]) /\
  (trimmed <> city st ->
     requests (world m') = requests (world m) ++ pair ++ pair /\
     inflight m' = inflight m ++ [(issued m, Samples.both_ok 1 2 5000);
                                  (S (issued m), Samples.both_ok 3 4 6000)]).
Proof.
  exact (submit_fetches_once_or_twice Samples.key
           (Samples.both_ok 1 2 5000) (Samples.both_ok 3 4 6000)
           (AppSamples.idle_with (utf16 "  Lima ")) eq_refl eq_refl).
Defined.

Lemma unit_change_fetches_in_new_units_witness :
  let m := boot Samples.showing in
  let st := session (world m) in
  let parameters := [ (utf16 "q", trim (city st));
                      (utf16 "units", match imperial with
                                      | metric => utf16 "metric"
                                      | imperial => utf16 "imperial"
                                      end);
                      (utf16 "appid", Samples.key);
                      (utf16 "lang", utf16 "es") ] in
  let pair := [ {| endpoint := weather_endpoint; params := parameters |};
                {| endpoint := forecast_endpoint; params := parameters |} ] in
  let m' := act (Some Samples.key) m
              (ChangeUnits imperial (Samples.both_ok 1 2 5000) (Samples.both_ok 3 4 6000)) in
  units (session (world m')) = imperial /\
  city (session (world m')) = city st /\
  (imperial = units st ->
     requests (world m') = requests (world m) ++ pair /\
     inflight m' = inflight m ++ [(issued m, Samples.both_ok 1 2 5000)]) /\
  (imperial <> units st ->
     requests (world m') = requests (world m) ++ pair ++ pair /\
     inflight m' = inflight m ++ [(issued m, Samples.both_ok 1 2 5000);
                                  (S (issued m), Samples.both_ok 3 4 6000)]).
Proof.
  exact (unit_change_fetches_in_new_units Samples.key imperial
           (Samples.both_ok 1 2 5000) (Samples.both_ok 3 4 6000)
           (boot Samples.showing) eq_refl eq_refl).
Defined.

Lemma one_submit_can_leave_error_and_data_witness :
  let m := AppSamples.idle_with (utf16 "  Lima ") in
  let m' := run_app (Some Samples.key)
              [Submit (Samples.current_404 5000) (Samples.both_ok 3 4 6000);
               Settled (issued m); Settled (S (issued m))] m in
  error (session (world m')) = Some MSG_CURRENT_FAILED /\
  weatherData (session (world m')) = Some {| current := 3; forecast := 4 |} /\
  loading (session (world m')) = false /\
  inflight m' = [].
Proof.
  apply (one_submit_can_leave_error_and_data Samples.key
           (Samples.current_404 5000) (Samples.both_ok 3 4 6000)
           (AppSamples.idle_with (utf16 "  Lima ")) MSG_CURRENT_FAILED 3 4);
    try reflexivity.
  intro H; vm_compute in H; discriminate H.
Defined.

End ComponentWitnesses.

(** ** Forecast points, chart and cards *)

Section ProjectorFacts.
Import Session Num Format Clock Projector.

Lemma map_completion_Forall2 {A B} (f : A -> Completion B) (l : list A) bs :
  map_completion f l = Normal bs -> Forall2 (fun a b => f a = Normal b) l bs.
Proof.
  revert bs. induction l as [|a l IH]; intros bs H; cbn [map_completion] in H.
  - injection H as <-. constructor.
  - destruct (f a) as [b|e] eqn:Ea; cbn [bind] in H; [|discriminate].
    destruct (map_completion f l) as [bs'|e] eqn:El; cbn [bind] in H; [|discriminate].
    injection H as <-. constructor; [exact Ea|apply IH; reflexivity].
Qed.

Lemma map_completion_throws {A B} (f : A -> Completion B) (l : list A) e :
  map_completion f l = Throw e -> exists a, In a l /\ f a = Throw e.
Proof.
  induction l as [|a l IH]; cbn [map_completion]; intros H; [discriminate|].
  destruct (f a) as [b|e'] eqn:Ea; cbn [bind] in H.
  - destruct (map_completion f l) as [bs'|e'] eqn:El; cbn [bind] in H; [discriminate|].
    injection H as ->. destruct (IH eq_refl) as (x & Hx & Hfx).
    exists x. split; [right; exact Hx|exact Hfx].
  - injection H as ->. exists a. split; [left; reflexivity|exact Ea].
Qed.

Lemma map_completion_normal {A B} (f : A -> Completion B) (l : list A) bs :
  map_completion f l = Normal bs -> forall a, In a l -> exists b, f a = Normal b.
Proof.
  intros H. apply map_completion_Forall2 in H.
  induction H as [|a b l bs' Hab _ IH]; intros x Hx; [destruct Hx|].
  destruct Hx as [<-|Hx]; [exists b; exact Hab|exact (IH x Hx)].
Qed.

Lemma project_item_cases tz item :
  (Z.abs ((dt item + tz) * 1000) <= 8640000000000000 /\
   exists pt, project_item tz item = Normal pt
     /\ Projector.label pt =
          weekday_short (WeekDay ((dt item + tz) * 1000)) ++ utf16 ", "
            ++ clock_HH_MM ((dt item + tz) * 1000)
     /\ temperature pt = match Projector.main item with
                         | Some m => or_null (temp m)
                         | None => VNull
                         end
     /\ point_humidity pt = match Projector.main item with
                            | Some m => or_null (Projector.humidity m)
                            | None => VNull
                            end)
  \/ (8640000000000000 < Z.abs ((dt item + tz) * 1000) /\
      project_item tz item = Throw RangeError).
Proof.
  unfold project_item, TimeClip.
  destruct (Z.leb_spec (Z.abs ((dt item + tz) * 1000)) 8640000000000000) as [H|H].
  - left. split; [exact H|]. cbn [format_weekday_time bind].
    eexists. split; [reflexivity|]. repeat split.
  - right. split; [exact H|reflexivity].
Qed.

End ProjectorFacts.

(** X9.  For a feed whose entries are objects with an integer [dt] (the
    entries of the model), the projector throws a RangeError exactly when
    one of the first eight entries has a time, shifted by the city
    offset, outside the range of a Date. *)
Theorem buildForecastPoints_throws_iff
  (f : Projector.ForecastPayload) (entries : list Projector.ForecastItem) :
  Projector.forecast_list f = Some entries ->
  (Projector.buildForecastPoints (Some f) = Throw RangeError <->
   exists item, In item (firstn 8 entries) /\
     8640000000000000 <
       Z.abs ((Projector.dt item + Projector.city_timezone f) * 1000)).
Proof.
  intros Hlist.
  assert (Hbuild : Projector.buildForecastPoints (Some f) =
            map_completion (Projector.project_item (Projector.city_timezone f))
              (firstn 8 entries)).
  { unfold Projector.buildForecastPoints. rewrite Hlist.
    destruct entries; reflexivity. }
  rewrite Hbuild. clear Hbuild. split.
  - intros H. destruct (map_completion_throws _ _ _ H) as (item & Hin & Hthrow).
    exists item. split; [exact Hin|].
    destruct (project_item_cases (Projector.city_timezone f) item)
      as [(_ & pt & Hpt & _)|[Hout _]]; [congruence|exact Hout].
  - intros (item & Hin & Hout).
    destruct (map_completion (Projector.project_item (Projector.city_timezone f))
                (firstn 8 entries)) as [pts|e] eqn:E.
    + exfalso. destruct (map_completion_normal _ _ _ E item Hin) as [pt Hpt].
      destruct (project_item_cases (Projector.city_timezone f) item)
        as [(Hin' & _)|[_ Hthrow]]; [lia|congruence].
    + destruct (map_completion_throws _ _ _ E) as (a & _ & Ha).
      destruct (project_item_cases (Projector.city_timezone f) a)
        as [(_ & pt & Hpt & _)|[_ Hthrow]]; congruence.
Qed.

Lemma buildForecastPoints_throws_iff_witness :
  Projector.buildForecastPoints (Some ForecastSamples.past_last_date) = Throw RangeError <->
  exists item,
    In item (firstn 8 (repeat {| Projector.dt := 8640000000001; Projector.main := None;
                                 Projector.pop := None |} 8)) /\
    8640000000000000 <
      Z.abs ((Projector.dt item
              + Projector.city_timezone ForecastSamples.past_last_date) * 1000).
Proof.
  exact (buildForecastPoints_throws_iff ForecastSamples.past_last_date
           (repeat {| Projector.dt := 8640000000001; Projector.main := None;
                      Projector.pop := None |} 8) eq_refl).
Defined.

(** X10.  The projector never looks past the eighth entry: two payloads
    with the same city block and the same first eight entries give the
    same result, whatever follows, valid or not. *)
Theorem buildForecastPoints_reads_eight_entries
  (c : option Projector.CityBlock) (entries1 entries2 : list Projector.ForecastItem) :
  firstn 8 entries1 = firstn 8 entries2 ->
  Projector.buildForecastPoints
    (Some {| Projector.forecast_list := Some entries1; Projector.forecast_city := c |})
  = Projector.buildForecastPoints
    (Some {| Projector.forecast_list := Some entries2; Projector.forecast_city := c |}).
Proof.
  intros H. unfold Projector.buildForecastPoints. cbn [Projector.forecast_list].
  destruct entries1 as [|a1 r1], entries2 as [|a2 r2]; try discriminate H;
    [reflexivity|].
  unfold Projector.city_timezone. cbn [Projector.forecast_city]. rewrite H. reflexivity.
Qed.

Lemma buildForecastPoints_reads_eight_entries_witness :
  Projector.buildForecastPoints
    (Some {| Projector.forecast_list :=
               Some (map ForecastSamples.entry [0; 1; 2; 3; 4; 5; 6; 7; 8; 9]);
             Projector.forecast_city := Some {| Projector.timezone := Some 7200 |} |})
  = Projector.buildForecastPoints
    (Some {| Projector.forecast_list :=
               Some (map ForecastSamples.entry [0; 1; 2; 3; 4; 5; 6; 7]
                     ++ [{| Projector.dt := 8640000000001; Projector.main := None;
                            Projector.pop := None |}]);
             Projector.forecast_city := Some {| Projector.timezone := Some 7200 |} |}).
Proof.
  apply (buildForecastPoints_reads_eight_entries
           (Some {| Projector.timezone := Some 7200 |})
           (map ForecastSamples.entry [0; 1; 2; 3; 4; 5; 6; 7; 8; 9])
           (map ForecastSamples.entry [0; 1; 2; 3; 4; 5; 6; 7]
            ++ [{| Projector.dt := 8640000000001; Projector.main := None;
                   Projector.pop := None |}])).
  reflexivity.
Defined.

Section ChartProperties.
Import Session Num Format Clock Projector.

Lemma projected_series tz (entries : list ForecastItem) pts :
  map_completion (project_item tz) entries = Normal pts ->
  map temperature pts =
    map (fun item => match Projector.main item with
                     | Some m => or_null (temp m)
                     | None => VNull
                     end) entries
  /\ map point_humidity pts =
    map (fun item => match Projector.main item with
                     | Some m => or_null (Projector.humidity m)
                     | None => VNull
                     end) entries
  /\ map Projector.label pts =
    map (fun item => weekday_short (WeekDay ((dt item + tz) * 1000)) ++ utf16 ", "
                       ++ clock_HH_MM ((dt item + tz) * 1000)) entries.
Proof.
  intros H. apply map_completion_Forall2 in H.
  induction H as [|a b l bs Hab _ (IH1 & IH2 & IH3)]; [repeat split|].
  destruct (project_item_cases tz a) as [(_ & pt & Hpt & Hl & Ht & Hh)|[_ Hthrow]];
    [|congruence].
  rewrite Hab in Hpt. injection Hpt as <-.
  cbn [map]. rewrite IH1, IH2, IH3, Hl, Ht, Hh. repeat split.
Qed.

Lemma or_null_defined v : or_null v <> VUndefined.
Proof. destruct v; discriminate. Qed.

End ChartProperties.

(** X11.  What the chart plots for a stored forecast whose points could be
    built: nothing (the empty state) exactly when the feed has no entry;
    otherwise one label, one temperature and one humidity per entry for
    the first eight entries, in feed order, each reading being the entry's
    own value or [null], never [undefined]. *)
Theorem chart_plots_first_eight_entries
  (f : Projector.ForecastPayload) (entries : list Projector.ForecastItem)
  (points : list Projector.ForecastPoint) (units : Session.UnitSystem) :
  Projector.forecast_list f = Some entries ->
  Projector.buildForecastPoints (Some f) = Normal points ->
  (entries = [] -> Chart.chartPayload (Some points) units = None)
  /\ (entries <> [] ->
      exists temperatures humidities,
        Chart.chartPayload (Some points) units =
          Some {| Chart.labels := map Projector.label points;
                  Chart.datasets := [temperatures; humidities] |}
        /\ List.length (map Projector.label points) = Nat.min 8 (List.length entries)
        /\ Chart.data temperatures =
             map (fun item => match Projector.main item with
                              | Some m => Projector.or_null (Projector.temp m)
                              | None => Format.VNull
                              end) (firstn 8 entries)
        /\ Chart.data humidities =
             map (fun item => match Projector.main item with
                              | Some m => Projector.or_null (Projector.humidity m)
                              | None => Format.VNull
                              end) (firstn 8 entries)
        /\ ~ In Format.VUndefined (Chart.data temperatures)
        /\ ~ In Format.VUndefined (Chart.data humidities)).
Proof.
  intros Hlist Hbuild.
  unfold Projector.buildForecastPoints in Hbuild. rewrite Hlist in Hbuild.
  destruct entries as [|first rest].
  - injection Hbuild as <-. split; [reflexivity|]. intros H. contradiction H. reflexivity.
  - split; [discriminate|]. intros _.
    destruct (projected_series _ _ _ Hbuild) as (Ht & Hh & Hl).
    assert (Hlen : List.length points = Nat.min 8 (List.length (first :: rest))).
    { rewrite <- (length_map Projector.label), Hl, length_map. apply length_firstn. }
    destruct points as [|p ps]; [discriminate Hlen|].
    eexists. eexists. split; [reflexivity|]. cbn [Chart.data].
    split; [rewrite length_map; exact Hlen|].
    split; [exact Ht|]. split; [exact Hh|].
    rewrite Ht, Hh. split; intros Hin; apply in_map_iff in Hin;
      destruct Hin as (item & Hitem & _); destruct (Projector.main item);
      try discriminate Hitem; exact (or_null_defined _ Hitem).
Qed.

Lemma chart_plots_first_eight_entries_witness :
  exists points temperatures humidities,
    Projector.buildForecastPoints (Some ForecastSamples.ten_entries) = Normal points
    /\ Chart.chartPayload (Some points) Session.metric =
         Some {| Chart.labels := map Projector.label points;
                 Chart.datasets := [temperatures; humidities] |}
    /\ List.length (map Projector.label points) = 8%nat.
Proof.
  destruct (Projector.buildForecastPoints (Some ForecastSamples.ten_entries))
    as [points|e] eqn:E; [|vm_compute in E; discriminate E].
  destruct (chart_plots_first_eight_entries ForecastSamples.ten_entries
              (map ForecastSamples.entry [0; 1; 2; 3; 4; 5; 6; 7; 8; 9])
              points Session.metric eq_refl E) as [_ H].
  destruct H as (t & h & Hc & Hlen & _); [discriminate|].
  exists points, t, h. split; [reflexivity|]. split; [exact Hc|exact Hlen].
Defined.

Section LabelProperties.
Import Session Num Format Clock Projector.

Lemma weekday_short_injective a b :
  0 <= a < 7 -> 0 <= b < 7 -> weekday_short a = weekday_short b -> a = b.
Proof.
  intros Ha Hb H.
  assert (Ea : a = 0 \/ a = 1 \/ a = 2 \/ a = 3 \/ a = 4 \/ a = 5 \/ a = 6) by lia.
  assert (Eb : b = 0 \/ b = 1 \/ b = 2 \/ b = 3 \/ b = 4 \/ b = 5 \/ b = 6) by lia.
  repeat (destruct Ea as [->|Ea]); try subst a;
    repeat (destruct Eb as [->|Eb]); try subst b;
    try reflexivity; vm_compute in H; discriminate H.
Qed.

Lemma weekday_short_length d : List.length (weekday_short d) = 3%nat.
Proof.
  destruct d as [|p|p]; [reflexivity| |reflexivity].
  do 3 (destruct p as [p|p|]; try reflexivity).
Qed.

Lemma app_same_length {A} (l1 l2 r1 r2 : list A) :
  List.length l1 = List.length l2 -> l1 ++ r1 = l2 ++ r2 -> l1 = l2 /\ r1 = r2.
Proof.
  revert l2. induction l1 as [|x l1 IH]; intros [|y l2] Hlen H; try discriminate Hlen.
  - split; [reflexivity|exact H].
  - injection H as -> H. injection Hlen as Hlen.
    destruct (IH l2 Hlen H) as [-> ->]. split; reflexivity.
Qed.

Lemma digit_injective a b : 0 <= a -> 0 <= b -> digit a = digit b -> a = b.
Proof. unfold digit. intros Ha Hb H. apply Z2N.inj in H; lia. Qed.

Lemma clock_HH_MM_injective t u :
  clock_HH_MM t = clock_HH_MM u ->
  HourFromTime t = HourFromTime u /\ MinFromTime t = MinFromTime u.
Proof.
  rewrite (clock_HH_MM_spec t _ _ eq_refl eq_refl),
          (clock_HH_MM_spec u _ _ eq_refl eq_refl).
  fold (HourFromTime t) (HourFromTime u) (MinFromTime t) (MinFromTime u).
  assert (Ht : 0 <= HourFromTime t < 24) by (apply Z.mod_pos_bound; lia).
  assert (Hu : 0 <= HourFromTime u < 24) by (apply Z.mod_pos_bound; lia).
  assert (Mt : 0 <= MinFromTime t < 60) by (apply Z.mod_pos_bound; lia).
  assert (Mu : 0 <= MinFromTime u < 60) by (apply Z.mod_pos_bound; lia).
  intros H. injection H as H1 H2 H3 H4.
  apply digit_injective in H1, H2, H3, H4;
    try (apply Z.div_pos; lia); try (apply Z.mod_pos_bound; lia).
  split.
  - rewrite (Z.div_mod (HourFromTime t) 10), (Z.div_mod (HourFromTime u) 10) by lia. lia.
  - rewrite (Z.div_mod (MinFromTime t) 10), (Z.div_mod (MinFromTime u) 10) by lia. lia.
Qed.

Lemma same_label_same_minute_of_week a b :
  WeekDay (a * 1000) = WeekDay (b * 1000) ->
  HourFromTime (a * 1000) = HourFromTime (b * 1000) ->
  MinFromTime (a * 1000) = MinFromTime (b * 1000) ->
  60 <= Z.abs (a - b) <= 604740 -> False.
Proof.
  unfold WeekDay, HourFromTime, MinFromTime, msPerDay, msPerHour, msPerMinute.
  intros Hw Hh Hm Hd.
  Z.div_mod_to_equations. lia.
Qed.

End LabelProperties.

(** X12.  Two entries of a feed whose times are at least a minute and at
    most a week less a minute apart get different labels, so the labels
    of the points shown (the keys of the forecast chips and the
    categories of the chart) do not collide. *)
Theorem forecast_labels_distinct (tz : Z) (a b : Projector.ForecastItem)
  (pa pb : Projector.ForecastPoint) :
  Projector.project_item tz a = Normal pa ->
  Projector.project_item tz b = Normal pb ->
  60 <= Z.abs (Projector.dt a - Projector.dt b) <= 604740 ->
  Projector.label pa <> Projector.label pb.
Proof.
  intros Ha Hb Hd Heq.
  destruct (project_item_cases tz a) as [(_ & pa' & Hpa & Hla & _)|[_ Hthrow]];
    [|congruence].
  destruct (project_item_cases tz b) as [(_ & pb' & Hpb & Hlb & _)|[_ Hthrow]];
    [|congruence].
  rewrite Ha in Hpa. injection Hpa as <-. rewrite Hb in Hpb. injection Hpb as <-.
  rewrite Hla, Hlb in Heq.
  apply app_same_length in Heq; [|rewrite !weekday_short_length; reflexivity].
  destruct Heq as [Hw Hrest].
  apply (app_inv_head (utf16 ", ")) in Hrest.
  apply clock_HH_MM_injective in Hrest. destruct Hrest as [Hh Hm].
  apply weekday_short_injective in Hw;
    try (unfold Clock.WeekDay; apply Z.mod_pos_bound; lia).
  apply (same_label_same_minute_of_week (Projector.dt a + tz) (Projector.dt b + tz));
    try assumption.
  replace (Projector.dt a + tz - (Projector.dt b + tz))
    with (Projector.dt a - Projector.dt b) by lia.
  exact Hd.
Qed.

Lemma forecast_labels_distinct_witness :
  exists pa pb,
    Projector.project_item 7200 (ForecastSamples.entry 0) = Normal pa
    /\ Projector.project_item 7200 (ForecastSamples.entry 1) = Normal pb
    /\ Projector.label pa <> Projector.label pb.
Proof.
  destruct (Projector.project_item 7200 (ForecastSamples.entry 0)) as [pa|e] eqn:Ea;
    [|vm_compute in Ea; discriminate Ea].
  destruct (Projector.project_item 7200 (ForecastSamples.entry 1)) as [pb|e] eqn:Eb;
    [|vm_compute in Eb; discriminate Eb].
  exists pa, pb. split; [reflexivity|]. split; [reflexivity|].
  apply (forecast_labels_distinct 7200 (ForecastSamples.entry 0)
           (ForecastSamples.entry 1) pa pb Ea Eb).
  vm_compute. split; discriminate.
Defined.

(** ** The background image *)

Section BackgroundProperties.
Import URI Dashboard.

Lemma hex_digit_unreserved n : (n < 16)%N -> is_unreserved (hex_digit n) = true.
Proof.
  intros H. unfold hex_digit.
  assert (Hn : In n (map N.of_nat (List.seq 0 16))).
  { apply in_map_iff. exists (N.to_nat n). split; [apply N2Nat.id|].
    apply in_seq. lia. }
  vm_compute in Hn.
  repeat (destruct Hn as [<-|Hn]; [reflexivity|]). contradiction.
Qed.

(** A code unit that [encodeURIComponent] can produce. *)
Lemma percent_octet_safe b :
  (b < 256)%N ->
  Forall (fun c => is_unreserved c = true \/ c = 37%N) (percent_octet b).
Proof.
  intros H. unfold percent_octet.
  constructor; [right; reflexivity|].
  constructor; [left; apply hex_digit_unreserved; apply N.Div0.div_lt_upper_bound; lia|].
  constructor; [left; apply hex_digit_unreserved; apply N.mod_lt; lia|constructor].
Qed.

Lemma utf8_octets cp :
  (cp < 1114112)%N -> Forall (fun b => (b < 256)%N) (utf8 cp).
Proof.
  intros H. unfold utf8.
  destruct (N.ltb_spec cp 128); [repeat constructor; lia|].
  destruct (N.ltb_spec cp 2048).
  { assert (cp / 64 < 32)%N by (apply N.Div0.div_lt_upper_bound; lia).
    pose proof (N.mod_lt cp 64 ltac:(lia)).
    repeat constructor; lia. }
  destruct (N.ltb_spec cp 65536).
  { assert (cp / 4096 < 16)%N by (apply N.Div0.div_lt_upper_bound; lia).
    pose proof (N.mod_lt cp 64 ltac:(lia)).
    pose proof (N.mod_lt (cp / 64) 64 ltac:(lia)).
    repeat constructor; lia. }
  assert (cp / 262144 < 5)%N by (apply N.Div0.div_lt_upper_bound; lia).
  pose proof (N.mod_lt cp 64 ltac:(lia)).
  pose proof (N.mod_lt (cp / 64) 64 ltac:(lia)).
  pose proof (N.mod_lt (cp / 4096) 64 ltac:(lia)).
  repeat constructor; lia.
Qed.

Lemma escape_safe cp :
  (cp < 1114112)%N ->
  Forall (fun c => is_unreserved c = true \/ c = 37%N) (escape cp).
Proof.
  intros H. unfold escape. pose proof (utf8_octets cp H) as Hb.
  induction Hb as [|b l Hb _ IH]; cbn [flat_map]; [constructor|].
  apply Forall_app. split; [apply percent_octet_safe, Hb|exact IH].
Qed.

Lemma surrogate_pair_bound c d :
  is_leading_surrogate c = true -> is_trailing_surrogate d = true ->
  (surrogate_pair c d < 1114112)%N.
Proof.
  unfold is_leading_surrogate, is_trailing_surrogate, surrogate_pair.
  intros Hc Hd. apply andb_true_iff in Hc, Hd.
  destruct Hc as [Hc1 Hc2], Hd as [Hd1 Hd2].
  apply N.leb_le in Hc1, Hc2, Hd1, Hd2. lia.
Qed.

Lemma encodeURIComponent_safe_upto (n : nat) : forall s q,
  (List.length s <= n)%nat ->
  Forall (fun c => (c < 65536)%N) s ->
  encodeURIComponent s = Some q ->
  Forall (fun c => is_unreserved c = true \/ c = 37%N) q.
Proof.
  induction n as [|n IH]; intros s q Hlen Hs Hq.
  - destruct s; [|simpl in Hlen; lia]. injection Hq as <-. constructor.
  - destruct s as [|c rest]; [injection Hq as <-; constructor|].
    inversion Hs as [|? ? Hc Hrest]; subst. simpl in Hlen.
    cbn [encodeURIComponent] in Hq.
    destruct (is_unreserved c) eqn:Eu.
    { destruct (encodeURIComponent rest) as [q'|] eqn:Er; [|discriminate].
      injection Hq as <-. constructor; [left; exact Eu|].
      apply (IH rest q'); [lia|exact Hrest|exact Er]. }
    destruct (is_trailing_surrogate c); [discriminate|].
    destruct (is_leading_surrogate c) eqn:El.
    { destruct rest as [|d rest']; [discriminate|].
      destruct (is_trailing_surrogate d) eqn:Et; [|discriminate].
      destruct (encodeURIComponent rest') as [q'|] eqn:Er; [|discriminate].
      injection Hq as <-. apply Forall_app. split.
      - apply escape_safe, surrogate_pair_bound; assumption.
      - inversion Hrest; subst. apply (IH rest' q'); [simpl in Hlen; lia|assumption|exact Er]. }
    destruct (encodeURIComponent rest) as [q'|] eqn:Er; [|discriminate].
    injection Hq as <-. apply Forall_app. split.
    + apply escape_safe. lia.
    + apply (IH rest q'); [lia|exact Hrest|exact Er].
Qed.

Lemma encodeURIComponent_safe s q :
  Forall (fun c => (c < 65536)%N) s ->
  encodeURIComponent s = Some q ->
  Forall (fun c => is_unreserved c = true \/ c = 37%N) q.
Proof. apply (encodeURIComponent_safe_upto (List.length s)). lia. Qed.

Lemma encodeURIComponent_throws_upto (n : nat) : forall s,
  (List.length s <= n)%nat ->
  (encodeURIComponent s = None <-> isWellFormed s = false).
Proof.
  induction n as [|n IH]; intros s Hlen.
  - destruct s; [|simpl in Hlen; lia]. simpl. split; discriminate.
  - destruct s as [|c rest]; [simpl; split; discriminate|].
    simpl in Hlen. cbn [encodeURIComponent isWellFormed].
    assert (Hu : is_unreserved c = true ->
                 is_trailing_surrogate c = false /\ is_leading_surrogate c = false).
    { unfold is_unreserved, is_trailing_surrogate, is_leading_surrogate.
      intros H. split; apply andb_false_iff;
        destruct (N.leb_spec 56320 c), (N.leb_spec 55296 c); auto;
        exfalso; revert H; repeat rewrite orb_false_iff; rewrite ?andb_false_iff;
        repeat match goal with
        | |- context [(?a <=? ?b)%N] => destruct (N.leb_spec a b); try lia
        | |- context [(?a =? ?b)%N] => destruct (N.eqb_spec a b); try lia
        end; simpl; discriminate. }
    assert (Hmap : forall (f : jsstring -> jsstring) r,
              option_map f (encodeURIComponent r) = None <-> encodeURIComponent r = None).
    { intros f r. destruct (encodeURIComponent r); simpl; split; congruence. }
    destruct (is_unreserved c) eqn:Eu.
    { destruct (Hu eq_refl) as [-> ->]. rewrite Hmap. apply IH. lia. }
    destruct (is_trailing_surrogate c); [split; reflexivity|].
    destruct (is_leading_surrogate c).
    { destruct rest as [|d rest']; [split; reflexivity|].
      destruct (is_trailing_surrogate d); simpl; [|split; reflexivity].
      rewrite Hmap. apply IH. simpl in Hlen. lia. }
    rewrite Hmap. apply IH. lia.
Qed.

Lemma encodeURIComponent_throws s :
  encodeURIComponent s = None <-> isWellFormed s = false.
Proof. apply (encodeURIComponent_throws_upto (List.length s)). lia. Qed.

Lemma split_first_prefix sep s :
  Forall (fun c => (c < 65536)%N) s -> Forall (fun c => (c < 65536)%N) (split_first sep s).
Proof.
  induction 1 as [|c r Hc _ IH]; simpl; [constructor|].
  destruct (c =? sep)%N; [constructor|constructor; assumption].
Qed.

Lemma split_first_app sep n rest :
  ~ In sep n -> split_first sep (n ++ sep :: rest) = n.
Proof.
  induction n as [|c r IH]; simpl; intros H.
  - rewrite N.eqb_refl. reflexivity.
  - destruct (N.eqb_spec c sep) as [E|_]; [exfalso; apply H; left; exact E|].
    f_equal. apply IH. intros Hin. apply H. right. exact Hin.
Qed.

Lemma split_first_none sep n : ~ In sep n -> split_first sep n = n.
Proof.
  induction n as [|c r IH]; simpl; intros H; [reflexivity|].
  destruct (N.eqb_spec c sep) as [E|_]; [exfalso; apply H; left; exact E|].
  f_equal. apply IH. intros Hin. apply H. right. exact Hin.
Qed.

End BackgroundProperties.

Section UrlCharacters.
Import URI.

Lemma unreserved_is_plain c :
  is_unreserved c = true -> (33 <= c <= 126)%N /\ c <> 34%N /\ c <> 92%N.
Proof.
  unfold is_unreserved. intros H.
  repeat match type of H with
  | (_ || _) = true => apply orb_true_iff in H; destruct H as [H|H]
  end;
  repeat match type of H with
  | (_ && _) = true => let H' := fresh in apply andb_true_iff in H; destruct H as [H H']
  end;
  repeat match goal with
  | X : (_ <=? _)%N = true |- _ => apply N.leb_le in X
  | X : (_ =? _)%N = true |- _ => apply N.eqb_eq in X
  end; lia.
Qed.

End UrlCharacters.

(** X13.  Whenever a background URL is produced for a city name made of
    UTF-16 code units, it is the fixed address with the percent-encoded
    name in between, and every one of its characters is a printable ASCII
    character other than the double quote and the backslash, so the
    [url("...")] value built from it is never closed early. *)
Theorem backgroundImageUrl_is_plain_ascii
  (currentCityName : option jsstring) (city url : jsstring) :
  Forall (fun c => (c < 65536)%N)
    (match currentCityName with Some n => n | None => city end) ->
  Dashboard.backgroundImageUrl currentCityName city = Some (Some url) ->
  (exists query,
     url = Dashboard.BACKGROUND_PREFIX ++ query ++ Dashboard.BACKGROUND_SUFFIX
     /\ Forall (fun c => URI.is_unreserved c = true \/ c = 37%N) query)
  /\ Forall (fun c => (33 <= c <= 126)%N /\ c <> 34%N /\ c <> 92%N) url.
Proof.
  unfold Dashboard.backgroundImageUrl. intros Hunits H.
  destruct (string_falsy _); [discriminate|].
  destruct (URI.encodeURIComponent _) as [query|] eqn:E; [|discriminate].
  assert (Hurl : url = Dashboard.BACKGROUND_PREFIX ++ query ++ Dashboard.BACKGROUND_SUFFIX)
    by congruence.
  clear H. subst url.
  assert (Hq : Forall (fun c => URI.is_unreserved c = true \/ c = 37%N) query).
  { apply (encodeURIComponent_safe _ _ (split_first_prefix 44 _ Hunits) E). }
  split; [exists query; split; [reflexivity|exact Hq]|].
  apply Forall_app. split; [|apply Forall_app; split].
  - vm_compute. repeat constructor; discriminate.
  - eapply Forall_impl; [|exact Hq]. intros c [Hc| ->].
    + apply unreserved_is_plain, Hc.
    + repeat split; discriminate.
  - vm_compute. repeat constructor; discriminate.
Qed.

Lemma backgroundImageUrl_is_plain_ascii_witness :
  (exists query,
     Dashboard.BACKGROUND_PREFIX ++ utf16 "S%C3%A3o%20Paulo" ++ Dashboard.BACKGROUND_SUFFIX
     = Dashboard.BACKGROUND_PREFIX ++ query ++ Dashboard.BACKGROUND_SUFFIX
     /\ Forall (fun c => URI.is_unreserved c = true \/ c = 37%N) query)
  /\ Forall (fun c => (33 <= c <= 126)%N /\ c <> 34%N /\ c <> 92%N)
       (Dashboard.BACKGROUND_PREFIX ++ utf16 "S%C3%A3o%20Paulo"
        ++ Dashboard.BACKGROUND_SUFFIX).
Proof.
  apply (backgroundImageUrl_is_plain_ascii (Some (utf16 "São Paulo, BR")) Session.DEFAULT_CITY).
  - vm_compute. repeat constructor.
  - vm_compute. reflexivity.
Defined.

(** X14.  The background memo gives [null] exactly when the name it uses
    (the API's name, else the committed city) is empty, and throws (a
    URIError, during render) exactly when the part of that name before
    its first comma has a surrogate code unit outside a pair. *)
Theorem backgroundImageUrl_null_or_throws
  (currentCityName : option jsstring) (city : jsstring) :
  let backgroundCity := match currentCityName with Some n => n | None => city end in
  (Dashboard.backgroundImageUrl currentCityName city = Some None <-> backgroundCity = [])
  /\ (Dashboard.backgroundImageUrl currentCityName city = None <->
      URI.isWellFormed (URI.split_first 44 backgroundCity) = false).
Proof.
  cbv zeta. unfold Dashboard.backgroundImageUrl.
  destruct (match currentCityName with Some n => n | None => city end) as [|c rest] eqn:E.
  - simpl. repeat split; try discriminate; reflexivity.
  - cbn [string_falsy].
    pose proof (encodeURIComponent_throws (URI.split_first 44 (c :: rest))) as Ht.
    destruct (URI.encodeURIComponent (URI.split_first 44 (c :: rest))) as [q|].
    + repeat split; try discriminate. intros H. apply Ht in H. discriminate H.
    + repeat split; try discriminate. intros _. apply Ht. reflexivity.
Qed.

(** X15.  Only the part of the place name before its first comma reaches
    the background URL: a name and the same name followed by a comma and
    anything else give the same result, whatever the committed city. *)
Theorem backgroundImageUrl_ignores_text_after_comma
  (place rest city city' : jsstring) :
  place <> [] -> ~ In 44%N place ->
  Dashboard.backgroundImageUrl (Some (place ++ 44%N :: rest)) city
  = Dashboard.backgroundImageUrl (Some place) city'.
Proof.
  intros Hne Hnc. unfold Dashboard.backgroundImageUrl.
  rewrite (split_first_app 44 place rest Hnc), (split_first_none 44 place Hnc).
  destruct place as [|c r]; [contradiction Hne; reflexivity|]. reflexivity.
Qed.

Lemma backgroundImageUrl_ignores_text_after_comma_witness :
  Dashboard.backgroundImageUrl
    (Some (utf16 "Lima" ++ 44%N :: utf16 " PE")) Session.DEFAULT_CITY
  = Dashboard.backgroundImageUrl (Some (utf16 "Lima")) (utf16 "Quito").
Proof.
  apply (backgroundImageUrl_ignores_text_after_comma
           (utf16 "Lima") (utf16 " PE") Session.DEFAULT_CITY (utf16 "Quito")).
  - intro H; vm_compute in H; discriminate H.
  - vm_compute. intros H. repeat (destruct H as [H|H]; [discriminate H|]). exact H.
Defined.

Section CardProperties.
Import Session Num Format Clock Projector.

Variable StringToNumber : jsstring -> number.

Lemma percentage_rendered p :
  is_probability p = true ->
  exists n, 0 <= n <= 100 /\
    Number_toString (Math_round (mul p (of_Z 100))) = decimal n.
Proof.
  intros Hp. destruct (probability_shape p Hp) as [[s ->]|[->|(m & e & -> & He & Hm)]].
  - exists 0. split; [lia|destruct s; vm_compute; reflexivity].
  - exists 100. split; [lia|vm_compute; reflexivity].
  - change (of_Z 100) with (S754_finite false 7036874417766400 (-46)).
    cbn [mul SFmul xorb].
    assert (Hpow : 2 ^ (- (e + -46)) = 2 ^ (- e) * 2 ^ 46).
    { rewrite <- Z.pow_add_r by lia. f_equal. lia. }
    assert (HM : Z.pos (m * 7036874417766400) < 100 * 2 ^ (- (e + -46))).
    { rewrite Hpow, Pos2Z.inj_mul. change (2 ^ 46) with 70368744177664. lia. }
    pose proof (round_aux_below_100 (m * 7036874417766400) (e + -46) ltac:(lia) HM) as H.
    revert H.
    destruct (binary_round_aux prec emax false (Z.pos (m * 7036874417766400)) (e + -46) loc_Exact)
      as [[|]|s| |[|] m2 e2]; intros H; try contradiction.
    + exists 0. split; [lia|reflexivity].
    + destruct H as [He2 Hm2]. cbn [Math_round signed_mantissa].
      destruct (Z.leb_spec 0 e2) as [|_]; [lia|].
      pose proof (round_half_up_percentage (Z.pos m2) (- e2) ltac:(lia) ltac:(lia)) as Hn.
      rewrite Z.opp_involutive in Hn.
      exists (round_half_up (Z.pos m2) e2). split; [exact Hn|].
      destruct (round_half_up (Z.pos m2) e2) as [|q|q] eqn:E; [reflexivity| |lia].
      rewrite Number_toString_integer by lia.
      unfold decimal_signed. destruct (Z.ltb_spec (Z.pos q) 0); [lia|reflexivity].
Qed.

End CardProperties.

Section CardFacts.
Import Session Num Format Clock Projector.

Variable StringToNumber : jsstring -> number.

Lemma formatTemperature_total value units :
  exists s, formatTemperature StringToNumber value units = Normal s.
Proof. rewrite formatTemperature_cases. destruct value; eexists; reflexivity. Qed.

Lemma formatWindSpeed_total value units :
  exists s, formatWindSpeed value units = Normal s.
Proof. rewrite formatWindSpeed_cases. destruct value; eexists; reflexivity. Qed.

Lemma formatVisibility_total value :
  exists s, formatVisibility StringToNumber value = Normal s.
Proof. rewrite formatVisibility_cases. destruct value; eexists; reflexivity. Qed.

Lemma project_item_precipitation tz item pt :
  project_item tz item = Normal pt ->
  precipitation pt =
    Math_round (mul (match pop item with Some p => p | None => S754_zero false end)
                    (of_Z 100)).
Proof.
  unfold project_item. destruct (format_weekday_time _) as [lbl|e]; cbn [bind];
    [|discriminate].
  intros H. injection H as <-. reflexivity.
Qed.

Lemma card_labels_distinct :
  NoDup [utf16 "Sensación térmica"; utf16 "Humedad relativa"; utf16 "Viento";
         utf16 "Presión"; utf16 "Visibilidad"; utf16 "Nubosidad";
         utf16 "Salida del sol"; utf16 "Puesta del sol"].
Proof.
  vm_compute.
  repeat (constructor; [cbn [In]; intuition discriminate|]). constructor.
Qed.

End CardFacts.

(** X16.  The metric cards: none without current conditions, that is
    with no stored data or with a stored current body that is falsy;
    for current conditions of the modelled shape the memo never throws
    and gives exactly eight cards with fixed, pairwise different labels
    in a fixed order, and only the humidity card can carry a helper
    line, which it does exactly when there is a forecast point. *)
Theorem metrics_eight_cards (StringToNumber : jsstring -> Num.number)
  (Forecast : Type) (payload : Dashboard.CurrentPayload) (storedForecast : Forecast)
  (units : Session.UnitSystem) (forecastPoints : list Projector.ForecastPoint) :
  Dashboard.metrics StringToNumber
    (None : option (Session.WeatherData Dashboard.CurrentBody Forecast))
    units forecastPoints = Normal []
  /\ Dashboard.metrics StringToNumber
       (Some {| Session.current := None; Session.forecast := storedForecast |})
       units forecastPoints = Normal []
  /\ exists cards,
       Dashboard.metrics StringToNumber
         (Some {| Session.current := Some payload;
                  Session.forecast := storedForecast |})
         units forecastPoints = Normal cards
       /\ map Dashboard.label cards =
            [utf16 "Sensación térmica"; utf16 "Humedad relativa"; utf16 "Viento";
             utf16 "Presión"; utf16 "Visibilidad"; utf16 "Nubosidad";
             utf16 "Salida del sol"; utf16 "Puesta del sol"]
       /\ NoDup (map Dashboard.label cards)
       /\ exists rain,
            map Dashboard.helper cards =
              [None; rain; None; None; None; None; None; None]
            /\ (rain = None <-> forecastPoints = []).
Proof.
  split; [reflexivity|]. split; [reflexivity|].
  unfold Dashboard.metrics. cbn [Dashboard.currentWeather Session.current].
  destruct (formatTemperature_total StringToNumber
              (Dashboard.optional (Dashboard.main payload) Dashboard.feels_like) units)
    as [s1 ->].
  destruct (formatWindSpeed_total
              (Dashboard.optional (Dashboard.wind payload) Dashboard.speed) units)
    as [s2 ->].
  destruct (formatVisibility_total StringToNumber (Dashboard.visibility payload))
    as [s3 ->].
  cbn [bind]. eexists. split; [reflexivity|].
  cbn [map Dashboard.label Dashboard.helper].
  split; [reflexivity|]. split; [exact card_labels_distinct|].
  eexists. split; [reflexivity|].
  destruct forecastPoints; split; try discriminate; reflexivity.
Qed.

(** X17.  The helper line of the humidity card, for points built from a
    feed whose first entry has a probability of precipitation between 0
    and 1: the text "Próx. lluvia: n%" with n a whole number from 0 to
    100 in decimal digits. *)
Theorem rain_helper_is_whole_percentage (StringToNumber : jsstring -> Num.number)
  (Forecast : Type) (payload : Dashboard.CurrentPayload) (storedForecast : Forecast)
  (units : Session.UnitSystem)
  (f : Projector.ForecastPayload) (first : Projector.ForecastItem)
  (more : list Projector.ForecastItem) (p : Num.number)
  (points : list Projector.ForecastPoint) :
  Projector.forecast_list f = Some (first :: more) ->
  Projector.pop first = Some p ->
  Projector.is_probability p = true ->
  Projector.buildForecastPoints (Some f) = Normal points ->
  exists n cards,
    0 <= n <= 100
    /\ Dashboard.metrics StringToNumber
         (Some {| Session.current := Some payload;
                  Session.forecast := storedForecast |})
         units points = Normal cards
    /\ map Dashboard.helper cards =
         [None; Some (utf16 "Próx. lluvia: " ++ Num.decimal n ++ utf16 "%");
          None; None; None; None; None; None].
Proof.
  intros Hlist Hpop Hprob Hbuild.
  unfold Projector.buildForecastPoints in Hbuild. rewrite Hlist in Hbuild.
  apply map_completion_Forall2 in Hbuild. cbn [firstn] in Hbuild.
  inversion Hbuild as [|a pt l pts Hpt _]; subst.
  apply project_item_precipitation in Hpt. rewrite Hpop in Hpt.
  destruct (percentage_rendered p Hprob) as (n & Hn & Hrender).
  exists n.
  unfold Dashboard.metrics. cbn [Dashboard.currentWeather Session.current].
  destruct (formatTemperature_total StringToNumber
              (Dashboard.optional (Dashboard.main payload) Dashboard.feels_like) units)
    as [s1 ->].
  destruct (formatWindSpeed_total
              (Dashboard.optional (Dashboard.wind payload) Dashboard.speed) units)
    as [s2 ->].
  destruct (formatVisibility_total StringToNumber (Dashboard.visibility payload))
    as [s3 ->].
  cbn [bind]. eexists. split; [exact Hn|]. split; [reflexivity|].
  cbn [map Dashboard.helper]. rewrite Hpt, Hrender. reflexivity.
Qed.

(** X18.  The tooltip of the chart shows a finite reading between -1000
    and 1000 as the nearest integer (the upper one on a tie) in decimal
    digits, after the series name, followed by the unit glyph for the
    first series and by a percent sign for any other. *)
Theorem tooltip_shows_nearest_integer (StringToNumber : jsstring -> Num.number)
  (units : Session.UnitSystem) (datasetIndex : nat) (datasetLabel : jsstring)
  (x : Num.number) :
  Num.well_formed x = true -> Num.is_finite x = true ->
  (inject_Z (-1000) <= Num.exact x /\ Num.exact x <= inject_Z 1000)%Q ->
  exists n,
    (inject_Z n - (1 # 2) <= Num.exact x /\ Num.exact x < inject_Z n + (1 # 2))%Q
    /\ Chart.tooltip_label StringToNumber units datasetIndex datasetLabel
         (Format.VNumber x)
       = datasetLabel ++ utf16 ": " ++ Num.decimal_signed n
           ++ match datasetIndex with
              | O => utf16 " " ++ Chart.unit_glyph units
              | _ => utf16 "%"
              end.
Proof.
  intros Hwf Hfin Hrange.
  destruct (Math_round_rendered x Hwf Hfin Hrange) as (n & Hnear & Hrender).
  exists n. split; [exact Hnear|].
  unfold Chart.tooltip_label. cbn [Format.ToNumber]. rewrite Hrender.
  destruct datasetIndex; reflexivity.
Qed.

(** ** More on the fetch cycle *)

Section CycleFacts.
Import Session App.

Context {Current Forecast : Type}.

#[local] Abbreviation World := (Session.World Current Forecast).
#[local] Abbreviation Machine := (Session.Machine Current Forecast).
#[local] Abbreviation Outcome := (Session.Outcome Current Forecast).
#[local] Abbreviation Action := (App.Action Current Forecast).

(** X19.  A cycle that passes the guards and gets two success responses
    whose bodies parse stores exactly those two payloads, clears any
    earlier error, stamps the update time and ends the loading state; it
    does not touch the committed city or units, even when it was started
    for another city. *)
Theorem successful_cycle_stores_both_payloads apiKey c u (o : Outcome) (w : World)
  cr fr cur fc :
  precondition apiKey c = true ->
  currentFetch o = Fulfilled cr -> forecastFetch o = Fulfilled fr ->
  ok cr = true -> ok fr = true ->
  json cr = Fulfilled cur -> json fr = Fulfilled fc ->
  let st := session (fetchWeather apiKey c u o w) in
  weatherData st = Some {| current := cur; forecast := fc |}
  /\ error st = None
  /\ lastUpdated st = Some (now o)
  /\ loading st = false
  /\ city st = city (session w) /\ units st = units (session w)
  /\ searchTerm st = searchTerm (session w).
Proof.
  intros Hpre Hc Hf Hokc Hokf Hjc Hjf. cbv zeta.
  destruct (fetchWeather_accepted apiKey c u o w Hpre) as (key & _ & ->).
  unfold fetchWeather_settle, await_payloads.
  rewrite Hc, Hf. cbn [promise_all]. rewrite Hokc, Hokf. cbn [negb].
  rewrite Hjc, Hjf. cbn [promise_all]. repeat split.
Qed.

(** X20.  Where the error message of a failed cycle comes from.  A fetch
    that rejects wins over the status of the other response: a network
    failure of one call hides a non-success status of the other.  With
    both responses successful, a body that fails to parse gives its own
    reason. *)
Theorem failure_message_provenance apiKey c u (o : Outcome) (w : World) message :
  precondition apiKey c = true ->
  let st := session (fetchWeather apiKey c u o w) in
  (forall cr, currentFetch o = Fulfilled cr -> forecastFetch o = Rejected message ->
     error st = Some message)
  /\ (forall fr, currentFetch o = Rejected message -> forecastFetch o = Fulfilled fr ->
     error st = Some message)
  /\ (forall cr fr fc, currentFetch o = Fulfilled cr -> forecastFetch o = Fulfilled fr ->
     ok cr = true -> ok fr = true ->
     json cr = Rejected message -> json fr = Fulfilled fc ->
     error st = Some message)
  /\ (forall cr fr cur, currentFetch o = Fulfilled cr -> forecastFetch o = Fulfilled fr ->
     ok cr = true -> ok fr = true ->
     json cr = Fulfilled cur -> json fr = Rejected message ->
     error st = Some message).
Proof.
  intros Hpre. cbv zeta.
  destruct (fetchWeather_accepted apiKey c u o w Hpre) as (key & _ & ->).
  unfold fetchWeather_settle, await_payloads.
  split; [|split; [|split]].
  - intros cr -> ->. reflexivity.
  - intros fr -> ->. reflexivity.
  - intros cr fr fc -> -> Hc Hf Hjc Hjf. cbn [promise_all].
    rewrite Hc, Hf. cbn [negb]. rewrite Hjc, Hjf. reflexivity.
  - intros cr fr cur -> -> Hc Hf Hjc Hjf. cbn [promise_all].
    rewrite Hc, Hf. cbn [negb]. rewrite Hjc, Hjf. reflexivity.
Qed.

(** Weather data is only ever stored together with an update time. *)
Lemma act_keeps_data_stamped apiKey (m : Machine) (a : Action) :
  (weatherData (session (world m)) <> None -> lastUpdated (session (world m)) <> None) ->
  weatherData (session (world (act apiKey m a))) <> None ->
  lastUpdated (session (world (act apiKey m a))) <> None.
Proof.
  intros Hm.
  assert (Hstep : forall (m' : Machine) ev,
            (weatherData (session (world m')) <> None ->
             lastUpdated (session (world m')) <> None) ->
            weatherData (session (world (step apiKey m' ev))) <> None ->
            lastUpdated (session (world (step apiKey m' ev))) <> None).
  { intros m' ev H. destruct ev as [c u o|n]; cbn [step].
    - unfold fetchWeather_begin.
      destruct apiKey as [key|]; [|exact H].
      destruct (string_falsy key); [exact H|].
      destruct (string_falsy (trim c)); exact H.
    - destruct (take_cycle _ _ n (inflight m')) as [[o rest]|]; [|exact H].
      unfold fetchWeather_settle.
      destruct (await_payloads o) as [[cur fc]|msg]; cbn.
      + intros _. discriminate.
      + intros H'. contradiction H'. reflexivity. }
  assert (Har : forall before o (m' : Machine),
            (weatherData (session (world m')) <> None ->
             lastUpdated (session (world m')) <> None) ->
            weatherData (session (world (after_render apiKey before o m'))) <> None ->
            lastUpdated (session (world (after_render apiKey before o m'))) <> None).
  { intros before o m' H. unfold after_render.
    destruct (_ && _); [exact H|apply Hstep, H]. }
  destruct a as [text|o oE|nu o oE|o|o|n]; cbn [act].
  - exact Hm.
  - apply Har. unfold handleSubmit.
    destruct (string_falsy _); [exact Hm|]. apply Hstep. exact Hm.
  - apply Har. unfold handleUnitChange. apply Hstep. exact Hm.
  - apply Hstep, Hm.
  - apply Hstep, Hm.
  - apply Hstep, Hm.
Qed.

(** X21.  In every state the mounted component reaches, stored weather
    data comes with an update time. *)
Theorem stored_data_has_update_time apiKey (o : Outcome) (actions : list Action) :
  let st := session (world (run_app apiKey actions (mounted apiKey o))) in
  weatherData st <> None -> lastUpdated st <> None.
Proof.
  apply (run_app_invariant apiKey
           (fun m => weatherData (session (world m)) <> None ->
                     lastUpdated (session (world m)) <> None)).
  - intros m a. apply act_keeps_data_stamped.
  - unfold mounted, fetchWeather_default, call_fetchWeather. cbn [step].
    unfold fetchWeather_begin.
    destruct apiKey as [key|]; [|intros H; contradiction H; reflexivity].
    destruct (string_falsy key); [intros H; contradiction H; reflexivity|].
    destruct (string_falsy (trim _)); intros H; contradiction H; reflexivity.
Qed.

(** An idle component holds an error or weather data. *)
Lemma act_keeps_idle_informative apiKey (m : Machine) (a : Action) :
  (inflight m = [] ->
   error (session (world m)) <> None \/ weatherData (session (world m)) <> None) ->
  inflight (act apiKey m a) = [] ->
  error (session (world (act apiKey m a))) <> None
  \/ weatherData (session (world (act apiKey m a))) <> None.
Proof.
  intros Hm.
  assert (Hcall : forall c u o (m' : Machine),
            inflight (call_fetchWeather apiKey c u o m') = [] ->
            error (session (world (call_fetchWeather apiKey c u o m'))) <> None
            \/ weatherData (session (world (call_fetchWeather apiKey c u o m'))) <> None).
  { intros c u o m'. unfold call_fetchWeather. cbn [step]. unfold fetchWeather_begin.
    destruct apiKey as [key|]; [|intros _; left; discriminate].
    destruct (string_falsy key); [intros _; left; discriminate|].
    destruct (string_falsy (trim c)); [intros _; left; discriminate|].
    cbn [inflight]. intros H. destruct (inflight m'); discriminate H. }
  assert (Har : forall before o (m' : Machine),
            (inflight m' = [] ->
             error (session (world m')) <> None \/ weatherData (session (world m')) <> None) ->
            inflight (after_render apiKey before o m') = [] ->
            error (session (world (after_render apiKey before o m'))) <> None
            \/ weatherData (session (world (after_render apiKey before o m'))) <> None).
  { intros before o m' H. unfold after_render.
    destruct (_ && _); [exact H|apply Hcall]. }
  destruct a as [text|o oE|nu o oE|o|o|n]; cbn [act].
  - exact Hm.
  - apply Har. unfold handleSubmit.
    destruct (string_falsy _); [intros _; left; discriminate|apply Hcall].
  - apply Har. unfold handleUnitChange. apply Hcall.
  - apply Hcall.
  - apply Hcall.
  - cbn [step]. destruct (take_cycle _ _ n (inflight m)) as [[o rest]|]; [|exact Hm].
    intros _. unfold fetchWeather_settle.
    destruct (await_payloads o) as [[cur fc]|msg]; cbn;
      [right; discriminate|left; discriminate].
Qed.

(** X22.  Whenever no cycle of the mounted component is in flight, it
    holds an error or weather data: once the requests are over, the
    dashboard is never left with neither. *)
Theorem idle_component_has_error_or_data apiKey (o : Outcome) (actions : list Action) :
  let m := run_app apiKey actions (mounted apiKey o) in
  inflight m = [] ->
  error (session (world m)) <> None \/ weatherData (session (world m)) <> None.
Proof.
  apply (run_app_invariant apiKey
           (fun m => inflight m = [] ->
                     error (session (world m)) <> None
                     \/ weatherData (session (world m)) <> None)).
  - intros m a. apply act_keeps_idle_informative.
  - unfold mounted, fetchWeather_default, call_fetchWeather. cbn [step].
    unfold fetchWeather_begin.
    destruct apiKey as [key|]; [|intros _; left; discriminate].
    destruct (string_falsy key); [intros _; left; discriminate|].
    destruct (string_falsy (trim _)); [intros _; left; discriminate|].
    cbn [inflight app boot]. discriminate.
Qed.

(** Without a credential an error is always held. *)
Lemma act_keeps_reporting apiKey (m : Machine) (a : Action) :
  config_falsy apiKey = true ->
  offline m /\
  (error (session (world m)) = Some MSG_MISSING_KEY
   \/ error (session (world m)) = Some MSG_INVALID_CITY) ->
  offline (act apiKey m a) /\
  (error (session (world (act apiKey m a))) = Some MSG_MISSING_KEY
   \/ error (session (world (act apiKey m a))) = Some MSG_INVALID_CITY).
Proof.
  intros Hk [Hoff Hm]. split; [apply act_keeps_offline; assumption|].
  assert (Hcall : forall c u o (m' : Machine),
            error (session (world (call_fetchWeather apiKey c u o m'))) = Some MSG_MISSING_KEY).
  { intros c u o m'. unfold call_fetchWeather.
    rewrite (trigger_without_key apiKey c u o m' Hk). reflexivity. }
  assert (Har : forall before o (m' : Machine),
            (error (session (world m')) = Some MSG_MISSING_KEY
             \/ error (session (world m')) = Some MSG_INVALID_CITY) ->
            error (session (world (after_render apiKey before o m'))) = Some MSG_MISSING_KEY
            \/ error (session (world (after_render apiKey before o m'))) = Some MSG_INVALID_CITY).
  { intros before o m' H. unfold after_render.
    destruct (_ && _); [exact H|left; apply Hcall]. }
  destruct a as [text|o oE|nu o oE|o|o|n]; cbn [act].
  - exact Hm.
  - apply Har. unfold handleSubmit.
    destruct (string_falsy _); [right; reflexivity|left; apply Hcall].
  - apply Har. left. apply Hcall.
  - left. apply Hcall.
  - left. apply Hcall.
  - destruct Hoff as (_ & Hi & _). cbn [step]. rewrite Hi. exact Hm.
Qed.

(** X23.  Without a credential the mounted component always holds one of
    its two guard messages, the missing-credential one from the start and
    after every attempt to fetch, the invalid-city one after a blank
    submit; both are non-empty, so the error banner is always shown. *)
Theorem no_credential_always_reports apiKey (o : Outcome) (actions : list Action) :
  config_falsy apiKey = true ->
  let st := session (world (run_app apiKey actions (mounted apiKey o))) in
  (error st = Some MSG_MISSING_KEY \/ error st = Some MSG_INVALID_CITY)
  /\ string_falsy MSG_MISSING_KEY = false
  /\ string_falsy MSG_INVALID_CITY = false.
Proof.
  intros Hk. cbv zeta. split; [|split; reflexivity].
  apply (run_app_invariant apiKey
           (fun m => offline m /\
                     (error (session (world m)) = Some MSG_MISSING_KEY
                      \/ error (session (world m)) = Some MSG_INVALID_CITY))).
  - intros m a. apply act_keeps_reporting, Hk.
  - unfold mounted, fetchWeather_default, call_fetchWeather.
    rewrite (trigger_without_key apiKey _ _ o _ Hk).
    split; [repeat split|left; reflexivity].
Qed.

(** X24.  [fetchWeather] depends on the city it is given only through its
    trimmed form: calling it with a city or with that city already
    trimmed gives the same requests and the same state. *)
Theorem fetchWeather_sees_trimmed_city apiKey c u (o : Outcome) (w : World) :
  fetchWeather apiKey (trim c) u o w = fetchWeather apiKey c u o w.
Proof.
  unfold fetchWeather, fetchWeather_begin. rewrite trim_idempotent. reflexivity.
Qed.

End CycleFacts.

Section CycleWitnesses.
Import Session App.

Lemma rain_helper_is_whole_percentage_witness :
  exists points n cards,
    Projector.buildForecastPoints (Some DashboardSamples.two_entries) = Normal points
    /\ 0 <= n <= 100
    /\ Dashboard.metrics (fun _ => S754_nan)
         (Some {| current := Some DashboardSamples.madrid;
                  forecast := Some DashboardSamples.two_entries |})
         metric points
       = Normal cards
    /\ map Dashboard.helper cards =
         [None; Some (utf16 "Próx. lluvia: " ++ Num.decimal n ++ utf16 "%");
          None; None; None; None; None; None].
Proof.
  destruct (Projector.buildForecastPoints (Some DashboardSamples.two_entries))
    as [points|e] eqn:E; [|vm_compute in E; discriminate E].
  destruct (rain_helper_is_whole_percentage (fun _ => S754_nan) _
              DashboardSamples.madrid (Some DashboardSamples.two_entries)
              metric DashboardSamples.two_entries
              (ForecastSamples.entry 3) [ForecastSamples.entry 4]
              (Num.div (Num.of_Z 3) (Num.of_Z 10)) points
              eq_refl eq_refl eq_refl E) as (n & cards & Hn & Hc & Hh).
  exists points, n, cards. split; [reflexivity|]. split; [exact Hn|].
  split; [exact Hc|exact Hh].
Defined.

Lemma tooltip_shows_nearest_integer_witness :
  exists n,
    (inject_Z n - (1 # 2) <= Num.exact NumberSamples.n21_6
     /\ Num.exact NumberSamples.n21_6 < inject_Z n + (1 # 2))%Q
    /\ Chart.tooltip_label (fun _ => S754_nan) metric 0 (utf16 "Temperatura (°C)")
         (Format.VNumber NumberSamples.n21_6)
       = utf16 "Temperatura (°C)" ++ utf16 ": " ++ Num.decimal_signed n
           ++ (utf16 " " ++ Chart.unit_glyph metric).
Proof.
  apply (tooltip_shows_nearest_integer (fun _ => S754_nan) metric 0
           (utf16 "Temperatura (°C)") NumberSamples.n21_6);
    [reflexivity|reflexivity|].
  split; [intro H; vm_compute in H; discriminate H
         |intro H; vm_compute in H; discriminate H].
Defined.

Lemma successful_cycle_stores_both_payloads_witness :
  let st := session (fetchWeather (Some Samples.key) (utf16 " Lima ") imperial
                       (Samples.both_ok 1 2 5000) Samples.showing) in
  weatherData st = Some {| current := 1; forecast := 2 |}
  /\ error st = None
  /\ lastUpdated st = Some (now (Samples.both_ok 1 2 5000))
  /\ loading st = false
  /\ city st = city (session Samples.showing)
  /\ units st = units (session Samples.showing)
  /\ searchTerm st = searchTerm (session Samples.showing).
Proof.
  exact (successful_cycle_stores_both_payloads (Some Samples.key) (utf16 " Lima ")
           imperial (Samples.both_ok 1 2 5000) Samples.showing
           (Samples.reply 200 1) (Samples.reply 200 2) 1 2
           eq_refl eq_refl eq_refl eq_refl eq_refl eq_refl eq_refl).
Defined.

Lemma failure_message_provenance_witness :
  error (session (fetchWeather (Some Samples.key) DEFAULT_CITY metric
                    {| currentFetch := Samples.answered 404 0;
                       forecastFetch := Rejected (utf16 "Failed to fetch");
                       fetchOrder := false; jsonOrder := false; now := 5000 |}
                    Samples.showing))
  = Some (utf16 "Failed to fetch").
Proof.
  destruct (failure_message_provenance (Some Samples.key) DEFAULT_CITY metric
              {| currentFetch := Samples.answered 404 0;
                 forecastFetch := Rejected (utf16 "Failed to fetch");
                 fetchOrder := false; jsonOrder := false; now := 5000 |}
              Samples.showing (utf16 "Failed to fetch") eq_refl) as [H _].
  exact (H (Samples.reply 404 0) eq_refl eq_refl).
Defined.

Lemma stored_data_has_update_time_witness :
  lastUpdated (session (world (run_app (Some Samples.key) [Settled 0%nat]
                 (mounted (Some Samples.key) (Samples.both_ok 1 2 1000))))) <> None.
Proof.
  apply (stored_data_has_update_time (Some Samples.key) (Samples.both_ok 1 2 1000)
           [Settled 0%nat]).
  vm_compute. discriminate.
Defined.

Lemma idle_component_has_error_or_data_witness :
  let m := run_app (Some Samples.key) AppSamples.settled_visit
             (mounted (Some Samples.key) (Samples.both_ok 1 2 1000)) in
  error (session (world m)) <> None \/ weatherData (session (world m)) <> None.
Proof.
  apply (idle_component_has_error_or_data (Some Samples.key) (Samples.both_ok 1 2 1000)
           AppSamples.settled_visit).
  vm_compute. reflexivity.
Defined.

Lemma no_credential_always_reports_witness :
  let st := session (world (run_app (Some []) AppSamples.visit
                       (mounted (Some []) (Samples.both_ok 1 2 1000)))) in
  (error st = Some MSG_MISSING_KEY \/ error st = Some MSG_INVALID_CITY)
  /\ string_falsy MSG_MISSING_KEY = false
  /\ string_falsy MSG_INVALID_CITY = false.
Proof.
  exact (no_credential_always_reports (Some []) (Samples.both_ok 1 2 1000)
           AppSamples.visit eq_refl).
Defined.

End CycleWitnesses.

(** ** The rendered page *)

Section ScreenProperties.
Import Session Num Format Dashboard View.

Variable StringToNumber : jsstring -> number.
Variable local_time : Z -> jsstring.

#[local] Abbreviation World := (Session.World CurrentBody ForecastBody).
#[local] Abbreviation Outcome := (Session.Outcome CurrentBody ForecastBody).

Lemma backgroundImageUrl_well_formed n c :
  URI.isWellFormed
    (URI.split_first 44 (match n with Some x => x | None => c end)) = true ->
  exists url, backgroundImageUrl n c = Some url.
Proof.
  intros H. unfold backgroundImageUrl.
  destruct (string_falsy _); [eexists; reflexivity|].
  destruct (URI.encodeURIComponent _) as [q|] eqn:E; [eexists; reflexivity|].
  apply encodeURIComponent_throws in E. congruence.
Qed.


(** X25.  The page after a cycle that passed the guards and failed: no
    current-weather section (so no forecast chips), no metric cards, no
    loading text, the chart's empty state, the controls enabled again
    with the refresh button back to its idle text, and the error banner
    with the failure's message (no banner if that message is empty); the
    update stamp, the search box and the unit buttons stay as they were. *)
Theorem failed_cycle_screen apiKey c u (o : Outcome) (w : World) message :
  precondition apiKey c = true ->
  await_payloads o = Rejected message ->
  URI.isWellFormed (URI.split_first 44 (city (session w))) = true ->
  render StringToNumber local_time (session (fetchWeather apiKey c u o w)) =
    Rendered
      {| updated_stamp := match lastUpdated (session w) with
                          | Some t => Some (local_time t)
                          | None => None
                          end;
         controls_disabled := false;
         refresh_label := utf16 "Actualizar ahora";
         search_value := searchTerm (session w);
         metric_button_active := App.UnitSystem_eqb (units (session w)) metric;
         metric_button_disabled := App.UnitSystem_eqb (units (session w)) metric;
         imperial_button_active := App.UnitSystem_eqb (units (session w)) imperial;
         imperial_button_disabled := App.UnitSystem_eqb (units (session w)) imperial;
         error_banner := if string_falsy message then None else Some message;
         current_section := None;
         loading_message := false;
         metrics_grid := [];
         chart_body := EmptyChart |}.
Proof.
  intros Hpre Hfail Hcity.
  destruct (fetchWeather_accepted apiKey c u o w Hpre) as (key & _ & ->).
  unfold fetchWeather_settle. rewrite Hfail.
  unfold render.
  cbn [session update fetch setLoading setError setWeatherData
       weatherData city units loading error lastUpdated searchTerm
       Projector.buildForecastPoints currentCityName currentWeather metrics].
  destruct (backgroundImageUrl_well_formed None (city (session w)) Hcity) as [url ->].
  rewrite !orb_false_r. reflexivity.
Qed.


End ScreenProperties.

Lemma failed_cycle_screen_witness :
  View.render (fun _ => S754_nan) (fun t => Num.decimal t)
    (Session.session
       (Session.fetchWeather (Some Samples.key) Session.DEFAULT_CITY Session.metric
          (DashboardSamples.unreachable 5000) DashboardSamples.showing_madrid)) =
    View.Rendered
      {| View.updated_stamp :=
           match Session.lastUpdated (Session.session DashboardSamples.showing_madrid) with
           | Some t => Some (Num.decimal t)
           | None => None
           end;
         View.controls_disabled := false;
         View.refresh_label := utf16 "Actualizar ahora";
         View.search_value :=
           Session.searchTerm (Session.session DashboardSamples.showing_madrid);
         View.metric_button_active :=
           App.UnitSystem_eqb
             (Session.units (Session.session DashboardSamples.showing_madrid))
             Session.metric;
         View.metric_button_disabled :=
           App.UnitSystem_eqb
             (Session.units (Session.session DashboardSamples.showing_madrid))
             Session.metric;
         View.imperial_button_active :=
           App.UnitSystem_eqb
             (Session.units (Session.session DashboardSamples.showing_madrid))
             Session.imperial;
         View.imperial_button_disabled :=
           App.UnitSystem_eqb
             (Session.units (Session.session DashboardSamples.showing_madrid))
             Session.imperial;
         View.error_banner :=
           if string_falsy (utf16 "Failed to fetch") then None
           else Some (utf16 "Failed to fetch");
         View.current_section := None;
         View.loading_message := false;
         View.metrics_grid := [];
         View.chart_body := View.EmptyChart |}.
Proof.
  exact (failed_cycle_screen (fun _ => S754_nan) (fun t => Num.decimal t)
           (Some Samples.key) Session.DEFAULT_CITY Session.metric
           (DashboardSamples.unreachable 5000) DashboardSamples.showing_madrid
           (utf16 "Failed to fetch") eq_refl eq_refl eq_refl).
Defined.

